(** * libsais: suffix array and Burrows-Wheeler transform construction

    A shallow embedding of [src/src/libsais.c] (the build without OpenMP:
    every [#if defined(_OPENMP)] block is dropped and its [#else] branch
    kept; the public entry points [libsais] and [libsais_bwt] run with
    [threads = 1]).

    Conventions of the embedding.
    - A C [int] or [ptrdiff_t] value is a [Z].  Additions and subtractions
      are the mathematical ones (a signed overflow is undefined in C),
      except at the two places where the code relies on the wrap-around
      of an [int] subtraction, which use [wrap32]; the bit operations that
      the code plays on the sign bit are [Z.land], [Z.lor], [Z.lxor] on
      the two's complement reading of [Z], with [INT_MIN = -2^31] and
      [INT_MAX = 2^31 - 1].
    - The [size_t] type-state [s] of the scanners wraps at [2^64].
    - An array is a [list Z]; [rd] and [wr] index it by a [Z].  A read out
      of range yields [0] and a write out of range is dropped (both are
      undefined in C).
    - [libsais_prefetch] and [libsais_prefetchw] are hints and are not
      modelled; the unrolled loops are kept, as loops of stride 2, 4 or 8
      followed by their remainder loop.
    - [malloc] is an oracle: the [i]-th allocation of a run succeeds iff
      [malloc_ok i], and its fresh cells hold [malloc_junk i]. *)

From Stdlib Require Import ZArith Lia Bool String Ascii List.
Import ListNotations.
Open Scope Z_scope.

(** ** Machine constants *)

Definition INT_BIT : Z := 32.
Definition INT_MIN : Z := - 2 ^ 31.
Definition INT_MAX : Z := 2 ^ 31 - 1.
Definition UCHAR_MAX : Z := 255.
Definition ALPHABET_SIZE : Z := 256.
Definition SUFFIX_GROUP_BIT : Z := INT_BIT - 1.
Definition SUFFIX_GROUP_MARKER : Z := Z.shiftl 1 (SUFFIX_GROUP_BIT - 1).

Definition BUCKETS_INDEX2 (c s : Z) : Z := Z.shiftl c 1 + s.
Definition BUCKETS_INDEX4 (c s : Z) : Z := Z.shiftl c 2 + s.

(** The value of a C comparison. *)
Definition b2z (b : bool) : Z := if b then 1 else 0.

(** [(cond) << (INT_BIT - 1)] on an [int]. *)
Definition sign_if (b : bool) : Z := if b then INT_MIN else 0.

(** The [int] that a 32-bit two's complement machine keeps of [x]; used
    where the code relies on the wrap-around of an [int] subtraction. *)
Definition wrap32 (x : Z) : Z := (x + 2 ^ 31) mod 2 ^ 32 - 2 ^ 31.

(** Conversions to [size_t], [unsigned int] and [unsigned char]. *)
Definition to_size_t (x : Z) : Z := x mod 2 ^ 64.
Definition to_uint (x : Z) : Z := x mod 2 ^ 32.
Definition to_uchar (x : Z) : Z := x mod 256.

(** ** Arrays *)

Fixpoint upd_nat (l : list Z) (i : nat) (v : Z) : list Z :=
  match l, i with
  | [], _ => []
  | _ :: t, O => v :: t
  | x :: t, S i' => x :: upd_nat t i' v
  end.

Definition rd (l : list Z) (i : Z) : Z :=
  if i <? 0 then 0 else nth (Z.to_nat i) l 0.

Definition wr (l : list Z) (i v : Z) : list Z :=
  if i <? 0 then l else upd_nat l (Z.to_nat i) v.

(** [a[i]++], [a[i]--] and the pre/post values the code uses. *)
Definition incr (l : list Z) (i : Z) : list Z := wr l i (rd l i + 1).
Definition decr (l : list Z) (i : Z) : list Z := wr l i (rd l i - 1).

Fixpoint blit (l : list Z) (i : Z) (chunk : list Z) : list Z :=
  match chunk with
  | [] => l
  | c :: cs => blit (wr l i c) (i + 1) cs
  end.

Definition slice (l : list Z) (i cnt : Z) : list Z :=
  map (fun j => rd l (i + Z.of_nat j)) (seq 0 (Z.to_nat cnt)).

(** [memset(&a[i], 0, cnt * sizeof(int))]. *)
Definition memset0 (l : list Z) (i cnt : Z) : list Z :=
  blit l i (repeat 0 (Z.to_nat cnt)).

(** [memmove(&a[dst], &a[src], cnt * sizeof(int))]; [memcpy] is modelled
    the same way (the source is read before anything is written). *)
Definition memmove (l : list Z) (dst src cnt : Z) : list Z :=
  blit l dst (slice l src cnt).

(** ** Loops

    [for_up step body i j s] is [for (; i < j; i += step) s = body i s] and
    [for_down step body i j s] is [for (; i >= j; i -= step) s = body i s];
    both return the final value of [i] with the state.  The fuel is the
    distance between the bounds, which a positive [step] never exceeds. *)

Section Loops.
Context {St : Type}.

Fixpoint for_up_fuel (fuel : nat) (step : Z) (body : Z -> St -> St)
    (i j : Z) (s : St) : Z * St :=
  match fuel with
  | O => (i, s)
  | S fuel' =>
      if i <? j then for_up_fuel fuel' step body (i + step) j (body i s)
      else (i, s)
  end.

Definition for_up (step : Z) (body : Z -> St -> St) (i j : Z) (s : St) : Z * St :=
  for_up_fuel (Z.to_nat (j - i)) step body i j s.

Fixpoint for_down_fuel (fuel : nat) (step : Z) (body : Z -> St -> St)
    (i j : Z) (s : St) : Z * St :=
  match fuel with
  | O => (i, s)
  | S fuel' =>
      if j <=? i then for_down_fuel fuel' step body (i - step) j (body i s)
      else (i, s)
  end.

Definition for_down (step : Z) (body : Z -> St -> St) (i j : Z) (s : St) : Z * St :=
  for_down_fuel (Z.to_nat (i - j + 1)) step body i j s.
End Loops.

(** ** The byte path: type scanner *)

(** One step of the S/L classification: [s = (s << 1) + (cur > prev - (s & 1))]. *)
Definition type_step (s cur prev : Z) : Z :=
  to_size_t (Z.shiftl s 1 + b2z (prev - Z.land s 1 <? cur)).

(** [while (j < n && (c1 = T[j]) == c0) { ++j; }] *)
Fixpoint skip_equal (fuel : nat) (T : list Z) (n c0 j c1 : Z) : Z * Z :=
  match fuel with
  | O => (j, c1)
  | S fuel' =>
      if j <? n then
        let c1 := rd T j in
        if c1 =? c0 then skip_equal fuel' T n c0 (j + 1) c1 else (j, c1)
      else (j, c1)
  end.

(** State of the count-and-gather scan. *)
Record cg_state : Type := mk_cg {
  cg_SA : list Z; cg_buckets : list Z; cg_m : Z; cg_s : Z; cg_c0 : Z; cg_c1 : Z
}.

(** [c1 = T[i]; s = ...(c1 > c0 - (s & 1)); SA[m] = pos; m -= ((s & 3) == 1);
    buckets[BUCKETS_INDEX4(c0, s & 3)]++;] *)
Definition cg8_read_c1 (T : list Z) (i pos : Z) (st : cg_state) : cg_state :=
  let c1 := rd T i in
  let s := type_step (cg_s st) c1 (cg_c0 st) in
  let SA := wr (cg_SA st) (cg_m st) pos in
  let m := cg_m st - b2z (Z.land s 3 =? 1) in
  let buckets := incr (cg_buckets st) (BUCKETS_INDEX4 (to_size_t (cg_c0 st)) (Z.land s 3)) in
  mk_cg SA buckets m s (cg_c0 st) c1.

(** The same with the roles of [c0] and [c1] exchanged. *)
Definition cg8_read_c0 (T : list Z) (i pos : Z) (st : cg_state) : cg_state :=
  let c0 := rd T i in
  let s := type_step (cg_s st) c0 (cg_c1 st) in
  let SA := wr (cg_SA st) (cg_m st) pos in
  let m := cg_m st - b2z (Z.land s 3 =? 1) in
  let buckets := incr (cg_buckets st) (BUCKETS_INDEX4 (to_size_t (cg_c1 st)) (Z.land s 3)) in
  mk_cg SA buckets m s c0 (cg_c1 st).

Definition libsais_count_and_gather_lms_suffixes_8u (T SA : list Z) (n : Z)
    (buckets : list Z) (omp_block_start omp_block_size : Z) : Z * list Z * list Z :=
  let buckets := memset0 buckets 0 (4 * ALPHABET_SIZE) in
  let m := omp_block_start + omp_block_size - 1 in
  if 0 <? omp_block_size then
    let c0 := rd T m in
    let '(j, c1) := skip_equal (Z.to_nat (n - (m + 1))) T n c0 (m + 1) (-1) in
    let s := b2z (c1 <=? c0) in
    let st := mk_cg SA buckets m s c0 c1 in
    let '(i, st) :=
      for_down 4 (fun i st =>
          cg8_read_c0 T (i - 3) (i - 2)
            (cg8_read_c1 T (i - 2) (i - 1)
              (cg8_read_c0 T (i - 1) (i - 0)
                (cg8_read_c1 T (i - 0) (i + 1) st))))
        (m - 1) (omp_block_start + 3) st in
    let '(i, st) :=
      for_down 1 (fun i st =>
          cg8_read_c0 T i (i + 1)
            (mk_cg (cg_SA st) (cg_buckets st) (cg_m st) (cg_s st) (cg_c0 st) (cg_c0 st)))
        i omp_block_start st in
    let c1 := if 0 <=? i then rd T i else -1 in
    let s := type_step (cg_s st) c1 (cg_c0 st) in
    let SA := wr (cg_SA st) (cg_m st) (i + 1) in
    let m' := cg_m st - b2z (Z.land s 3 =? 1) in
    let buckets := incr (cg_buckets st) (BUCKETS_INDEX4 (to_size_t (cg_c0 st)) (Z.land s 3)) in
    (omp_block_start + omp_block_size - 1 - m', SA, buckets)
  else
    (omp_block_start + omp_block_size - 1 - m, SA, buckets).

Definition libsais_count_and_gather_lms_suffixes_8u_omp (T SA : list Z) (n : Z)
    (buckets : list Z) (threads : Z) : Z * list Z * list Z :=
  let omp_thread_num := 0 in
  let omp_num_threads := 1 in
  let omp_block_stride := Z.land (n / omp_num_threads) (-16) in
  let omp_block_start := omp_thread_num * omp_block_stride in
  let omp_block_size :=
    if omp_thread_num <? omp_num_threads - 1 then omp_block_stride
    else n - omp_block_start in
  libsais_count_and_gather_lms_suffixes_8u T SA n buckets omp_block_start omp_block_size.

(** State of the gather-only scans. *)
Record g_state : Type := mk_g {
  g_SA : list Z; g_m : Z; g_s : Z; g_c0 : Z; g_c1 : Z
}.

(** [c1 = T[i]; s = ...; SA[m] = pos; m -= ((s & 3) == 1);] *)
Definition g8_read_c1 (T : list Z) (i pos : Z) (st : g_state) : g_state :=
  let c1 := rd T i in
  let s := type_step (g_s st) c1 (g_c0 st) in
  let SA := wr (g_SA st) (g_m st) pos in
  mk_g SA (g_m st - b2z (Z.land s 3 =? 1)) s (g_c0 st) c1.

Definition g8_read_c0 (T : list Z) (i pos : Z) (st : g_state) : g_state :=
  let c0 := rd T i in
  let s := type_step (g_s st) c0 (g_c1 st) in
  let SA := wr (g_SA st) (g_m st) pos in
  mk_g SA (g_m st - b2z (Z.land s 3 =? 1)) s c0 (g_c1 st).

Definition libsais_gather_lms_suffixes_8u (T SA : list Z) (n m : Z)
    (omp_block_start omp_block_size : Z) : list Z :=
  if 0 <? omp_block_size then
    let j := omp_block_start + omp_block_size in
    let c0 := rd T (omp_block_start + omp_block_size - 1) in
    let '(j, c1) := skip_equal (Z.to_nat (n - j)) T n c0 j (-1) in
    let s := b2z (c1 <=? c0) in
    let st := mk_g SA m s c0 c1 in
    let '(i, st) :=
      for_down 4 (fun i st =>
          g8_read_c0 T (i - 3) (i - 2)
            (g8_read_c1 T (i - 2) (i - 1)
              (g8_read_c0 T (i - 1) (i - 0)
                (g8_read_c1 T (i - 0) (i + 1) st))))
        (omp_block_start + omp_block_size - 2) (omp_block_start + 3) st in
    let '(i, st) :=
      for_down 1 (fun i st =>
          g8_read_c0 T i (i + 1)
            (mk_g (g_SA st) (g_m st) (g_s st) (g_c0 st) (g_c0 st)))
        i omp_block_start st in
    wr (g_SA st) (g_m st) (i + 1)
  else SA.

Definition libsais_gather_lms_suffixes_8u_omp (T SA : list Z) (n : Z) (threads : Z) : list Z :=
  let omp_thread_num := 0 in
  let omp_num_threads := 1 in
  let omp_block_stride := Z.land (n / omp_num_threads) (-16) in
  let omp_block_start := omp_thread_num * omp_block_stride in
  let omp_block_size :=
    if omp_thread_num <? omp_num_threads - 1 then omp_block_stride
    else n - omp_block_start in
  libsais_gather_lms_suffixes_8u T SA n (n - 1) omp_block_start omp_block_size.

(** ** The byte path: bucket arithmetic *)

Definition libsais_initialize_buckets_start_and_end_8u (buckets : list Z) : list Z :=
  let bucket_start := 6 * ALPHABET_SIZE in
  let bucket_end := 7 * ALPHABET_SIZE in
  let '(_, (buckets, _, _)) :=
    for_up (BUCKETS_INDEX4 1 0) (fun i '(buckets, j, sum) =>
        let buckets := wr buckets (bucket_start + j) sum in
        let sum := sum + (rd buckets (i + BUCKETS_INDEX4 0 0) + rd buckets (i + BUCKETS_INDEX4 0 1)
                          + rd buckets (i + BUCKETS_INDEX4 0 2) + rd buckets (i + BUCKETS_INDEX4 0 3)) in
        let buckets := wr buckets (bucket_end + j) sum in
        (buckets, j + 1, sum))
      (BUCKETS_INDEX4 0 0) (BUCKETS_INDEX4 UCHAR_MAX 0 + 1) (buckets, 0, 0) in
  buckets.

Definition libsais_initialize_buckets_for_lms_suffixes_radix_sort_8u (T buckets : list Z)
    (first_lms_suffix : Z) : Z * list Z :=
  let '(_, (buckets, s, c0, c1)) :=
    for_down 1 (fun i '(buckets, s, c0, c1) =>
        let c1 := c0 in
        let c0 := rd T i in
        let s := type_step s c0 c1 in
        (decr buckets (BUCKETS_INDEX4 (to_size_t c1) (Z.land s 3)), s, c0, c1))
      (first_lms_suffix - 1) 0 (buckets, 0, rd T first_lms_suffix, 0) in
  let buckets :=
    decr buckets (BUCKETS_INDEX4 (to_size_t c0) (Z.land (to_size_t (Z.shiftl s 1)) 3)) in
  let temp_bucket := 4 * ALPHABET_SIZE in
  let '(_, (buckets, _, sum)) :=
    for_up (BUCKETS_INDEX4 1 0) (fun i '(buckets, j, sum) =>
        let buckets := wr buckets (temp_bucket + (j + BUCKETS_INDEX2 0 1)) sum in
        let sum := sum + (rd buckets (i + BUCKETS_INDEX4 0 1) + rd buckets (i + BUCKETS_INDEX4 0 3)) in
        let buckets := wr buckets (temp_bucket + j) sum in
        (buckets, j + BUCKETS_INDEX2 1 0, sum))
      (BUCKETS_INDEX4 0 0) (BUCKETS_INDEX4 UCHAR_MAX 0 + 1) (buckets, BUCKETS_INDEX2 0 0, 0) in
  (sum, buckets).

(** ** The byte path: radix placement of the LMS suffixes *)

(** [int p = SA[i]; SA[--induction_bucket[BUCKETS_INDEX2(T[p], 0)]] = p;] *)
Definition radix8_step (T : list Z) (induction_bucket : Z) (i : Z)
    (st : list Z * list Z) : list Z * list Z :=
  let '(SA, buckets) := st in
  let p := rd SA i in
  let b := induction_bucket + BUCKETS_INDEX2 (rd T p) 0 in
  let buckets := decr buckets b in
  (wr SA (rd buckets b) p, buckets).

Definition libsais_radix_sort_lms_suffixes_8u (T SA buckets : list Z) (induction_bucket : Z)
    (omp_block_start omp_block_size : Z) : list Z * list Z :=
  let prefetch_distance := 32 in
  let step := radix8_step T induction_bucket in
  let j := omp_block_start + prefetch_distance + 3 in
  let '(i, st) :=
    for_down 4 (fun i st => step (i - 3) (step (i - 2) (step (i - 1) (step (i - 0) st))))
      (omp_block_start + omp_block_size - 1) j (SA, buckets) in
  let j := j - (prefetch_distance + 3) in
  snd (for_down 1 step i j st).

Definition libsais_radix_sort_lms_suffixes_8u_omp (T SA : list Z) (n m : Z)
    (buckets : list Z) (threads : Z) : list Z * list Z :=
  libsais_radix_sort_lms_suffixes_8u T SA buckets (4 * ALPHABET_SIZE) (n - m + 1) (m - 1).

Definition libsais_initialize_buckets_for_partial_sorting_8u (T buckets : list Z)
    (first_lms_suffix left_suffixes_count : Z) : list Z :=
  let temp_bucket := 4 * ALPHABET_SIZE in
  let buckets := incr buckets (BUCKETS_INDEX4 (to_size_t (rd T first_lms_suffix)) 1) in
  let '(_, (buckets, _, _, _)) :=
    for_up (BUCKETS_INDEX4 1 0) (fun i '(buckets, j, sum0, sum1) =>
        let buckets := wr buckets (temp_bucket + (j + BUCKETS_INDEX2 0 0)) sum0 in
        let sum0 := sum0 + (rd buckets (i + BUCKETS_INDEX4 0 0) + rd buckets (i + BUCKETS_INDEX4 0 2)) in
        let sum1 := sum1 + rd buckets (i + BUCKETS_INDEX4 0 1) in
        let buckets := wr buckets (j + BUCKETS_INDEX2 0 0) sum0 in
        let buckets := wr buckets (j + BUCKETS_INDEX2 0 1) sum1 in
        (buckets, j + BUCKETS_INDEX2 1 0, sum0, sum1))
      (BUCKETS_INDEX4 0 0) (BUCKETS_INDEX4 UCHAR_MAX 0 + 1)
      (buckets, BUCKETS_INDEX2 0 0, left_suffixes_count + 1, 0) in
  buckets.

(** ** The byte path: induced partial order *)

(** State of the induction scans: the array, the buckets and the group
    counter [d]. *)
Definition scan_state : Type := (list Z * list Z * Z)%type.

(** [int p = SA[i]; d += (p < 0); p &= INT_MAX;
     int v = BUCKETS_INDEX2(T[p - 1], T[p - 2] >= T[p - 1]);
     SA[induction_bucket[v]++] = (p - 1) | ((distinct_names[v] != d) << (INT_BIT - 1));
     distinct_names[v] = d;] *)
Definition partial_l2r_8u_step (T : list Z) (induction_bucket distinct_names : Z)
    (i : Z) (st : scan_state) : scan_state :=
  let '(SA, buckets, d) := st in
  let p := rd SA i in
  let d := d + b2z (p <? 0) in
  let p := Z.land p INT_MAX in
  let v := BUCKETS_INDEX2 (rd T (p - 1)) (b2z (rd T (p - 1) <=? rd T (p - 2))) in
  let idx := rd buckets (induction_bucket + v) in
  let buckets := incr buckets (induction_bucket + v) in
  let SA := wr SA idx (Z.lor (p - 1) (sign_if (negb (rd buckets (distinct_names + v) =? d)))) in
  let buckets := wr buckets (distinct_names + v) d in
  (SA, buckets, d).

Definition libsais_partial_sorting_scan_left_to_right_8u (T SA buckets : list Z) (d : Z)
    (omp_block_start omp_block_size : Z) : scan_state :=
  let prefetch_distance := 32 in
  let step := partial_l2r_8u_step T (4 * ALPHABET_SIZE) (2 * ALPHABET_SIZE) in
  let j := omp_block_start + omp_block_size - prefetch_distance - 1 in
  let '(i, st) := for_up 2 (fun i st => step (i + 1) (step (i + 0) st)) omp_block_start j (SA, buckets, d) in
  let j := j + (prefetch_distance + 1) in
  snd (for_up 1 step i j st).

Definition libsais_partial_sorting_scan_left_to_right_8u_omp (T SA : list Z) (n : Z)
    (buckets : list Z) (left_suffixes_count d threads : Z) : scan_state :=
  let induction_bucket := 4 * ALPHABET_SIZE in
  let distinct_names := 2 * ALPHABET_SIZE in
  let v := BUCKETS_INDEX2 (rd T (n - 1)) (b2z (rd T (n - 1) <=? rd T (n - 2))) in
  let idx := rd buckets (induction_bucket + v) in
  let buckets := incr buckets (induction_bucket + v) in
  let SA := wr SA idx (Z.lor (n - 1) INT_MIN) in
  let d := d + 1 in
  let buckets := wr buckets (distinct_names + v) d in
  if (threads =? 1) || (left_suffixes_count <? 65536) then
    libsais_partial_sorting_scan_left_to_right_8u T SA buckets d 0 left_suffixes_count
  else (SA, buckets, d).

(** [int p = SA[i], q = (p & INT_MIN) ^ s; s = s ^ q; SA[i] = p ^ q;] *)
Definition shift_markers_step (i : Z) (st : list Z * Z) : list Z * Z :=
  let '(SA, s) := st in
  let p := rd SA i in
  let q := Z.lxor (Z.land p INT_MIN) s in
  (wr SA i (Z.lxor p q), Z.lxor s q).

Definition libsais_partial_sorting_shift_markers_8u_omp (SA : list Z) (n : Z)
    (buckets : list Z) (threads : Z) : list Z :=
  let temp_bucket := 4 * ALPHABET_SIZE in
  snd (for_down (BUCKETS_INDEX2 1 0) (fun c SA =>
      let j := rd buckets (c - BUCKETS_INDEX2 1 0) + 3 in
      let '(i, st) :=
        for_down 4 (fun i st =>
            shift_markers_step (i - 3) (shift_markers_step (i - 2)
              (shift_markers_step (i - 1) (shift_markers_step (i - 0) st))))
          (rd buckets (temp_bucket + c) - 1) j (SA, INT_MIN) in
      let j := j - 3 in
      fst (snd (for_down 1 shift_markers_step i j st)))
    (BUCKETS_INDEX2 UCHAR_MAX 0) (BUCKETS_INDEX2 1 0) SA).

(** [int p = SA[i]; d += (p < 0); p &= INT_MAX;
     int v = BUCKETS_INDEX2(T[p - 1], T[p - 2] > T[p - 1]);
     SA[--induction_bucket[v]] = (p - 1) | ((distinct_names[v] != d) << (INT_BIT - 1));
     distinct_names[v] = d;] *)
Definition partial_r2l_8u_step (T : list Z) (induction_bucket distinct_names : Z)
    (i : Z) (st : scan_state) : scan_state :=
  let '(SA, buckets, d) := st in
  let p := rd SA i in
  let d := d + b2z (p <? 0) in
  let p := Z.land p INT_MAX in
  let v := BUCKETS_INDEX2 (rd T (p - 1)) (b2z (rd T (p - 1) <? rd T (p - 2))) in
  let buckets := decr buckets (induction_bucket + v) in
  let idx := rd buckets (induction_bucket + v) in
  let SA := wr SA idx (Z.lor (p - 1) (sign_if (negb (rd buckets (distinct_names + v) =? d)))) in
  let buckets := wr buckets (distinct_names + v) d in
  (SA, buckets, d).

Definition libsais_partial_sorting_scan_right_to_left_8u (T SA buckets : list Z) (d : Z)
    (omp_block_start omp_block_size : Z) : scan_state :=
  let prefetch_distance := 32 in
  let step := partial_r2l_8u_step T (0 * ALPHABET_SIZE) (2 * ALPHABET_SIZE) in
  let j := omp_block_start + prefetch_distance + 1 in
  let '(i, st) :=
    for_down 2 (fun i st => step (i - 1) (step (i - 0) st))
      (omp_block_start + omp_block_size - 1) j (SA, buckets, d) in
  let j := j - (prefetch_distance + 1) in
  snd (for_down 1 step i j st).

Definition libsais_partial_sorting_scan_right_to_left_8u_omp (T SA : list Z) (n : Z)
    (buckets : list Z) (first_lms_suffix left_suffixes_count d threads : Z)
    : list Z * list Z :=
  let scan_start := left_suffixes_count + 1 in
  let scan_end := n - first_lms_suffix in
  if (threads =? 1) || (scan_end - scan_start <? 65536) then
    fst (libsais_partial_sorting_scan_right_to_left_8u T SA buckets d scan_start
           (scan_end - scan_start))
  else (SA, buckets).

Definition libsais_induce_partial_order_8u_omp (T SA : list Z) (n : Z) (buckets : list Z)
    (first_lms_suffix left_suffixes_count threads : Z) : list Z * list Z :=
  let buckets := memset0 buckets (2 * ALPHABET_SIZE) (2 * ALPHABET_SIZE) in
  let '(SA, buckets, d) :=
    libsais_partial_sorting_scan_left_to_right_8u_omp T SA n buckets left_suffixes_count 0 threads in
  let SA := libsais_partial_sorting_shift_markers_8u_omp SA n buckets threads in
  libsais_partial_sorting_scan_right_to_left_8u_omp T SA n buckets first_lms_suffix
    left_suffixes_count d threads.

(** ** The byte path: naming *)

(** [int p = SA[i]; SAm[(p & INT_MAX) >> 1] = name | INT_MIN; name += p < 0;] *)
Definition renumber8_step (m : Z) (i : Z) (st : list Z * Z) : list Z * Z :=
  let '(SA, name) := st in
  let p := rd SA i in
  (wr SA (m + Z.shiftr (Z.land p INT_MAX) 1) (Z.lor name INT_MIN), name + b2z (p <? 0)).

Definition libsais_renumber_lms_suffixes_8u (SA : list Z) (m name : Z)
    (omp_block_start omp_block_size : Z) : Z * list Z :=
  let prefetch_distance := 32 in
  let step := renumber8_step m in
  let j := omp_block_start + omp_block_size - prefetch_distance - 3 in
  let '(i, st) :=
    for_up 4 (fun i st => step (i + 3) (step (i + 2) (step (i + 1) (step (i + 0) st))))
      omp_block_start j (SA, name) in
  let j := j + (prefetch_distance + 3) in
  let '(_, (SA, name)) := for_up 1 step i j st in
  (name, SA).

(** [int s = SA[i]; SA[l] = s & INT_MAX; l -= s < 0;] *)
Definition gather_marked_step (i : Z) (st : list Z * Z) : list Z * Z :=
  let '(SA, l) := st in
  let s := rd SA i in
  (wr SA l (Z.land s INT_MAX), l - b2z (s <? 0)).

Definition libsais_gather_marked_suffixes_8u (SA : list Z) (m l : Z)
    (omp_block_start omp_block_size : Z) : Z * list Z :=
  let l := l - 1 in
  let j := m + omp_block_start + 3 in
  let '(i, st) :=
    for_down 4 (fun i st =>
        gather_marked_step (i - 3) (gather_marked_step (i - 2)
          (gather_marked_step (i - 1) (gather_marked_step (i - 0) st))))
      (m + omp_block_start + omp_block_size - 1) j (SA, l) in
  let j := j - 3 in
  let '(_, (SA, l)) := for_down 1 gather_marked_step i j st in
  (l + 1, SA).

Definition libsais_renumber_lms_suffixes_8u_omp (SA : list Z) (m threads : Z) : Z * list Z :=
  let omp_thread_num := 0 in
  let omp_num_threads := 1 in
  let omp_block_stride := Z.land (m / omp_num_threads) (-16) in
  let omp_block_start := omp_thread_num * omp_block_stride in
  let omp_block_size :=
    if omp_thread_num <? omp_num_threads - 1 then omp_block_stride
    else m - omp_block_start in
  libsais_renumber_lms_suffixes_8u SA m 0 omp_block_start omp_block_size.

Definition libsais_gather_marked_lms_suffixes_8u_omp (SA : list Z) (n m fs threads : Z) : list Z :=
  let omp_thread_num := 0 in
  let omp_num_threads := 1 in
  let omp_block_stride := Z.land (Z.shiftr n 1 / omp_num_threads) (-16) in
  let omp_block_start := omp_thread_num * omp_block_stride in
  let omp_block_size :=
    if omp_thread_num <? omp_num_threads - 1 then omp_block_stride
    else Z.shiftr n 1 - omp_block_start in
  snd (libsais_gather_marked_suffixes_8u SA m (n + fs) omp_block_start omp_block_size).

Definition libsais_renumber_and_gather_lms_suffixes_8u_omp (SA : list Z) (n m fs threads : Z)
    : Z * list Z :=
  let SA := memset0 SA m (Z.shiftr n 1) in
  let '(name, SA) := libsais_renumber_lms_suffixes_8u_omp SA m threads in
  if name <? m then
    (name, libsais_gather_marked_lms_suffixes_8u_omp SA n m fs threads)
  else
    (name, snd (for_up 1 (fun i SA => wr SA i (Z.land (rd SA i) INT_MAX)) 0 m SA)).

(** ** Reconstruction and placement of the sorted LMS suffixes *)

(** [SA[i] = SAnm[SA[i]];] with [SAnm = &SA[n - m]]. *)
Definition reconstruct_step (n m : Z) (i : Z) (SA : list Z) : list Z :=
  wr SA i (rd SA (n - m + rd SA i)).

Definition libsais_reconstruct_lms_suffixes (SA : list Z) (n m : Z)
    (omp_block_start omp_block_size : Z) : list Z :=
  let prefetch_distance := 32 in
  let step := reconstruct_step n m in
  let j := omp_block_start + omp_block_size - prefetch_distance - 3 in
  let '(i, SA) :=
    for_up 4 (fun i SA => step (i + 3) (step (i + 2) (step (i + 1) (step (i + 0) SA))))
      omp_block_start j SA in
  let j := j + (prefetch_distance + 3) in
  snd (for_up 1 step i j SA).

Definition libsais_reconstruct_lms_suffixes_omp (SA : list Z) (n m threads : Z) : list Z :=
  let omp_block_start := 0 in
  let omp_block_size := m in
  libsais_reconstruct_lms_suffixes SA n m omp_block_start omp_block_size.

Definition libsais_place_lms_suffixes_interval_8u (SA : list Z) (n m : Z) (buckets : list Z)
    : list Z :=
  let bucket_end := 7 * ALPHABET_SIZE in
  let '(_, (SA, j, _)) :=
    for_down 1 (fun c '(SA, j, m) =>
        let l := rd buckets (BUCKETS_INDEX2 c 1 + BUCKETS_INDEX2 1 0)
                 - rd buckets (BUCKETS_INDEX2 c 1) in
        if 0 <? l then
          let i := rd buckets (bucket_end + c) in
          let SA := if 0 <? j - i then memset0 SA i (j - i) else SA in
          let j := i - l in
          let m := m - l in
          (memmove SA j m l, j, m)
        else (SA, j, m))
      (UCHAR_MAX - 1) 0 (SA, n, m) in
  memset0 SA 0 j.

(** ** The byte path: final induction *)

(** [int p = SA[i]; SA[i] = p & INT_MAX;
     if (p > 0) { p--; SA[i] = T[p] | INT_MIN;
       SA[induction_bucket[T[p]]++] = p | ((T[p - (p > 0)] < T[p]) << (INT_BIT - 1)); }] *)
Definition final_bwt_l2r_8u_step (T : list Z) (induction_bucket : Z) (i : Z)
    (st : list Z * list Z) : list Z * list Z :=
  let '(SA, buckets) := st in
  let p := rd SA i in
  let SA := wr SA i (Z.land p INT_MAX) in
  if 0 <? p then
    let p := p - 1 in
    let SA := wr SA i (Z.lor (rd T p) INT_MIN) in
    let idx := rd buckets (induction_bucket + rd T p) in
    let buckets := incr buckets (induction_bucket + rd T p) in
    (wr SA idx (Z.lor p (sign_if (rd T (p - b2z (0 <? p)) <? rd T p))), buckets)
  else (SA, buckets).

Definition libsais_final_bwt_scan_left_to_right_8u (T SA buckets : list Z)
    (induction_bucket omp_block_start omp_block_size : Z) : list Z * list Z :=
  let prefetch_distance := 32 in
  let step := final_bwt_l2r_8u_step T induction_bucket in
  let j := omp_block_start + omp_block_size - prefetch_distance - 1 in
  let '(i, st) := for_up 2 (fun i st => step (i + 1) (step (i + 0) st)) omp_block_start j (SA, buckets) in
  let j := j + (prefetch_distance + 1) in
  snd (for_up 1 step i j st).

(** [int p = SA[i]; SA[i] = p ^ INT_MIN;
     if (p > 0) { p--;
       SA[induction_bucket[T[p]]++] = p | ((T[p - (p > 0)] < T[p]) << (INT_BIT - 1)); }] *)
Definition final_sorting_l2r_8u_step (T : list Z) (induction_bucket : Z) (i : Z)
    (st : list Z * list Z) : list Z * list Z :=
  let '(SA, buckets) := st in
  let p := rd SA i in
  let SA := wr SA i (Z.lxor p INT_MIN) in
  if 0 <? p then
    let p := p - 1 in
    let idx := rd buckets (induction_bucket + rd T p) in
    let buckets := incr buckets (induction_bucket + rd T p) in
    (wr SA idx (Z.lor p (sign_if (rd T (p - b2z (0 <? p)) <? rd T p))), buckets)
  else (SA, buckets).

Definition libsais_final_sorting_scan_left_to_right_8u (T SA buckets : list Z)
    (induction_bucket omp_block_start omp_block_size : Z) : list Z * list Z :=
  let prefetch_distance := 32 in
  let step := final_sorting_l2r_8u_step T induction_bucket in
  let j := omp_block_start + omp_block_size - prefetch_distance - 1 in
  let '(i, st) := for_up 2 (fun i st => step (i + 1) (step (i + 0) st)) omp_block_start j (SA, buckets) in
  let j := j + (prefetch_distance + 1) in
  snd (for_up 1 step i j st).

(** [SA[induction_bucket[T[n - 1]]++] = (n - 1) | ((T[n - 2] < T[n - 1]) << (INT_BIT - 1));] *)
Definition final_l2r_8u_seed (T SA buckets : list Z) (n induction_bucket : Z)
    : list Z * list Z :=
  let idx := rd buckets (induction_bucket + rd T (n - 1)) in
  let buckets := incr buckets (induction_bucket + rd T (n - 1)) in
  (wr SA idx (Z.lor (n - 1) (sign_if (rd T (n - 2) <? rd T (n - 1)))), buckets).

Definition libsais_final_bwt_scan_left_to_right_8u_omp (T SA : list Z) (n : Z)
    (buckets : list Z) (induction_bucket threads : Z) : list Z * list Z :=
  let '(SA, buckets) := final_l2r_8u_seed T SA buckets n induction_bucket in
  if (threads =? 1) || (n <? 65536) then
    libsais_final_bwt_scan_left_to_right_8u T SA buckets induction_bucket 0 n
  else (SA, buckets).

Definition libsais_final_sorting_scan_left_to_right_8u_omp (T SA : list Z) (n : Z)
    (buckets : list Z) (induction_bucket threads : Z) : list Z * list Z :=
  let '(SA, buckets) := final_l2r_8u_seed T SA buckets n induction_bucket in
  if (threads =? 1) || (n <? 65536) then
    libsais_final_sorting_scan_left_to_right_8u T SA buckets induction_bucket 0 n
  else (SA, buckets).

(** [int p = SA[i]; index = (p == 0) ? i : index; SA[i] = p & INT_MAX;
     if (p > 0) { p--; unsigned char c0 = T[p - (p > 0)], c1 = T[p]; SA[i] = c1;
       int t = c0 | INT_MIN; SA[--induction_bucket[c1]] = (c0 <= c1) ? p : t; }] *)
Definition final_bwt_r2l_8u_step (T : list Z) (induction_bucket : Z) (i : Z)
    (st : list Z * list Z * Z) : list Z * list Z * Z :=
  let '(SA, buckets, index) := st in
  let p := rd SA i in
  let index := if p =? 0 then i else index in
  let SA := wr SA i (Z.land p INT_MAX) in
  if 0 <? p then
    let p := p - 1 in
    let c0 := rd T (p - b2z (0 <? p)) in
    let c1 := rd T p in
    let SA := wr SA i c1 in
    let t := Z.lor c0 INT_MIN in
    let buckets := decr buckets (induction_bucket + c1) in
    (wr SA (rd buckets (induction_bucket + c1)) (if c0 <=? c1 then p else t), buckets, index)
  else (SA, buckets, index).

Definition libsais_final_bwt_scan_right_to_left_8u (T SA buckets : list Z)
    (induction_bucket omp_block_start omp_block_size : Z) : list Z * list Z * Z :=
  let prefetch_distance := 32 in
  let step := final_bwt_r2l_8u_step T induction_bucket in
  let j := omp_block_start + prefetch_distance + 1 in
  let '(i, st) :=
    for_down 2 (fun i st => step (i - 1) (step (i - 0) st))
      (omp_block_start + omp_block_size - 1) j (SA, buckets, -1) in
  let j := j - (prefetch_distance + 1) in
  snd (for_down 1 step i j st).

(** [int p = SA[i]; SA[i] = p & INT_MAX;
     if (p > 0) { p--;
       SA[--induction_bucket[T[p]]] = p | ((T[p - (p > 0)] > T[p]) << (INT_BIT - 1)); }] *)
Definition final_sorting_r2l_8u_step (T : list Z) (induction_bucket : Z) (i : Z)
    (st : list Z * list Z) : list Z * list Z :=
  let '(SA, buckets) := st in
  let p := rd SA i in
  let SA := wr SA i (Z.land p INT_MAX) in
  if 0 <? p then
    let p := p - 1 in
    let buckets := decr buckets (induction_bucket + rd T p) in
    (wr SA (rd buckets (induction_bucket + rd T p))
        (Z.lor p (sign_if (rd T p <? rd T (p - b2z (0 <? p))))), buckets)
  else (SA, buckets).

Definition libsais_final_sorting_scan_right_to_left_8u (T SA buckets : list Z)
    (induction_bucket omp_block_start omp_block_size : Z) : list Z * list Z :=
  let prefetch_distance := 32 in
  let step := final_sorting_r2l_8u_step T induction_bucket in
  let j := omp_block_start + prefetch_distance + 1 in
  let '(i, st) :=
    for_down 2 (fun i st => step (i - 1) (step (i - 0) st))
      (omp_block_start + omp_block_size - 1) j (SA, buckets) in
  let j := j - (prefetch_distance + 1) in
  snd (for_down 1 step i j st).

Definition libsais_final_bwt_scan_right_to_left_8u_omp (T SA : list Z) (n : Z)
    (buckets : list Z) (induction_bucket threads : Z) : list Z * list Z * Z :=
  let index := -1 in
  if (threads =? 1) || (n <? 65536) then
    libsais_final_bwt_scan_right_to_left_8u T SA buckets induction_bucket 0 n
  else (SA, buckets, index).

Definition libsais_final_sorting_scan_right_to_left_8u_omp (T SA : list Z) (n : Z)
    (buckets : list Z) (induction_bucket threads : Z) : list Z * list Z :=
  if (threads =? 1) || (n <? 65536) then
    libsais_final_sorting_scan_right_to_left_8u T SA buckets induction_bucket 0 n
  else (SA, buckets).

Definition libsais_clear_lms_suffixes_omp (SA : list Z) (n k : Z) (buckets : list Z)
    (bucket_start bucket_end threads : Z) : list Z :=
  snd (for_up 1 (fun c SA =>
      if rd buckets (bucket_start + c) <? rd buckets (bucket_end + c) then
        memset0 SA (rd buckets (bucket_start + c))
          (rd buckets (bucket_end + c) - rd buckets (bucket_start + c))
      else SA)
    0 k SA).

Definition libsais_induce_final_order_8u_omp (T SA : list Z) (n bwt : Z) (buckets : list Z)
    (threads : Z) : Z * list Z * list Z :=
  if negb (bwt =? 0) then
    let '(SA, buckets) :=
      libsais_final_bwt_scan_left_to_right_8u_omp T SA n buckets (6 * ALPHABET_SIZE) threads in
    let SA :=
      libsais_clear_lms_suffixes_omp SA n ALPHABET_SIZE buckets (6 * ALPHABET_SIZE)
        (7 * ALPHABET_SIZE) threads in
    let '(SA, buckets, index) :=
      libsais_final_bwt_scan_right_to_left_8u_omp T SA n buckets (7 * ALPHABET_SIZE) threads in
    (index, SA, buckets)
  else
    let '(SA, buckets) :=
      libsais_final_sorting_scan_left_to_right_8u_omp T SA n buckets (6 * ALPHABET_SIZE) threads in
    let SA :=
      if (1 <? threads) && (65536 <=? n) then
        libsais_clear_lms_suffixes_omp SA n ALPHABET_SIZE buckets (6 * ALPHABET_SIZE)
          (7 * ALPHABET_SIZE) threads
      else SA in
    let '(SA, buckets) :=
      libsais_final_sorting_scan_right_to_left_8u_omp T SA n buckets (7 * ALPHABET_SIZE) threads in
    (0, SA, buckets).

(** [U[i] = (unsigned char)A[i]] over [n] cells, [U] and [A] being the
    pointers [U + uoff] and [A + aoff] of the call. *)
Definition libsais_bwt_copy_8u (U : list Z) (uoff : Z) (A : list Z) (aoff n : Z) : list Z :=
  let step := fun i U => wr U (uoff + i) (to_uchar (rd A (aoff + i))) in
  let j := n - 7 in
  let '(i, U) :=
    for_up 8 (fun i U =>
        step (i + 7) (step (i + 6) (step (i + 5) (step (i + 4)
          (step (i + 3) (step (i + 2) (step (i + 1) (step (i + 0) U))))))))
      0 j U in
  let j := j + 7 in
  snd (for_up 1 step i j U).

(** ** Memory of the integer path

    [libsais_main_32s] is called on a text that lives inside the caller's
    [SA] buffer ([T = SA + n + fs - m]), and its buckets live either in
    the slack of that buffer or in a block obtained from [malloc].  Its
    functions therefore work on one memory with two blocks, the [SA]
    buffer and the heap block, and take their arrays as pointers into it. *)

Record mem : Type := mk_mem { m_sa : list Z; m_heap : list Z }.

Inductive ptr : Type :=
| PSA (off : Z)      (* [SA + off] *)
| PHeap (off : Z).   (* [buffer + off] *)

Definition padd (p : ptr) (i : Z) : ptr :=
  match p with
  | PSA o => PSA (o + i)
  | PHeap o => PHeap (o + i)
  end.

Definition ld (M : mem) (p : ptr) (i : Z) : Z :=
  match p with
  | PSA o => rd (m_sa M) (o + i)
  | PHeap o => rd (m_heap M) (o + i)
  end.

Definition st (M : mem) (p : ptr) (i v : Z) : mem :=
  match p with
  | PSA o => mk_mem (wr (m_sa M) (o + i) v) (m_heap M)
  | PHeap o => mk_mem (m_sa M) (wr (m_heap M) (o + i) v)
  end.

Definition incr_m (M : mem) (p : ptr) (i : Z) : mem := st M p i (ld M p i + 1).
Definition decr_m (M : mem) (p : ptr) (i : Z) : mem := st M p i (ld M p i - 1).

Fixpoint blit_m (M : mem) (p : ptr) (i : Z) (chunk : list Z) : mem :=
  match chunk with
  | [] => M
  | c :: cs => blit_m (st M p i c) p (i + 1) cs
  end.

Definition slice_m (M : mem) (p : ptr) (i cnt : Z) : list Z :=
  map (fun j => ld M p (i + Z.of_nat j)) (seq 0 (Z.to_nat cnt)).

Definition memset0_m (M : mem) (p : ptr) (i cnt : Z) : mem :=
  blit_m M p i (repeat 0 (Z.to_nat cnt)).

(** [memmove(&dst[i], &src[j], cnt * sizeof(int))], also used for [memcpy]. *)
Definition memmove_m (M : mem) (dst : ptr) (i : Z) (src : ptr) (j cnt : Z) : mem :=
  blit_m M dst i (slice_m M src j cnt).

(** ** The integer path: type scanners *)

Record sc32 : Type := mk_sc {
  sc_mem : mem; sc_m : Z; sc_s : Z; sc_c0 : Z; sc_c1 : Z
}.

(** The scanners alternate between [c1 = T[i]; ... c1 > c0 ...] and
    [c0 = T[i]; ... c0 > c1 ...]; [read_c1] tells which of the two a step
    is.  [sc_prev] is the symbol read one step before. *)
Definition sc_prev (read_c1 : bool) (x : sc32) : Z :=
  if read_c1 then sc_c0 x else sc_c1 x.

Definition sc_read (T : ptr) (read_c1 : bool) (i : Z) (x : sc32) : sc32 :=
  let cur := ld (sc_mem x) T i in
  let s := type_step (sc_s x) cur (sc_prev read_c1 x) in
  if read_c1 then mk_sc (sc_mem x) (sc_m x) s (sc_c0 x) cur
  else mk_sc (sc_mem x) (sc_m x) s cur (sc_c1 x).

(** [c1 = c0;] at the head of the remainder loops. *)
Definition sc_shift (x : sc32) : sc32 :=
  mk_sc (sc_mem x) (sc_m x) (sc_s x) (sc_c0 x) (sc_c0 x).

(** [SA[m] = pos; m -= ((s & 3) == 1);] *)
Definition sc_gather (SA : ptr) (pos : Z) (x : sc32) : sc32 :=
  let M := st (sc_mem x) SA (sc_m x) pos in
  mk_sc M (sc_m x - b2z (Z.land (sc_s x) 3 =? 1)) (sc_s x) (sc_c0 x) (sc_c1 x).

(** [SA[m] = pos; m -= ((ptrdiff_t)(s & 3) == (prev >= 0));] *)
Definition sc_gather_compacted (SA : ptr) (read_c1 : bool) (pos : Z) (x : sc32) : sc32 :=
  let M := st (sc_mem x) SA (sc_m x) pos in
  mk_sc M (sc_m x - b2z (Z.land (sc_s x) 3 =? b2z (0 <=? sc_prev read_c1 x)))
        (sc_s x) (sc_c0 x) (sc_c1 x).

(** [prev &= INT_MAX;] *)
Definition sc_mask_prev (read_c1 : bool) (x : sc32) : sc32 :=
  if read_c1 then mk_sc (sc_mem x) (sc_m x) (sc_s x) (Z.land (sc_c0 x) INT_MAX) (sc_c1 x)
  else mk_sc (sc_mem x) (sc_m x) (sc_s x) (sc_c0 x) (Z.land (sc_c1 x) INT_MAX).

(** [buckets[BUCKETS_INDEX4((size_t)prev, s & 3)]++;] *)
Definition sc_count4 (buckets : ptr) (read_c1 : bool) (x : sc32) : sc32 :=
  let M := incr_m (sc_mem x) buckets
             (BUCKETS_INDEX4 (to_size_t (sc_prev read_c1 x)) (Z.land (sc_s x) 3)) in
  mk_sc M (sc_m x) (sc_s x) (sc_c0 x) (sc_c1 x).

(** [buckets[BUCKETS_INDEX2((size_t)prev, (s & 3) == 1)]++;] *)
Definition sc_count2 (buckets : ptr) (read_c1 : bool) (x : sc32) : sc32 :=
  let M := incr_m (sc_mem x) buckets
             (BUCKETS_INDEX2 (to_size_t (sc_prev read_c1 x)) (b2z (Z.land (sc_s x) 3 =? 1))) in
  mk_sc M (sc_m x) (sc_s x) (sc_c0 x) (sc_c1 x).

(** The loop skeleton shared by the scanners: a loop of stride 4 down to
    [lo4], then the remainder loop down to 0.  [sub read_c1 i pos] is the
    statement group that reads [T[i]] and records position [pos]. *)
Definition sc_scan (sub : bool -> Z -> Z -> sc32 -> sc32) (lo4 : Z) (i : Z) (x : sc32)
    : sc32 :=
  let '(i, x) :=
    for_down 4 (fun i x =>
        sub false (i - 3) (i - 2) (sub true (i - 2) (i - 1)
          (sub false (i - 1) (i - 0) (sub true (i - 0) (i + 1) x))))
      i lo4 x in
  snd (for_down 1 (fun i x => sub false i (i + 1) (sc_shift x)) i 0 x).

Definition libsais_gather_lms_suffixes_32s (M : mem) (T SA : ptr) (n : Z) : Z * mem :=
  let x := mk_sc M (n - 1) 1 (ld M T (n - 1)) 0 in
  let x := sc_scan (fun r i pos x => sc_gather SA pos (sc_read T r i x)) 3 (n - 2) x in
  (n - 1 - sc_m x, sc_mem x).

Definition libsais_gather_compacted_lms_suffixes_32s (M : mem) (T SA : ptr) (n : Z)
    : Z * mem :=
  let x := mk_sc M (n - 1) 1 (ld M T (n - 1)) 0 in
  let x := sc_scan (fun r i pos x => sc_gather_compacted SA r pos (sc_read T r i x))
             3 (n - 2) x in
  (n - 1 - sc_m x, sc_mem x).

Definition libsais_count_lms_suffixes_32s_2k (M : mem) (T : ptr) (n k : Z) (buckets : ptr)
    : mem :=
  let prefetch_distance := 32 in
  let M := memset0_m M buckets 0 (2 * k) in
  let x := mk_sc M 0 1 (ld M T (n - 1)) 0 in
  let x := sc_scan (fun r i pos x => sc_count2 buckets r (sc_read T r i x))
             (prefetch_distance + 3) (n - 2) x in
  incr_m (sc_mem x) buckets (BUCKETS_INDEX2 (to_size_t (sc_c0 x)) 0).

Definition libsais_count_and_gather_lms_suffixes_32s_4k (M : mem) (T SA : ptr) (n k : Z)
    (buckets : ptr) : Z * mem :=
  let prefetch_distance := 32 in
  let M := memset0_m M buckets 0 (4 * k) in
  let x := mk_sc M (n - 1) 1 (ld M T (n - 1)) 0 in
  let x := sc_scan (fun r i pos x => sc_count4 buckets r (sc_gather SA pos (sc_read T r i x)))
             (prefetch_distance + 3) (n - 2) x in
  let M := incr_m (sc_mem x) buckets
             (BUCKETS_INDEX4 (to_size_t (sc_c0 x)) (Z.land (to_size_t (Z.shiftl (sc_s x) 1)) 3)) in
  (n - 1 - sc_m x, M).

Definition libsais_count_and_gather_lms_suffixes_32s_2k (M : mem) (T SA : ptr) (n k : Z)
    (buckets : ptr) : Z * mem :=
  let prefetch_distance := 32 in
  let M := memset0_m M buckets 0 (2 * k) in
  let x := mk_sc M (n - 1) 1 (ld M T (n - 1)) 0 in
  let x := sc_scan (fun r i pos x => sc_count2 buckets r (sc_gather SA pos (sc_read T r i x)))
             (prefetch_distance + 3) (n - 2) x in
  let M := incr_m (sc_mem x) buckets (BUCKETS_INDEX2 (to_size_t (sc_c0 x)) 0) in
  (n - 1 - sc_m x, M).

Definition libsais_count_and_gather_compacted_lms_suffixes_32s_2k (M : mem) (T SA : ptr)
    (n k : Z) (buckets : ptr) : Z * mem :=
  let prefetch_distance := 32 in
  let M := memset0_m M buckets 0 (2 * k) in
  let x := mk_sc M (n - 1) 1 (ld M T (n - 1)) 0 in
  let x := sc_scan (fun r i pos x =>
               sc_count2 buckets r (sc_mask_prev r
                 (sc_gather_compacted SA r pos (sc_read T r i x))))
             (prefetch_distance + 3) (n - 2) x in
  let c0 := Z.land (sc_c0 x) INT_MAX in
  let M := incr_m (sc_mem x) buckets (BUCKETS_INDEX2 (to_size_t c0) 0) in
  (n - 1 - sc_m x, M).

Definition libsais_count_and_gather_lms_suffixes_32s_4k_omp (M : mem) (T SA : ptr) (n k : Z)
    (buckets : ptr) (threads : Z) : Z * mem :=
  libsais_count_and_gather_lms_suffixes_32s_4k M T SA n k buckets.

Definition libsais_count_and_gather_lms_suffixes_32s_2k_omp (M : mem) (T SA : ptr) (n k : Z)
    (buckets : ptr) (threads : Z) : Z * mem :=
  libsais_count_and_gather_lms_suffixes_32s_2k M T SA n k buckets.

Definition libsais_count_and_gather_compacted_lms_suffixes_32s_2k_omp (M : mem) (T SA : ptr)
    (n k : Z) (buckets : ptr) (threads : Z) : Z * mem :=
  libsais_count_and_gather_compacted_lms_suffixes_32s_2k M T SA n k buckets.

Definition libsais_count_suffixes_32s (M : mem) (T : ptr) (n k : Z) (buckets : ptr) : mem :=
  let M := memset0_m M buckets 0 k in
  let step := fun i M => incr_m M buckets (ld M T i) in
  let j := n - 7 in
  let '(i, M) :=
    for_up 8 (fun i M =>
        step (i + 7) (step (i + 6) (step (i + 5) (step (i + 4)
          (step (i + 3) (step (i + 2) (step (i + 1) (step (i + 0) M))))))))
      0 j M in
  let j := j + 7 in
  snd (for_up 1 step i j M).

(** ** The integer path: bucket arithmetic *)

Definition libsais_initialize_buckets_start_and_end_32s_6k (M : mem) (k : Z) (buckets : ptr)
    : mem :=
  let bucket_start := padd buckets (4 * k) in
  let bucket_end := padd buckets (5 * k) in
  let '(_, (M, _, _)) :=
    for_up (BUCKETS_INDEX4 1 0) (fun i '(M, j, sum) =>
        let M := st M bucket_start j sum in
        let sum := sum + (ld M buckets (i + BUCKETS_INDEX4 0 0) + ld M buckets (i + BUCKETS_INDEX4 0 1)
                          + ld M buckets (i + BUCKETS_INDEX4 0 2) + ld M buckets (i + BUCKETS_INDEX4 0 3)) in
        let M := st M bucket_end j sum in
        (M, j + 1, sum))
      (BUCKETS_INDEX4 0 0) (BUCKETS_INDEX4 (k - 1) 0 + 1) (M, 0, 0) in
  M.

Definition libsais_initialize_buckets_start_and_end_32s_4k (M : mem) (k : Z) (buckets : ptr)
    : mem :=
  let bucket_start := padd buckets (2 * k) in
  let bucket_end := padd buckets (3 * k) in
  let '(_, (M, _, _)) :=
    for_up (BUCKETS_INDEX2 1 0) (fun i '(M, j, sum) =>
        let M := st M bucket_start j sum in
        let sum := sum + (ld M buckets (i + BUCKETS_INDEX2 0 0) + ld M buckets (i + BUCKETS_INDEX2 0 1)) in
        let M := st M bucket_end j sum in
        (M, j + 1, sum))
      (BUCKETS_INDEX2 0 0) (BUCKETS_INDEX2 (k - 1) 0 + 1) (M, 0, 0) in
  M.

Definition libsais_initialize_buckets_end_32s_2k (M : mem) (k : Z) (buckets : ptr) : mem :=
  let '(_, (M, _)) :=
    for_up (BUCKETS_INDEX2 1 0) (fun i '(M, sum0) =>
        let sum0 := sum0 + (ld M buckets (i + BUCKETS_INDEX2 0 0) + ld M buckets (i + BUCKETS_INDEX2 0 1)) in
        (st M buckets (i + BUCKETS_INDEX2 0 0) sum0, sum0))
      (BUCKETS_INDEX2 0 0) (BUCKETS_INDEX2 (k - 1) 0 + 1) (M, 0) in
  M.

Definition libsais_initialize_buckets_start_and_end_32s_2k (M : mem) (k : Z) (buckets : ptr)
    : mem :=
  let '(_, (M, _)) :=
    for_up (BUCKETS_INDEX2 1 0) (fun i '(M, j) => (st M buckets j (ld M buckets i), j + 1))
      (BUCKETS_INDEX2 0 0) (BUCKETS_INDEX2 (k - 1) 0 + 1) (M, 0) in
  let M := st M buckets k 0 in
  memmove_m M buckets (k + 1) buckets 0 (k - 1).

Definition libsais_initialize_buckets_start_32s_1k (M : mem) (k : Z) (buckets : ptr) : mem :=
  let '(_, (M, _)) :=
    for_up 1 (fun i '(M, sum) =>
        let tmp := ld M buckets i in
        (st M buckets i sum, sum + tmp))
      0 (k - 1 + 1) (M, 0) in
  M.

Definition libsais_initialize_buckets_end_32s_1k (M : mem) (k : Z) (buckets : ptr) : mem :=
  let '(_, (M, _)) :=
    for_up 1 (fun i '(M, sum) =>
        let sum := sum + ld M buckets i in
        (st M buckets i sum, sum))
      0 (k - 1 + 1) (M, 0) in
  M.

Definition libsais_initialize_buckets_for_lms_suffixes_radix_sort_32s_2k (M : mem) (T : ptr)
    (k : Z) (buckets : ptr) (first_lms_suffix : Z) : mem :=
  let M := incr_m M buckets (BUCKETS_INDEX2 (ld M T first_lms_suffix) 0) in
  let M := decr_m M buckets (BUCKETS_INDEX2 (ld M T first_lms_suffix) 1) in
  let '(_, (M, _, _)) :=
    for_up (BUCKETS_INDEX2 1 0) (fun i '(M, sum0, sum1) =>
        let sum0 := sum0 + (ld M buckets (i + BUCKETS_INDEX2 0 0) + ld M buckets (i + BUCKETS_INDEX2 0 1)) in
        let sum1 := sum1 + ld M buckets (i + BUCKETS_INDEX2 0 1) in
        let M := st M buckets (i + BUCKETS_INDEX2 0 0) sum0 in
        let M := st M buckets (i + BUCKETS_INDEX2 0 1) sum1 in
        (M, sum0, sum1))
      (BUCKETS_INDEX2 0 0) (BUCKETS_INDEX2 (k - 1) 0 + 1) (M, 0, 0) in
  M.

Definition libsais_initialize_buckets_for_lms_suffixes_radix_sort_32s_6k (M : mem) (T : ptr)
    (k : Z) (buckets : ptr) (first_lms_suffix : Z) : Z * mem :=
  let '(_, (M, s, c0, c1)) :=
    for_down 1 (fun i '(M, s, c0, c1) =>
        let c1 := c0 in
        let c0 := ld M T i in
        let s := type_step s c0 c1 in
        (decr_m M buckets (BUCKETS_INDEX4 (to_size_t c1) (Z.land s 3)), s, c0, c1))
      (first_lms_suffix - 1) 0 (M, 0, ld M T first_lms_suffix, 0) in
  let M :=
    decr_m M buckets (BUCKETS_INDEX4 (to_size_t c0) (Z.land (to_size_t (Z.shiftl s 1)) 3)) in
  let temp_bucket := padd buckets (4 * k) in
  let '(_, (M, _, sum)) :=
    for_up (BUCKETS_INDEX4 1 0) (fun i '(M, j, sum) =>
        let sum := sum + (ld M buckets (i + BUCKETS_INDEX4 0 1) + ld M buckets (i + BUCKETS_INDEX4 0 3)) in
        (st M temp_bucket j sum, j + 1, sum))
      (BUCKETS_INDEX4 0 0) (BUCKETS_INDEX4 (k - 1) 0 + 1) (M, 0, 0) in
  (sum, M).

Definition libsais_initialize_buckets_for_radix_and_partial_sorting_32s_4k (M : mem) (T : ptr)
    (k : Z) (buckets : ptr) (first_lms_suffix : Z) : mem :=
  let bucket_start := padd buckets (2 * k) in
  let bucket_end := padd buckets (3 * k) in
  let M := incr_m M buckets (BUCKETS_INDEX2 (ld M T first_lms_suffix) 0) in
  let M := decr_m M buckets (BUCKETS_INDEX2 (ld M T first_lms_suffix) 1) in
  let '(_, (M, _, _, _)) :=
    for_up (BUCKETS_INDEX2 1 0) (fun i '(M, j, sum0, sum1) =>
        let M := st M bucket_start j sum1 in
        let sum0 := sum0 + ld M buckets (i + BUCKETS_INDEX2 0 1) in
        let sum1 := sum1 + (ld M buckets (i + BUCKETS_INDEX2 0 0) + ld M buckets (i + BUCKETS_INDEX2 0 1)) in
        let M := st M buckets (i + BUCKETS_INDEX2 0 1) sum0 in
        let M := st M bucket_end j sum1 in
        (M, j + 1, sum0, sum1))
      (BUCKETS_INDEX2 0 0) (BUCKETS_INDEX2 (k - 1) 0 + 1) (M, 0, 0, 0) in
  M.

(** ** The integer path: radix placement *)

(** [int p = SA[i]; SA[--induction_bucket[T[p]]] = p;] *)
Definition radix32_6k_step (T SA induction_bucket : ptr) (i : Z) (M : mem) : mem :=
  let p := ld M SA i in
  let b := ld M T p in
  let M := decr_m M induction_bucket b in
  st M SA (ld M induction_bucket b) p.

Definition libsais_radix_sort_lms_suffixes_32s_6k (M : mem) (T SA : ptr) (n m : Z)
    (induction_bucket : ptr) : mem :=
  let prefetch_distance := 32 in
  let step := radix32_6k_step T SA induction_bucket in
  let j := n - m + 2 * prefetch_distance + 3 in
  let '(i, M) :=
    for_down 4 (fun i M => step (i - 3) (step (i - 2) (step (i - 1) (step (i - 0) M))))
      (n - 1) (j + 1) M in
  let j := j - (2 * prefetch_distance + 3) in
  snd (for_down 1 step i (j + 1) M).

(** [int p = SA[i]; SA[--induction_bucket[BUCKETS_INDEX2(T[p], 0)]] = p;] *)
Definition radix32_2k_step (T SA induction_bucket : ptr) (i : Z) (M : mem) : mem :=
  let p := ld M SA i in
  let b := BUCKETS_INDEX2 (ld M T p) 0 in
  let M := decr_m M induction_bucket b in
  st M SA (ld M induction_bucket b) p.

Definition libsais_radix_sort_lms_suffixes_32s_2k (M : mem) (T SA : ptr) (n m : Z)
    (induction_bucket : ptr) : mem :=
  let prefetch_distance := 32 in
  let step := radix32_2k_step T SA induction_bucket in
  let j := n - m + 2 * prefetch_distance + 3 in
  let '(i, M) :=
    for_down 4 (fun i M => step (i - 3) (step (i - 2) (step (i - 1) (step (i - 0) M))))
      (n - 1) (j + 1) M in
  let j := j - (2 * prefetch_distance + 3) in
  snd (for_down 1 step i (j + 1) M).

(** State of the 1k radix scan: the type scanner and [c2]. *)
Definition radix1k_sub (T SA buckets : ptr) (read_c1 : bool) (i pos : Z) (st0 : sc32 * Z)
    : sc32 * Z :=
  let '(x, c2) := st0 in
  let x := sc_read T read_c1 i x in
  if Z.land (sc_s x) 3 =? 1 then
    let c2 := sc_prev read_c1 x in
    let M := decr_m (sc_mem x) buckets c2 in
    let M := st M SA (ld M buckets c2) pos in
    (mk_sc M (sc_m x + 1) (sc_s x) (sc_c0 x) (sc_c1 x), c2)
  else (x, c2).

Definition libsais_radix_sort_lms_suffixes_32s_1k (M : mem) (T SA : ptr) (n : Z)
    (buckets : ptr) : Z * mem :=
  let prefetch_distance := 32 in
  let sub := radix1k_sub T SA buckets in
  let x := mk_sc M 0 1 (ld M T (n - 1)) 0 in
  let '(i, y) :=
    for_down 4 (fun i y =>
        sub false (i - 3) (i - 2) (sub true (i - 2) (i - 1)
          (sub false (i - 1) (i - 0) (sub true (i - 0) (i + 1) y))))
      (n - 2) (prefetch_distance + 3) (x, 0) in
  let '(_, (x, c2)) :=
    for_down 1 (fun i '(x, c2) => sub false i (i + 1) (sc_shift x, c2)) i 0 y in
  let M := sc_mem x in
  let m := sc_m x in
  if 1 <? m then (m, st M SA (ld M buckets c2) 0) else (m, M).

(** [SA[induction_bucket[i]] |= INT_MIN;] *)
Definition set_markers_6k_step (SA induction_bucket : ptr) (i : Z) (M : mem) : mem :=
  let idx := ld M induction_bucket i in
  st M SA idx (Z.lor (ld M SA idx) INT_MIN).

Definition libsais_radix_sort_set_markers_32s_6k (M : mem) (SA induction_bucket : ptr)
    (omp_block_start omp_block_size : Z) : mem :=
  let prefetch_distance := 32 in
  let step := set_markers_6k_step SA induction_bucket in
  let j := omp_block_start + omp_block_size - prefetch_distance - 3 in
  let '(i, M) :=
    for_up 4 (fun i M => step (i + 3) (step (i + 2) (step (i + 1) (step (i + 0) M))))
      omp_block_start j M in
  let j := j + (prefetch_distance + 3) in
  snd (for_up 1 step i j M).

(** [SA[induction_bucket[BUCKETS_INDEX2(i, 0)]] |= SUFFIX_GROUP_MARKER;] *)
Definition set_markers_4k_step (SA induction_bucket : ptr) (i : Z) (M : mem) : mem :=
  let idx := ld M induction_bucket (BUCKETS_INDEX2 i 0) in
  st M SA idx (Z.lor (ld M SA idx) SUFFIX_GROUP_MARKER).

Definition libsais_radix_sort_set_markers_32s_4k (M : mem) (SA induction_bucket : ptr)
    (omp_block_start omp_block_size : Z) : mem :=
  let prefetch_distance := 32 in
  let step := set_markers_4k_step SA induction_bucket in
  let j := omp_block_start + omp_block_size - prefetch_distance - 3 in
  let '(i, M) :=
    for_up 4 (fun i M => step (i + 3) (step (i + 2) (step (i + 1) (step (i + 0) M))))
      omp_block_start j M in
  let j := j + (prefetch_distance + 3) in
  snd (for_up 1 step i j M).

Definition libsais_radix_sort_set_markers_32s_6k_omp (M : mem) (SA : ptr) (k : Z)
    (induction_bucket : ptr) (threads : Z) : mem :=
  let omp_block_start := 0 in
  let omp_block_size := k - 1 in
  libsais_radix_sort_set_markers_32s_6k M SA induction_bucket omp_block_start omp_block_size.

Definition libsais_radix_sort_set_markers_32s_4k_omp (M : mem) (SA : ptr) (k : Z)
    (induction_bucket : ptr) (threads : Z) : mem :=
  let omp_block_start := 0 in
  let omp_block_size := k - 1 in
  libsais_radix_sort_set_markers_32s_4k M SA induction_bucket omp_block_start omp_block_size.

(** ** The integer path: induced partial order *)

Definition libsais_initialize_buckets_for_partial_sorting_32s_6k (M : mem) (T : ptr) (k : Z)
    (buckets : ptr) (first_lms_suffix left_suffixes_count : Z) : mem :=
  let temp_bucket := padd buckets (4 * k) in
  let body := fun i '(M, j, sum0, sum1, sum2) =>
    let SS := ld M buckets (i + BUCKETS_INDEX4 0 0) in
    let LS := ld M buckets (i + BUCKETS_INDEX4 0 1) in
    let SL := ld M buckets (i + BUCKETS_INDEX4 0 2) in
    let LL := ld M buckets (i + BUCKETS_INDEX4 0 3) in
    let M := st M buckets (i + BUCKETS_INDEX4 0 0) sum0 in
    let M := st M buckets (i + BUCKETS_INDEX4 0 1) sum2 in
    let M := st M buckets (i + BUCKETS_INDEX4 0 2) 0 in
    let M := st M buckets (i + BUCKETS_INDEX4 0 3) 0 in
    let sum0 := sum0 + (SS + SL) in
    let sum1 := sum1 + LS in
    let sum2 := sum2 + (LS + LL) in
    let M := st M temp_bucket (j + BUCKETS_INDEX2 0 0) sum0 in
    let M := st M temp_bucket (j + BUCKETS_INDEX2 0 1) sum1 in
    (M, j + BUCKETS_INDEX2 1 0, sum0, sum1, sum2) in
  let first_lms_suffix := ld M T first_lms_suffix in
  let '(i, (M, j, sum0, sum1, sum2)) :=
    for_up (BUCKETS_INDEX4 1 0) body (BUCKETS_INDEX4 0 0)
      (BUCKETS_INDEX4 (first_lms_suffix - 1) 0 + 1)
      (M, BUCKETS_INDEX2 0 0, left_suffixes_count + 1, 0, 0) in
  let sum1 := sum1 + 1 in
  let '(_, (M, _, _, _, _)) :=
    for_up (BUCKETS_INDEX4 1 0) body i (BUCKETS_INDEX4 (k - 1) 0 + 1)
      (M, j, sum0, sum1, sum2) in
  M.

Definition scan32 : Type := (mem * Z)%type.

(** [int p = SA[i]; d += (p < 0); p &= INT_MAX;
     int v = BUCKETS_INDEX4(T[p - 1], T[p - 2] >= T[p - 1]);
     SA[buckets[v]++] = (p - 1) | ((buckets[2 + v] != d) << (INT_BIT - 1));
     buckets[2 + v] = d;] *)
Definition partial_l2r_6k_step (T SA buckets : ptr) (i : Z) (x : scan32) : scan32 :=
  let '(M, d) := x in
  let p := ld M SA i in
  let d := d + b2z (p <? 0) in
  let p := Z.land p INT_MAX in
  let v := BUCKETS_INDEX4 (ld M T (p - 1)) (b2z (ld M T (p - 1) <=? ld M T (p - 2))) in
  let idx := ld M buckets v in
  let val := Z.lor (p - 1) (sign_if (negb (ld M buckets (2 + v) =? d))) in
  let M := incr_m M buckets v in
  let M := st M SA idx val in
  (st M buckets (2 + v) d, d).

Definition libsais_partial_sorting_scan_left_to_right_32s_6k (M : mem) (T SA : ptr) (n : Z)
    (buckets : ptr) (left_suffixes_count d : Z) : scan32 :=
  let prefetch_distance := 32 in
  let v := BUCKETS_INDEX4 (ld M T (n - 1)) (b2z (ld M T (n - 1) <=? ld M T (n - 2))) in
  let idx := ld M buckets v in
  let M := incr_m M buckets v in
  let M := st M SA idx (Z.lor (n - 1) INT_MIN) in
  let d := d + 1 in
  let M := st M buckets
             (2 + BUCKETS_INDEX4 (ld M T (n - 1)) (b2z (ld M T (n - 1) <=? ld M T (n - 2)))) d in
  let step := partial_l2r_6k_step T SA buckets in
  let j := left_suffixes_count - 2 * prefetch_distance - 1 in
  let '(i, x) := for_up 2 (fun i x => step (i + 1) (step (i + 0) x)) 0 j (M, d) in
  let j := j + (2 * prefetch_distance + 1) in
  snd (for_up 1 step i j x).

(** [int p = SA[i]; SA[i] = p & INT_MAX;
     if (p > 0) { SA[i] = 0; d += (p >> (SUFFIX_GROUP_BIT - 1)); p &= ~SUFFIX_GROUP_MARKER;
       int v = BUCKETS_INDEX2(T[p - 1], T[p - 2] < T[p - 1]);
       SA[induction_bucket[T[p - 1]]++] = (p - 1) | ((T[p - 2] < T[p - 1]) << (INT_BIT - 1))
           | ((distinct_names[v] != d) << (SUFFIX_GROUP_BIT - 1));
       distinct_names[v] = d; }] *)
Definition partial_l2r_4k_step (T SA induction_bucket distinct_names : ptr) (i : Z)
    (x : scan32) : scan32 :=
  let '(M, d) := x in
  let p := ld M SA i in
  let M := st M SA i (Z.land p INT_MAX) in
  if 0 <? p then
    let M := st M SA i 0 in
    let d := d + Z.shiftr p (SUFFIX_GROUP_BIT - 1) in
    let p := Z.land p (Z.lnot SUFFIX_GROUP_MARKER) in
    let lt := ld M T (p - 2) <? ld M T (p - 1) in
    let v := BUCKETS_INDEX2 (ld M T (p - 1)) (b2z lt) in
    let b := ld M T (p - 1) in
    let idx := ld M induction_bucket b in
    let val := Z.lor (Z.lor (p - 1) (sign_if lt))
                 (if negb (ld M distinct_names v =? d) then SUFFIX_GROUP_MARKER else 0) in
    let M := incr_m M induction_bucket b in
    let M := st M SA idx val in
    (st M distinct_names v d, d)
  else (M, d).

Definition libsais_partial_sorting_scan_left_to_right_32s_4k (M : mem) (T SA : ptr) (n k : Z)
    (buckets : ptr) (d : Z) : scan32 :=
  let prefetch_distance := 32 in
  let induction_bucket := padd buckets (2 * k) in
  let distinct_names := padd buckets (0 * k) in
  let lt := ld M T (n - 2) <? ld M T (n - 1) in
  let idx := ld M induction_bucket (ld M T (n - 1)) in
  let val := Z.lor (Z.lor (n - 1) (sign_if lt)) SUFFIX_GROUP_MARKER in
  let M := incr_m M induction_bucket (ld M T (n - 1)) in
  let M := st M SA idx val in
  let d := d + 1 in
  let M := st M distinct_names
             (BUCKETS_INDEX2 (ld M T (n - 1)) (b2z (ld M T (n - 2) <? ld M T (n - 1)))) d in
  let step := partial_l2r_4k_step T SA induction_bucket distinct_names in
  let j := n - 2 * prefetch_distance - 1 in
  let '(i, x) := for_up 2 (fun i x => step (i + 1) (step (i + 0) x)) 0 j (M, d) in
  let j := j + (2 * prefetch_distance + 1) in
  snd (for_up 1 step i j x).

(** [int p = SA[i]; SA[i] = p & INT_MAX;
     if (p > 0) { SA[i] = 0;
       SA[induction_bucket[T[p - 1]]++] = (p - 1) | ((T[p - 2] < T[p - 1]) << (INT_BIT - 1)); }] *)
Definition partial_l2r_1k_step (T SA induction_bucket : ptr) (i : Z) (M : mem) : mem :=
  let p := ld M SA i in
  let M := st M SA i (Z.land p INT_MAX) in
  if 0 <? p then
    let M := st M SA i 0 in
    let b := ld M T (p - 1) in
    let idx := ld M induction_bucket b in
    let val := Z.lor (p - 1) (sign_if (ld M T (p - 2) <? ld M T (p - 1))) in
    let M := incr_m M induction_bucket b in
    st M SA idx val
  else M.

Definition libsais_partial_sorting_scan_left_to_right_32s_1k (M : mem) (T SA : ptr) (n : Z)
    (induction_bucket : ptr) : mem :=
  let prefetch_distance := 32 in
  let idx := ld M induction_bucket (ld M T (n - 1)) in
  let val := Z.lor (n - 1) (sign_if (ld M T (n - 2) <? ld M T (n - 1))) in
  let M := incr_m M induction_bucket (ld M T (n - 1)) in
  let M := st M SA idx val in
  let step := partial_l2r_1k_step T SA induction_bucket in
  let j := n - 2 * prefetch_distance - 1 in
  let '(i, M) := for_up 2 (fun i M => step (i + 1) (step (i + 0) M)) 0 j M in
  let j := j + (2 * prefetch_distance + 1) in
  snd (for_up 1 step i j M).

(** [int p = SA[i], q = (p & INT_MIN) ^ s; s = s ^ q; SA[i] = p ^ q;] *)
Definition shift_markers_m_step (SA : ptr) (i : Z) (x : mem * Z) : mem * Z :=
  let '(M, s) := x in
  let p := ld M SA i in
  let q := Z.lxor (Z.land p INT_MIN) s in
  (st M SA i (Z.lxor p q), Z.lxor s q).

Definition libsais_partial_sorting_shift_markers_32s_6k_omp (M : mem) (SA : ptr) (k : Z)
    (buckets : ptr) (threads : Z) : mem :=
  let temp_bucket := padd buckets (4 * k) in
  let step := shift_markers_m_step SA in
  snd (for_down 1 (fun c M =>
      let j := ld M temp_bucket (BUCKETS_INDEX2 (c - 1) 0) + 3 in
      let '(i, x) :=
        for_down 4 (fun i x => step (i - 3) (step (i - 2) (step (i - 1) (step (i - 0) x))))
          (ld M buckets (BUCKETS_INDEX4 c 0) - 1) j (M, INT_MIN) in
      let j := j - 3 in
      fst (snd (for_down 1 step i j x)))
    (k - 1) 1 M).

(** [int p = SA[i], q = ((p & SUFFIX_GROUP_MARKER) ^ s) & ((p > 0) << (SUFFIX_GROUP_BIT - 1));
     s = s ^ q; SA[i] = p ^ q;] *)
Definition shift_markers_4k_step (SA : ptr) (i : Z) (x : mem * Z) : mem * Z :=
  let '(M, s) := x in
  let p := ld M SA i in
  let q := Z.land (Z.lxor (Z.land p SUFFIX_GROUP_MARKER) s)
             (if 0 <? p then SUFFIX_GROUP_MARKER else 0) in
  (st M SA i (Z.lxor p q), Z.lxor s q).

Definition libsais_partial_sorting_shift_markers_32s_4k (M : mem) (SA : ptr) (n : Z) : mem :=
  let step := shift_markers_4k_step SA in
  let '(i, x) :=
    for_down 4 (fun i x => step (i - 3) (step (i - 2) (step (i - 1) (step (i - 0) x))))
      (n - 1) 3 (M, SUFFIX_GROUP_MARKER) in
  fst (snd (for_down 1 step i 0 x)).

Definition libsais_partial_sorting_shift_buckets_32s_6k (M : mem) (k : Z) (buckets : ptr)
    : mem :=
  let temp_bucket := padd buckets (4 * k) in
  snd (for_up (BUCKETS_INDEX2 1 0) (fun i M =>
      let M := st M buckets (2 * i + BUCKETS_INDEX4 0 0) (ld M temp_bucket (i + BUCKETS_INDEX2 0 0)) in
      st M buckets (2 * i + BUCKETS_INDEX4 0 1) (ld M temp_bucket (i + BUCKETS_INDEX2 0 1)))
    (BUCKETS_INDEX2 0 0) (BUCKETS_INDEX2 (k - 1) 0 + 1) M).

(** [int p = SA[i]; d += (p < 0); p &= INT_MAX;
     int v = BUCKETS_INDEX4(T[p - 1], T[p - 2] > T[p - 1]);
     SA[--buckets[v]] = (p - 1) | ((buckets[2 + v] != d) << (INT_BIT - 1));
     buckets[2 + v] = d;] *)
Definition partial_r2l_6k_step (T SA buckets : ptr) (i : Z) (x : scan32) : scan32 :=
  let '(M, d) := x in
  let p := ld M SA i in
  let d := d + b2z (p <? 0) in
  let p := Z.land p INT_MAX in
  let v := BUCKETS_INDEX4 (ld M T (p - 1)) (b2z (ld M T (p - 1) <? ld M T (p - 2))) in
  let val := Z.lor (p - 1) (sign_if (negb (ld M buckets (2 + v) =? d))) in
  let M := decr_m M buckets v in
  let M := st M SA (ld M buckets v) val in
  (st M buckets (2 + v) d, d).

Definition libsais_partial_sorting_scan_right_to_left_32s_6k (M : mem) (T SA : ptr) (n : Z)
    (buckets : ptr) (first_lms_suffix left_suffixes_count d : Z) : scan32 :=
  let prefetch_distance := 32 in
  let step := partial_r2l_6k_step T SA buckets in
  let j := left_suffixes_count + 1 + 2 * prefetch_distance + 1 in
  let '(i, x) :=
    for_down 2 (fun i x => step (i - 1) (step (i - 0) x))
      (n - first_lms_suffix - 1) j (M, d) in
  let j := j - (2 * prefetch_distance + 1) in
  snd (for_down 1 step i j x).

(** [int p = SA[i];
     if (p > 0) { SA[i] = 0; d += (p >> (SUFFIX_GROUP_BIT - 1)); p &= ~SUFFIX_GROUP_MARKER;
       int v = BUCKETS_INDEX2(T[p - 1], T[p - 2] > T[p - 1]);
       SA[--induction_bucket[T[p - 1]]] = (p - 1) | ((T[p - 2] > T[p - 1]) << (INT_BIT - 1))
           | ((distinct_names[v] != d) << (SUFFIX_GROUP_BIT - 1));
       distinct_names[v] = d; }] *)
Definition partial_r2l_4k_step (T SA induction_bucket distinct_names : ptr) (i : Z)
    (x : scan32) : scan32 :=
  let '(M, d) := x in
  let p := ld M SA i in
  if 0 <? p then
    let M := st M SA i 0 in
    let d := d + Z.shiftr p (SUFFIX_GROUP_BIT - 1) in
    let p := Z.land p (Z.lnot SUFFIX_GROUP_MARKER) in
    let gt := ld M T (p - 1) <? ld M T (p - 2) in
    let v := BUCKETS_INDEX2 (ld M T (p - 1)) (b2z gt) in
    let b := ld M T (p - 1) in
    let val := Z.lor (Z.lor (p - 1) (sign_if gt))
                 (if negb (ld M distinct_names v =? d) then SUFFIX_GROUP_MARKER else 0) in
    let M := decr_m M induction_bucket b in
    let M := st M SA (ld M induction_bucket b) val in
    (st M distinct_names v d, d)
  else (M, d).

Definition libsais_partial_sorting_scan_right_to_left_32s_4k (M : mem) (T SA : ptr) (n k : Z)
    (buckets : ptr) (d : Z) : scan32 :=
  let prefetch_distance := 32 in
  let induction_bucket := padd buckets (3 * k) in
  let distinct_names := padd buckets (0 * k) in
  let step := partial_r2l_4k_step T SA induction_bucket distinct_names in
  let '(i, x) :=
    for_down 2 (fun i x => step (i - 1) (step (i - 0) x))
      (n - 1) (2 * prefetch_distance + 1) (M, d) in
  snd (for_down 1 step i 0 x).

(** [int p = SA[i];
     if (p > 0) { SA[i] = 0;
       SA[--induction_bucket[T[p - 1]]] = (p - 1) | ((T[p - 2] > T[p - 1]) << (INT_BIT - 1)); }] *)
Definition partial_r2l_1k_step (T SA induction_bucket : ptr) (i : Z) (M : mem) : mem :=
  let p := ld M SA i in
  if 0 <? p then
    let M := st M SA i 0 in
    let b := ld M T (p - 1) in
    let val := Z.lor (p - 1) (sign_if (ld M T (p - 1) <? ld M T (p - 2))) in
    let M := decr_m M induction_bucket b in
    st M SA (ld M induction_bucket b) val
  else M.

Definition libsais_partial_sorting_scan_right_to_left_32s_1k (M : mem) (T SA : ptr) (n : Z)
    (induction_bucket : ptr) : mem :=
  let prefetch_distance := 32 in
  let step := partial_r2l_1k_step T SA induction_bucket in
  let '(i, M) :=
    for_down 2 (fun i M => step (i - 1) (step (i - 0) M))
      (n - 1) (2 * prefetch_distance + 1) M in
  snd (for_down 1 step i 0 M).

(** [int s = SA[i]; SA[l] = (s - SUFFIX_GROUP_MARKER) & (~SUFFIX_GROUP_MARKER); l += (s < 0);]
    The subtraction wraps when [s] is negative with bit 30 clear. *)
Definition partial_gather_4k_step (SA : ptr) (i : Z) (x : mem * Z) : mem * Z :=
  let '(M, l) := x in
  let s := ld M SA i in
  (st M SA l (Z.land (wrap32 (s - SUFFIX_GROUP_MARKER)) (Z.lnot SUFFIX_GROUP_MARKER)),
   l + b2z (s <? 0)).

Definition libsais_partial_sorting_gather_lms_suffixes_32s_4k (M : mem) (SA : ptr) (n : Z)
    : mem :=
  let step := partial_gather_4k_step SA in
  let j := n - 3 in
  let '(i, x) :=
    for_up 4 (fun i x => step (i + 3) (step (i + 2) (step (i + 1) (step (i + 0) x))))
      0 j (M, 0) in
  let j := j + 3 in
  fst (snd (for_up 1 step i j x)).

(** [int s = SA[i]; SA[l] = s & INT_MAX; l += (s < 0);] *)
Definition partial_gather_1k_step (SA : ptr) (i : Z) (x : mem * Z) : mem * Z :=
  let '(M, l) := x in
  let s := ld M SA i in
  (st M SA l (Z.land s INT_MAX), l + b2z (s <? 0)).

Definition libsais_partial_sorting_gather_lms_suffixes_32s_1k (M : mem) (SA : ptr) (n : Z)
    : mem :=
  let step := partial_gather_1k_step SA in
  let j := n - 3 in
  let '(i, x) :=
    for_up 4 (fun i x => step (i + 3) (step (i + 2) (step (i + 1) (step (i + 0) x))))
      0 j (M, 0) in
  let j := j + 3 in
  fst (snd (for_up 1 step i j x)).

Definition libsais_induce_partial_order_32s_6k (M : mem) (T SA : ptr) (n k : Z)
    (buckets : ptr) (first_lms_suffix left_suffixes_count threads : Z) : mem :=
  let '(M, d) :=
    libsais_partial_sorting_scan_left_to_right_32s_6k M T SA n buckets left_suffixes_count 0 in
  let M := libsais_partial_sorting_shift_markers_32s_6k_omp M SA k buckets threads in
  let M := libsais_partial_sorting_shift_buckets_32s_6k M k buckets in
  fst (libsais_partial_sorting_scan_right_to_left_32s_6k M T SA n buckets first_lms_suffix
         left_suffixes_count d).

Definition libsais_induce_partial_order_32s_4k (M : mem) (T SA : ptr) (n k : Z)
    (buckets : ptr) : mem :=
  let M := memset0_m M buckets 0 (2 * k) in
  let '(M, d) := libsais_partial_sorting_scan_left_to_right_32s_4k M T SA n k buckets 0 in
  let M := libsais_partial_sorting_shift_markers_32s_4k M SA n in
  let '(M, _) := libsais_partial_sorting_scan_right_to_left_32s_4k M T SA n k buckets d in
  libsais_partial_sorting_gather_lms_suffixes_32s_4k M SA n.

Definition libsais_induce_partial_order_32s_2k (M : mem) (T SA : ptr) (n k : Z)
    (buckets : ptr) : mem :=
  let M := libsais_partial_sorting_scan_left_to_right_32s_1k M T SA n (padd buckets (1 * k)) in
  let M := libsais_partial_sorting_scan_right_to_left_32s_1k M T SA n (padd buckets (0 * k)) in
  libsais_partial_sorting_gather_lms_suffixes_32s_1k M SA n.

Definition libsais_induce_partial_order_32s_1k (M : mem) (T SA : ptr) (n k : Z)
    (buckets : ptr) : mem :=
  let M := libsais_count_suffixes_32s M T n k buckets in
  let M := libsais_initialize_buckets_start_32s_1k M k buckets in
  let M := libsais_partial_sorting_scan_left_to_right_32s_1k M T SA n buckets in
  let M := libsais_count_suffixes_32s M T n k buckets in
  let M := libsais_initialize_buckets_end_32s_1k M k buckets in
  let M := libsais_partial_sorting_scan_right_to_left_32s_1k M T SA n buckets in
  libsais_partial_sorting_gather_lms_suffixes_32s_1k M SA n.

(** ** The integer path: naming *)

(** [cur = SA[i]; SAm[(SA[i] = cur & INT_MAX) >> 1] = name | (cur & prev & INT_MIN);
     name += cur < 0;]  The state keeps the last value read ([p3] between
    two rounds of the unrolled loop). *)
Definition renumber_distinct_4k_step (SA : ptr) (m : Z) (i : Z) (x : mem * Z * Z)
    : mem * Z * Z :=
  let '(M, name, prev) := x in
  let cur := ld M SA i in
  let M := st M SA i (Z.land cur INT_MAX) in
  let M := st M SA (m + Z.shiftr (Z.land cur INT_MAX) 1)
             (Z.lor name (Z.land (Z.land cur prev) INT_MIN)) in
  (M, name + b2z (cur <? 0), cur).

Definition libsais_renumber_distinct_lms_suffixes_32s_4k (M : mem) (SA : ptr) (m name : Z)
    (omp_block_start omp_block_size : Z) : Z * mem :=
  let prefetch_distance := 32 in
  let step := renumber_distinct_4k_step SA m in
  let j := omp_block_start + omp_block_size - prefetch_distance - 3 in
  let '(i, x) :=
    for_up 4 (fun i x => step (i + 3) (step (i + 2) (step (i + 1) (step (i + 0) x))))
      omp_block_start j (M, name, 0) in
  let j := j + (prefetch_distance + 3) in
  let '(_, (M, name, _)) := for_up 1 step i j x in
  (name, M).

(** [cur = SA[i]; SA[i] = cur & (prev | INT_MAX); cur = (cur == 0) ? prev : cur;] *)
Definition mark_distinct_step (SA : ptr) (i : Z) (x : mem * Z) : mem * Z :=
  let '(M, prev) := x in
  let cur := ld M SA i in
  (st M SA i (Z.land cur (Z.lor prev INT_MAX)), if cur =? 0 then prev else cur).

Definition libsais_mark_distinct_lms_suffixes_32s_4k (M : mem) (SA : ptr) (m : Z)
    (omp_block_start omp_block_size : Z) : mem :=
  let step := mark_distinct_step SA in
  let j := m + omp_block_start + omp_block_size - 3 in
  let '(i, x) :=
    for_up 4 (fun i x => step (i + 3) (step (i + 2) (step (i + 1) (step (i + 0) x))))
      (m + omp_block_start) j (M, 0) in
  let j := j + 3 in
  fst (snd (for_up 1 step i j x)).

Definition libsais_renumber_distinct_lms_suffixes_32s_4k_omp (M : mem) (SA : ptr)
    (m threads : Z) : Z * mem :=
  let omp_thread_num := 0 in
  let omp_num_threads := 1 in
  let omp_block_stride := Z.land (m / omp_num_threads) (-16) in
  let omp_block_start := omp_thread_num * omp_block_stride in
  let omp_block_size :=
    if omp_thread_num <? omp_num_threads - 1 then omp_block_stride
    else m - omp_block_start in
  let '(name, M) :=
    libsais_renumber_distinct_lms_suffixes_32s_4k M SA m 1 omp_block_start omp_block_size in
  (name - 1, M).

Definition libsais_mark_distinct_lms_suffixes_32s_4k_omp (M : mem) (SA : ptr)
    (n m threads : Z) : mem :=
  let omp_block_start := 0 in
  let omp_block_size := Z.shiftr n 1 in
  libsais_mark_distinct_lms_suffixes_32s_4k M SA m omp_block_start omp_block_size.

Definition libsais_renumber_and_mark_distinct_lms_suffixes_32s_4k_omp (M : mem) (SA : ptr)
    (n m threads : Z) : Z * mem :=
  let M := memset0_m M SA m (Z.shiftr n 1) in
  let '(name, M) := libsais_renumber_distinct_lms_suffixes_32s_4k_omp M SA m threads in
  if name <? m then (name, libsais_mark_distinct_lms_suffixes_32s_4k_omp M SA n m threads)
  else (name, M).

(** [ptrdiff_t l = 0; do { if (T[p + l] != T[q + l]) { break; } } while (++l < len);]
    returns the final [l]. *)
Fixpoint lms_substring_cmp (fuel : nat) (M : mem) (T : ptr) (p q len l : Z) : Z :=
  match fuel with
  | O => l
  | S fuel' =>
      if negb (ld M T (p + l) =? ld M T (q + l)) then l
      else if l + 1 <? len then lms_substring_cmp fuel' M T p q len (l + 1)
      else l + 1
  end.

(** State of the 1k namer: memory, [name], [p], [plen], [pdiff]. *)
Definition namer_state : Type := (mem * Z * Z * Z * Z)%type.

(** One comparison of the suffix [q = SA[i]] with its predecessor [p]:
    [q = SA[i], qlen = SAm[q >> 1]; qdiff = INT_MIN;
     if (plen == qlen) { ...; qdiff = (l - qlen) & INT_MIN; }
     SAm[p >> 1] = name | (pdiff & qdiff); name += (qdiff < 0);
     p = q; plen = qlen; pdiff = qdiff;] *)
Definition namer_1k_step (T SA : ptr) (m : Z) (i : Z) (x : namer_state) : namer_state :=
  let '(M, name, p, plen, pdiff) := x in
  let q := ld M SA i in
  let qlen := ld M SA (m + Z.shiftr q 1) in
  let qdiff :=
    if plen =? qlen then
      let l := lms_substring_cmp (Z.to_nat (Z.max 1 qlen)) M T p q qlen 0 in
      Z.land (l - qlen) INT_MIN
    else INT_MIN in
  let M := st M SA (m + Z.shiftr p 1) (Z.lor name (Z.land pdiff qdiff)) in
  (M, name + b2z (qdiff <? 0), q, qlen, qdiff).

Definition libsais_renumber_and_mark_distinct_lms_suffixes_32s_1k (M : mem) (T SA : ptr)
    (n m : Z) : Z * mem :=
  let prefetch_distance := 32 in
  let SAm := padd SA m in
  (* LMS substring lengths *)
  let M := snd (libsais_gather_lms_suffixes_32s M T SA n) in
  let M := memset0_m M SA m (n - m - m) in
  let len_step := fun i M =>
    st M SAm (Z.shiftr (to_uint (ld M SA i)) 1) (ld M SA (i + 1) - ld M SA i + 1 + INT_MIN) in
  let j := n - 1 - prefetch_distance - 3 in
  let '(i, M) :=
    for_up 4 (fun i M =>
        len_step (i + 3) (len_step (i + 2) (len_step (i + 1) (len_step (i + 0) M))))
      (n - m) j M in
  let j := j + (prefetch_distance + 3) in
  let M := snd (for_up 1 len_step i j M) in
  let M := st M SAm (Z.shiftr (to_uint (ld M SA (n - 1))) 1) (1 + INT_MIN) in
  (* keep the lengths, clear the rest *)
  let clr_step := fun i M =>
    st M SAm i (Z.land (if ld M SAm i <? 0 then ld M SAm i else 0) INT_MAX) in
  let j := Z.shiftr n 1 - 3 in
  let '(i, M) :=
    for_up 4 (fun i M =>
        clr_step (i + 3) (clr_step (i + 2) (clr_step (i + 1) (clr_step (i + 0) M))))
      0 j M in
  let j := j + 3 in
  let M := snd (for_up 1 clr_step i j M) in
  (* names *)
  let name := 1 in
  let p := ld M SA 0 in
  let plen := ld M SAm (Z.shiftr p 1) in
  let pdiff := INT_MIN in
  let step := namer_1k_step T SA m in
  let j := m - prefetch_distance - 1 in
  let '(i, x) := for_up 2 (fun i x => step (i + 1) (step (i + 0) x)) 1 j
                   (M, name, p, plen, pdiff) in
  let j := j + (prefetch_distance + 1) in
  let '(_, (M, name, p, plen, pdiff)) := for_up 1 step i j x in
  let M := st M SAm (Z.shiftr p 1) (Z.lor name pdiff) in
  let name := name + 1 in
  (* distinct markers *)
  let M :=
    if name <=? m then
      let mstep := mark_distinct_step SA in
      let j := m + Z.shiftr n 1 - 3 in
      let '(i, x) :=
        for_up 4 (fun i x => mstep (i + 3) (mstep (i + 2) (mstep (i + 1) (mstep (i + 0) x))))
          m j (M, -1) in
      let j := j + 3 in
      fst (snd (for_up 1 mstep i j x))
    else M in
  (name - 1, M).

(** ** The integer path: placement of the sorted LMS suffixes *)

(** The loop shared by the interval and histogram placements:
    [if (l > 0) { i = end; if (j - i > 0) memset(&SA[i], 0, j - i);
                  memmove(&SA[j = (i - l)], &SA[m -= l], l); }] *)
Definition place_bucket (SA : ptr) (l i : Z) (x : mem * Z * Z) : mem * Z * Z :=
  let '(M, j, m) := x in
  if 0 <? l then
    let M := if 0 <? j - i then memset0_m M SA i (j - i) else M in
    let j := i - l in
    let m := m - l in
    (memmove_m M SA j SA m l, j, m)
  else (M, j, m).

Definition libsais_place_lms_suffixes_interval_32s_4k (M : mem) (SA : ptr) (n k m : Z)
    (buckets : ptr) : mem :=
  let bucket_end := padd buckets (3 * k) in
  let '(_, (M, j, _)) :=
    for_down 1 (fun c '(M, j, m) =>
        let l := ld M buckets (BUCKETS_INDEX2 c 1 + BUCKETS_INDEX2 1 0)
                 - ld M buckets (BUCKETS_INDEX2 c 1) in
        place_bucket SA l (ld M bucket_end c) (M, j, m))
      (k - 2) 0 (M, n, m) in
  memset0_m M SA 0 j.

Definition libsais_place_lms_suffixes_interval_32s_2k (M : mem) (SA : ptr) (n k m : Z)
    (buckets : ptr) : mem :=
  let '(_, (M, j, _)) :=
    for_down (BUCKETS_INDEX2 1 0) (fun c '(M, j, m) =>
        let l := ld M buckets (c + BUCKETS_INDEX2 1 1) - ld M buckets (c + BUCKETS_INDEX2 0 1) in
        place_bucket SA l (ld M buckets c) (M, j, m))
      (BUCKETS_INDEX2 (k - 2) 0) (BUCKETS_INDEX2 0 0) (M, n, m) in
  memset0_m M SA 0 j.

(** [int p = SA[i];
     if (T[p] != c) { c = T[p]; memset(&SA[buckets[c]], 0, l - buckets[c]); l = buckets[c]; }
     SA[--l] = p;] *)
Definition place_1k_step (T SA buckets : ptr) (i : Z) (x : mem * Z * Z) : mem * Z * Z :=
  let '(M, c, l) := x in
  let p := ld M SA i in
  let '(M, c, l) :=
    if negb (ld M T p =? c) then
      let c := ld M T p in
      let M := memset0_m M SA (ld M buckets c) (l - ld M buckets c) in
      (M, c, ld M buckets c)
    else (M, c, l) in
  let l := l - 1 in
  (st M SA l p, c, l).

Definition libsais_place_lms_suffixes_interval_32s_1k (M : mem) (T SA : ptr) (k m : Z)
    (buckets : ptr) : mem :=
  let prefetch_distance := 32 in
  let step := place_1k_step T SA buckets in
  let c := k - 1 in
  let l := ld M buckets c in
  let '(i, x) :=
    for_down 4 (fun i x => step (i - 3) (step (i - 2) (step (i - 1) (step (i - 0) x))))
      (m - 1) (prefetch_distance + 3) (M, c, l) in
  let '(_, (M, _, l)) := for_down 1 step i 0 x in
  memset0_m M SA 0 l.

Definition libsais_place_lms_suffixes_histogram_32s_6k (M : mem) (SA : ptr) (n k m : Z)
    (buckets : ptr) : mem :=
  let bucket_end := padd buckets (5 * k) in
  let '(_, (M, j, _)) :=
    for_down 1 (fun c '(M, j, m) =>
        place_bucket SA (ld M buckets (BUCKETS_INDEX4 c 1)) (ld M bucket_end c) (M, j, m))
      (k - 2) 0 (M, n, m) in
  memset0_m M SA 0 j.

Definition libsais_place_lms_suffixes_histogram_32s_4k (M : mem) (SA : ptr) (n k m : Z)
    (buckets : ptr) : mem :=
  let bucket_end := padd buckets (3 * k) in
  let '(_, (M, j, _)) :=
    for_down 1 (fun c '(M, j, m) =>
        place_bucket SA (ld M buckets (BUCKETS_INDEX2 c 1)) (ld M bucket_end c) (M, j, m))
      (k - 2) 0 (M, n, m) in
  memset0_m M SA 0 j.

Definition libsais_place_lms_suffixes_histogram_32s_2k (M : mem) (SA : ptr) (n k m : Z)
    (buckets : ptr) : mem :=
  let '(_, (M, j, _)) :=
    for_down (BUCKETS_INDEX2 1 0) (fun c '(M, j, m) =>
        place_bucket SA (ld M buckets (c + BUCKETS_INDEX2 0 1)) (ld M buckets c) (M, j, m))
      (BUCKETS_INDEX2 (k - 2) 0) (BUCKETS_INDEX2 0 0) (M, n, m) in
  memset0_m M SA 0 j.

(** ** The integer path: final induction *)

(** [int p = SA[i]; SA[i] = p ^ INT_MIN;
     if (p > 0) { p--;
       SA[induction_bucket[T[p]]++] = p | ((T[p - (p > 0)] < T[p]) << (INT_BIT - 1)); }] *)
Definition final_l2r_32s_step (T SA induction_bucket : ptr) (i : Z) (M : mem) : mem :=
  let p := ld M SA i in
  let M := st M SA i (Z.lxor p INT_MIN) in
  if 0 <? p then
    let p := p - 1 in
    let b := ld M T p in
    let idx := ld M induction_bucket b in
    let val := Z.lor p (sign_if (ld M T (p - b2z (0 <? p)) <? ld M T p)) in
    let M := incr_m M induction_bucket b in
    st M SA idx val
  else M.

Definition libsais_final_sorting_scan_left_to_right_32s (M : mem) (T SA : ptr) (n : Z)
    (induction_bucket : ptr) : mem :=
  let prefetch_distance := 32 in
  let idx := ld M induction_bucket (ld M T (n - 1)) in
  let val := Z.lor (n - 1) (sign_if (ld M T (n - 2) <? ld M T (n - 1))) in
  let M := incr_m M induction_bucket (ld M T (n - 1)) in
  let M := st M SA idx val in
  let step := final_l2r_32s_step T SA induction_bucket in
  let j := n - 2 * prefetch_distance - 1 in
  let '(i, M) := for_up 2 (fun i M => step (i + 1) (step (i + 0) M)) 0 j M in
  let j := j + (2 * prefetch_distance + 1) in
  snd (for_up 1 step i j M).

(** [int p = SA[i]; SA[i] = p & INT_MAX;
     if (p > 0) { p--;
       SA[--induction_bucket[T[p]]] = p | ((T[p - (p > 0)] > T[p]) << (INT_BIT - 1)); }] *)
Definition final_r2l_32s_step (T SA induction_bucket : ptr) (i : Z) (M : mem) : mem :=
  let p := ld M SA i in
  let M := st M SA i (Z.land p INT_MAX) in
  if 0 <? p then
    let p := p - 1 in
    let b := ld M T p in
    let val := Z.lor p (sign_if (ld M T p <? ld M T (p - b2z (0 <? p)))) in
    let M := decr_m M induction_bucket b in
    st M SA (ld M induction_bucket b) val
  else M.

Definition libsais_final_sorting_scan_right_to_left_32s (M : mem) (T SA : ptr) (n : Z)
    (induction_bucket : ptr) : mem :=
  let prefetch_distance := 32 in
  let step := final_r2l_32s_step T SA induction_bucket in
  let '(i, M) :=
    for_down 2 (fun i M => step (i - 1) (step (i - 0) M))
      (n - 1) (2 * prefetch_distance + 1) M in
  snd (for_down 1 step i 0 M).

Definition libsais_induce_final_order_32s_6k (M : mem) (T SA : ptr) (n k : Z) (buckets : ptr)
    : mem :=
  let M := libsais_final_sorting_scan_left_to_right_32s M T SA n (padd buckets (4 * k)) in
  libsais_final_sorting_scan_right_to_left_32s M T SA n (padd buckets (5 * k)).

Definition libsais_induce_final_order_32s_4k (M : mem) (T SA : ptr) (n k : Z) (buckets : ptr)
    : mem :=
  let M := libsais_final_sorting_scan_left_to_right_32s M T SA n (padd buckets (2 * k)) in
  libsais_final_sorting_scan_right_to_left_32s M T SA n (padd buckets (3 * k)).

Definition libsais_induce_final_order_32s_2k (M : mem) (T SA : ptr) (n k : Z) (buckets : ptr)
    : mem :=
  let M := libsais_final_sorting_scan_left_to_right_32s M T SA n (padd buckets (1 * k)) in
  libsais_final_sorting_scan_right_to_left_32s M T SA n (padd buckets (0 * k)).

Definition libsais_induce_final_order_32s_1k (M : mem) (T SA : ptr) (n k : Z) (buckets : ptr)
    : mem :=
  let M := libsais_count_suffixes_32s M T n k buckets in
  let M := libsais_initialize_buckets_start_32s_1k M k buckets in
  let M := libsais_final_sorting_scan_left_to_right_32s M T SA n buckets in
  let M := libsais_count_suffixes_32s M T n k buckets in
  let M := libsais_initialize_buckets_end_32s_1k M k buckets in
  libsais_final_sorting_scan_right_to_left_32s M T SA n buckets.

(** ** The integer path: compaction of the reduced problem *)

(** [unsigned int p = (unsigned int)SA[i]; int s = SAm[p >> 1];
     if (s < 0) { T[p] |= INT_MIN; f++; s = i + INT_MIN + f; }
     SAm[p >> 1] = s - f;] *)
Definition renumber_unique_step (T SA : ptr) (m : Z) (i : Z) (x : mem * Z) : mem * Z :=
  let '(M, f) := x in
  let p := to_uint (ld M SA i) in
  let s := ld M SA (m + Z.shiftr p 1) in
  let '(M, f, s) :=
    if s <? 0 then
      let M := st M T p (Z.lor (ld M T p) INT_MIN) in
      (M, f + 1, i + INT_MIN + (f + 1))
    else (M, f, s) in
  (st M SA (m + Z.shiftr p 1) (s - f), f).

Definition libsais_renumber_unique_and_nonunique_lms_suffixes_32s (M : mem) (T SA : ptr)
    (m f : Z) (omp_block_start omp_block_size : Z) : Z * mem :=
  let prefetch_distance := 32 in
  let step := renumber_unique_step T SA m in
  let j := omp_block_start + omp_block_size - 2 * prefetch_distance - 3 in
  let '(i, x) :=
    for_up 4 (fun i x => step (i + 3) (step (i + 2) (step (i + 1) (step (i + 0) x))))
      omp_block_start j (M, f) in
  let j := j + (2 * prefetch_distance + 3) in
  let '(_, (M, f)) := for_up 1 step i j x in
  (f, M).

(** [int p = SA[i]; SAl[l] = p & INT_MAX; l -= p < 0; SAr[r] = p - 1; r -= p > 0;]
    ([p - 1] wraps when [p] is [INT_MIN]). *)
Definition compact_step (SA : ptr) (i : Z) (x : mem * Z * Z) : mem * Z * Z :=
  let '(M, l, r) := x in
  let p := ld M SA i in
  let M := st M SA l (Z.land p INT_MAX) in
  let l := l - b2z (p <? 0) in
  let M := st M SA r (wrap32 (p - 1)) in
  (M, l, r - b2z (0 <? p)).

Definition libsais_compact_unique_and_nonunique_lms_suffixes_32s (M : mem) (SA : ptr)
    (m pl pr : Z) (omp_block_start omp_block_size : Z) : mem * Z * Z :=
  let step := compact_step SA in
  let j := m + omp_block_start + 3 in
  let '(i, x) :=
    for_down 4 (fun i x => step (i - 3) (step (i - 2) (step (i - 1) (step (i - 0) x))))
      (m + omp_block_start + omp_block_size - 1) j (M, pl - 1, pr - 1) in
  let j := j - 3 in
  let '(_, (M, l, r)) := for_down 1 step i j x in
  (M, l + 1, r + 1).

Definition libsais_renumber_unique_and_nonunique_lms_suffixes_32s_omp (M : mem) (T SA : ptr)
    (m threads : Z) : Z * mem :=
  let omp_thread_num := 0 in
  let omp_num_threads := 1 in
  let omp_block_stride := Z.land (m / omp_num_threads) (-16) in
  let omp_block_start := omp_thread_num * omp_block_stride in
  let omp_block_size :=
    if omp_thread_num <? omp_num_threads - 1 then omp_block_stride
    else m - omp_block_start in
  libsais_renumber_unique_and_nonunique_lms_suffixes_32s M T SA m 0
    omp_block_start omp_block_size.

Definition libsais_compact_unique_and_nonunique_lms_suffixes_32s_omp (M : mem) (SA : ptr)
    (n m fs f threads : Z) : mem :=
  let omp_thread_num := 0 in
  let omp_num_threads := 1 in
  let omp_block_stride := Z.land (Z.shiftr n 1 / omp_num_threads) (-16) in
  let omp_block_start := omp_thread_num * omp_block_stride in
  let omp_block_size :=
    if omp_thread_num <? omp_num_threads - 1 then omp_block_stride
    else Z.shiftr n 1 - omp_block_start in
  let '(M, _, _) :=
    libsais_compact_unique_and_nonunique_lms_suffixes_32s M SA m m (n + fs)
      omp_block_start omp_block_size in
  memmove_m M SA (n + fs - m) SA (m - f) f.

Definition libsais_compact_lms_suffixes_32s_omp (M : mem) (T SA : ptr) (n m fs threads : Z)
    : Z * mem :=
  let '(f, M) := libsais_renumber_unique_and_nonunique_lms_suffixes_32s_omp M T SA m threads in
  (f, libsais_compact_unique_and_nonunique_lms_suffixes_32s_omp M SA n m fs f threads).

(** ** The integer path: merging the unique LMS suffixes back *)

(** State of the merges: memory, the value [tmp] and the offset of the
    cursor [SAnm] in [SA]. *)
Definition merge_state : Type := (mem * Z * Z)%type.

(** [int c = T[i + o];
     if (c < 0) { T[i + o] = c & INT_MAX; SA[tmp] = i + o; i++; tmp = *SAnm++; }]
    The statement changes the loop index [i]. *)
Definition merge_unique_sub (T SA : ptr) (o : Z) (ix : Z * merge_state) : Z * merge_state :=
  let '(i, (M, tmp, SAnm)) := ix in
  let c := ld M T (i + o) in
  if c <? 0 then
    let M := st M T (i + o) (Z.land c INT_MAX) in
    let M := st M SA tmp (i + o) in
    (i + 1, (M, ld M SA SAnm, SAnm + 1))
  else (i, (M, tmp, SAnm)).

(** [for (; i < j; i += step) { (i, s) = body (i, s) }] with a body that
    may advance [i]. *)
Fixpoint for_up_ix_fuel {St : Type} (fuel : nat) (step : Z)
    (body : Z * St -> Z * St) (i j : Z) (s : St) : Z * St :=
  match fuel with
  | O => (i, s)
  | S fuel' =>
      if i <? j then
        let '(i, s) := body (i, s) in
        for_up_ix_fuel fuel' step body (i + step) j s
      else (i, s)
  end.

Definition libsais_merge_unique_lms_suffixes_32s (M : mem) (T SA : ptr) (n m l : Z)
    (omp_block_start omp_block_size : Z) : mem :=
  let SAnm := n - m - 1 + l in
  let tmp := ld M SA SAnm in
  let SAnm := SAnm + 1 in
  let j := omp_block_start + omp_block_size - 6 in
  let '(i, x) :=
    for_up_ix_fuel (Z.to_nat (j - omp_block_start)) 4 (fun ix =>
        merge_unique_sub T SA 3 (merge_unique_sub T SA 2
          (merge_unique_sub T SA 1 (merge_unique_sub T SA 0 ix))))
      omp_block_start j (M, tmp, SAnm) in
  let j := j + 6 in
  let '(_, (M, _, _)) :=
    for_up_ix_fuel (Z.to_nat (j - i)) 1 (merge_unique_sub T SA 0) i j x in
  M.

(** [if (SA[i] == 0) { SA[i] = tmp; tmp = *SAnm++; }] *)
Definition merge_nonunique_step (SA : ptr) (i : Z) (x : merge_state) : merge_state :=
  let '(M, tmp, SAnm) := x in
  if ld M SA i =? 0 then
    let M := st M SA i tmp in
    (M, ld M SA SAnm, SAnm + 1)
  else (M, tmp, SAnm).

Definition libsais_merge_nonunique_lms_suffixes_32s (M : mem) (SA : ptr) (n m l : Z)
    (omp_block_start omp_block_size : Z) : mem :=
  let step := merge_nonunique_step SA in
  let SAnm := n - m - 1 + l in
  let tmp := ld M SA SAnm in
  let SAnm := SAnm + 1 in
  let j := omp_block_start + omp_block_size - 3 in
  let '(i, x) :=
    for_up 4 (fun i x => step (i + 3) (step (i + 2) (step (i + 1) (step (i + 0) x))))
      omp_block_start j (M, tmp, SAnm) in
  let j := j + 3 in
  fst (fst (snd (for_up 1 step i j x))).

Definition libsais_merge_unique_lms_suffixes_32s_omp (M : mem) (T SA : ptr) (n m threads : Z)
    : mem :=
  let omp_thread_num := 0 in
  let omp_num_threads := 1 in
  let omp_block_stride := Z.land (n / omp_num_threads) (-16) in
  let omp_block_start := omp_thread_num * omp_block_stride in
  let omp_block_size :=
    if omp_thread_num <? omp_num_threads - 1 then omp_block_stride
    else n - omp_block_start in
  libsais_merge_unique_lms_suffixes_32s M T SA n m 0 omp_block_start omp_block_size.

Definition libsais_merge_nonunique_lms_suffixes_32s_omp (M : mem) (SA : ptr)
    (n m f threads : Z) : mem :=
  let omp_thread_num := 0 in
  let omp_num_threads := 1 in
  let omp_block_stride := Z.land (m / omp_num_threads) (-16) in
  let omp_block_start := omp_thread_num * omp_block_stride in
  let omp_block_size :=
    if omp_thread_num <? omp_num_threads - 1 then omp_block_stride
    else m - omp_block_start in
  libsais_merge_nonunique_lms_suffixes_32s M SA n m f omp_block_start omp_block_size.

Definition libsais_merge_compacted_lms_suffixes_32s_omp (M : mem) (T SA : ptr)
    (n m f threads : Z) : mem :=
  let M := libsais_merge_unique_lms_suffixes_32s_omp M T SA n m threads in
  libsais_merge_nonunique_lms_suffixes_32s_omp M SA n m f threads.

(** ** Reconstruction after the recursion *)

Definition on_sa (f : list Z -> list Z) (M : mem) : mem :=
  mk_mem (f (m_sa M)) (m_heap M).

Definition libsais_reconstruct_compacted_lms_suffixes_32s_2k_omp (M : mem) (T SA : ptr)
    (n k m fs f : Z) (buckets : ptr) (threads : Z) : mem :=
  if 0 <? f then
    let M := memmove_m M SA (n - m - 1) SA (n + fs - m) f in
    let M := snd (libsais_count_and_gather_compacted_lms_suffixes_32s_2k_omp M T SA n k
                    buckets threads) in
    let M := on_sa (fun sa => libsais_reconstruct_lms_suffixes_omp sa n (m - f) threads) M in
    let M := memmove_m M SA (n - m - 1 + f) SA 0 (m - f) in
    let M := memset0_m M SA 0 m in
    libsais_merge_compacted_lms_suffixes_32s_omp M T SA n m f threads
  else
    let M := snd (libsais_count_and_gather_lms_suffixes_32s_2k M T SA n k buckets) in
    on_sa (fun sa => libsais_reconstruct_lms_suffixes_omp sa n m threads) M.

Definition libsais_reconstruct_compacted_lms_suffixes_32s_1k_omp (M : mem) (T SA : ptr)
    (n m fs f : Z) (threads : Z) : mem :=
  if 0 <? f then
    let M := memmove_m M SA (n - m - 1) SA (n + fs - m) f in
    let M := snd (libsais_gather_compacted_lms_suffixes_32s M T SA n) in
    let M := on_sa (fun sa => libsais_reconstruct_lms_suffixes_omp sa n (m - f) threads) M in
    let M := memmove_m M SA (n - m - 1 + f) SA 0 (m - f) in
    let M := memset0_m M SA 0 m in
    libsais_merge_compacted_lms_suffixes_32s_omp M T SA n m f threads
  else
    let M := snd (libsais_gather_lms_suffixes_32s M T SA n) in
    on_sa (fun sa => libsais_reconstruct_lms_suffixes_omp sa n m threads) M.

(** ** The drivers *)

Section Driver.

(** The environment of a run: which calls of [malloc] succeed, what the
    fresh cells hold, and the address of the caller's [SA] buffer (an
    [int] array, so a multiple of [sizeof(int)]). *)
Variable malloc_ok : nat -> bool.
Variable malloc_junk : nat -> Z -> Z.
Variable SA_addr : Z.

Definition libsais_align_up (address alignment : Z) : Z :=
  Z.land (address + alignment - 1) (- alignment).

(** [(int * )libsais_align_up(&SA[i], (size_t)alignment * sizeof(int))] as an
    index into [SA]. *)
Definition align_up_index (i alignment : Z) : Z :=
  (libsais_align_up (SA_addr + i * 4) (alignment * 4) - SA_addr) / 4.

(** [(int * )libsais_alloc_aligned(cells * sizeof(int), 4096)]: the block,
    or [None] for [NULL]; [na] counts the allocations of the run. *)
Definition libsais_alloc_aligned (na : nat) (cells : Z) : option (list Z) * nat :=
  (if malloc_ok na
   then Some (map (fun j => malloc_junk na (Z.of_nat j)) (seq 0 (Z.to_nat cells)))
   else None, S na).

(** [libsais_alloc_thread_state]: three allocations, all of which must
    succeed.  The thread state itself is not used by the build that is
    modelled. *)
Definition libsais_alloc_thread_state (na : nat) (threads : Z) : bool * nat :=
  (malloc_ok na && malloc_ok (S na) && malloc_ok (S (S na)), S (S (S na))).

(** The result of a driver: [None] when the model runs out of fuel. *)
Definition result32 : Type := option (Z * mem * nat).

Definition SA0 : ptr := PSA 0.

(** The part of [libsais_main_32s] around the recursive call, common to
    the four variants:
    [if (libsais_main_32s(SA + n + fs - m + f, SA, m - f, names - f,
                          fs + n - 2 * m + f, threads, thread_state) != 0)
       { return -2; }]
    [k_ok] continues after a successful call. *)
Definition recurse_32s (rec : mem -> nat -> ptr -> Z -> Z -> Z -> Z -> result32)
    (M : mem) (na : nat) (n m names fs f threads : Z)
    (k_ok : mem -> nat -> result32) : result32 :=
  match rec M na (PSA (n + fs - m + f)) (m - f) (names - f) (fs + n - 2 * m + f) threads with
  | None => None
  | Some (r, M, na) => if negb (r =? 0) then Some (-2, M, na) else k_ok M na
  end.

Definition libsais_main_32s_body
    (rec : mem -> nat -> ptr -> Z -> Z -> Z -> Z -> result32)
    (M : mem) (na : nat) (T : ptr) (n k fs threads : Z) : result32 :=
  let SA := SA0 in
  if (0 <? k) && (6 <=? Z.quot fs k) then
    let alignment := if 6 <=? Z.quot (fs - 1024) k then 1024 else 16 in
    let buckets :=
      if 6 <=? Z.quot (fs - alignment) k
      then PSA (align_up_index (n + fs - 6 * k - alignment) alignment)
      else PSA (n + fs - 6 * k) in
    let '(m, M) := libsais_count_and_gather_lms_suffixes_32s_4k_omp M T SA n k buckets threads in
    if 1 <? m then
      let M := memset0_m M SA 0 (n - m) in
      let first_lms_suffix := ld M SA (n - m) in
      let '(left_suffixes_count, M) :=
        libsais_initialize_buckets_for_lms_suffixes_radix_sort_32s_6k M T k buckets
          first_lms_suffix in
      let M := libsais_radix_sort_lms_suffixes_32s_6k M T SA n m (padd buckets (4 * k)) in
      let M := libsais_radix_sort_set_markers_32s_6k_omp M SA k (padd buckets (4 * k)) threads in
      let M := libsais_initialize_buckets_for_partial_sorting_32s_6k M T k buckets
                 first_lms_suffix left_suffixes_count in
      let M := libsais_induce_partial_order_32s_6k M T SA n k buckets first_lms_suffix
                 left_suffixes_count threads in
      let '(names, M) :=
        libsais_renumber_and_mark_distinct_lms_suffixes_32s_4k_omp M SA n m threads in
      let finish := fun M na =>
        let M := libsais_initialize_buckets_start_and_end_32s_4k M k buckets in
        let M := libsais_place_lms_suffixes_histogram_32s_4k M SA n k m buckets in
        let M := libsais_induce_final_order_32s_4k M T SA n k buckets in
        Some (0, M, na) in
      if names <? m then
        let '(f, M) := libsais_compact_lms_suffixes_32s_omp M T SA n m fs threads in
        recurse_32s rec M na n m names fs f threads (fun M na =>
          finish (libsais_reconstruct_compacted_lms_suffixes_32s_2k_omp M T SA n k m fs f
                    buckets threads) na)
      else
        finish (libsais_count_lms_suffixes_32s_2k M T n k buckets) na
    else
      let M := st M SA 0 (ld M SA (n - 1)) in
      let M := libsais_initialize_buckets_start_and_end_32s_6k M k buckets in
      let M := libsais_place_lms_suffixes_histogram_32s_6k M SA n k m buckets in
      let M := libsais_induce_final_order_32s_6k M T SA n k buckets in
      Some (0, M, na)
  else if (0 <? k) && (4 <=? Z.quot fs k) then
    let alignment := if 4 <=? Z.quot (fs - 1024) k then 1024 else 16 in
    let buckets :=
      if 4 <=? Z.quot (fs - alignment) k
      then PSA (align_up_index (n + fs - 4 * k - alignment) alignment)
      else PSA (n + fs - 4 * k) in
    let '(m, M) := libsais_count_and_gather_lms_suffixes_32s_2k_omp M T SA n k buckets threads in
    let finish := fun M na =>
      let M := libsais_initialize_buckets_start_and_end_32s_4k M k buckets in
      let M := libsais_place_lms_suffixes_histogram_32s_4k M SA n k m buckets in
      let M := libsais_induce_final_order_32s_4k M T SA n k buckets in
      Some (0, M, na) in
    if 1 <? m then
      let M := libsais_initialize_buckets_for_radix_and_partial_sorting_32s_4k M T k buckets
                 (ld M SA (n - m)) in
      let M := libsais_radix_sort_lms_suffixes_32s_2k M T SA n m (padd buckets 1) in
      let M := libsais_radix_sort_set_markers_32s_4k_omp M SA k (padd buckets 1) threads in
      let M := libsais_place_lms_suffixes_interval_32s_4k M SA n k (m - 1) buckets in
      let M := libsais_induce_partial_order_32s_4k M T SA n k buckets in
      let '(names, M) :=
        libsais_renumber_and_mark_distinct_lms_suffixes_32s_4k_omp M SA n m threads in
      if names <? m then
        let '(f, M) := libsais_compact_lms_suffixes_32s_omp M T SA n m fs threads in
        recurse_32s rec M na n m names fs f threads (fun M na =>
          finish (libsais_reconstruct_compacted_lms_suffixes_32s_2k_omp M T SA n k m fs f
                    buckets threads) na)
      else
        finish (libsais_count_lms_suffixes_32s_2k M T n k buckets) na
    else
      finish (st M SA 0 (ld M SA (n - 1))) na
  else if (0 <? k) && (2 <=? Z.quot fs k) then
    let alignment := if 2 <=? Z.quot (fs - 1024) k then 1024 else 16 in
    let buckets :=
      if 2 <=? Z.quot (fs - alignment) k
      then PSA (align_up_index (n + fs - 2 * k - alignment) alignment)
      else PSA (n + fs - 2 * k) in
    let '(m, M) := libsais_count_and_gather_lms_suffixes_32s_2k_omp M T SA n k buckets threads in
    let finish := fun M na =>
      let M := libsais_initialize_buckets_end_32s_2k M k buckets in
      let M := libsais_place_lms_suffixes_histogram_32s_2k M SA n k m buckets in
      let M := libsais_initialize_buckets_start_and_end_32s_2k M k buckets in
      let M := libsais_induce_final_order_32s_2k M T SA n k buckets in
      Some (0, M, na) in
    if 1 <? m then
      let M := libsais_initialize_buckets_for_lms_suffixes_radix_sort_32s_2k M T k buckets
                 (ld M SA (n - m)) in
      let M := libsais_radix_sort_lms_suffixes_32s_2k M T SA n m (padd buckets 1) in
      let M := libsais_place_lms_suffixes_interval_32s_2k M SA n k (m - 1) buckets in
      let M := libsais_initialize_buckets_start_and_end_32s_2k M k buckets in
      let M := libsais_induce_partial_order_32s_2k M T SA n k buckets in
      let '(names, M) := libsais_renumber_and_mark_distinct_lms_suffixes_32s_1k M T SA n m in
      if names <? m then
        let '(f, M) := libsais_compact_lms_suffixes_32s_omp M T SA n m fs threads in
        recurse_32s rec M na n m names fs f threads (fun M na =>
          finish (libsais_reconstruct_compacted_lms_suffixes_32s_2k_omp M T SA n k m fs f
                    buckets threads) na)
      else
        finish (libsais_count_lms_suffixes_32s_2k M T n k buckets) na
    else
      finish (st M SA 0 (ld M SA (n - 1))) na
  else
    (* int * buffer = fs < k ? alloc(k) : NULL *)
    let '(buffer, M, na) :=
      if fs <? k then
        match libsais_alloc_aligned na k with
        | (Some blk, na) => (Some (PHeap 0), mk_mem (m_sa M) blk, na)
        | (None, na) => (None, M, na)
        end
      else (None, M, na) in
    let alignment := if k <=? fs - 1024 then 1024 else 16 in
    let buckets :=
      if k <=? fs - alignment then Some (PSA (align_up_index (n + fs - k - alignment) alignment))
      else if k <=? fs then Some (PSA (n + fs - k))
      else buffer in
    match buckets with
    | None => Some (-2, M, na)
    | Some bk =>
        let M := memset0_m M SA 0 n in
        let M := libsais_count_suffixes_32s M T n k bk in
        let M := libsais_initialize_buckets_end_32s_1k M k bk in
        let '(m, M) := libsais_radix_sort_lms_suffixes_32s_1k M T SA n bk in
        let finish := fun M na (bk : ptr) =>
          let M := libsais_induce_final_order_32s_1k M T SA n k bk in
          (* libsais_free_aligned(buffer) *)
          Some (0, mk_mem (m_sa M) [], na) in
        let place := fun M na (bk : ptr) =>
          let M := libsais_count_suffixes_32s M T n k bk in
          let M := libsais_initialize_buckets_end_32s_1k M k bk in
          let M := libsais_place_lms_suffixes_interval_32s_1k M T SA k m bk in
          finish M na bk in
        if 1 <? m then
          let M := libsais_induce_partial_order_32s_1k M T SA n k bk in
          let '(names, M) := libsais_renumber_and_mark_distinct_lms_suffixes_32s_1k M T SA n m in
          if names <? m then
            (* if (buffer != NULL) { free(buffer); buckets = NULL; } *)
            let '(M, buckets) :=
              match buffer with
              | Some _ => (mk_mem (m_sa M) [], None)
              | None => (M, buckets)
              end in
            let '(f, M) := libsais_compact_lms_suffixes_32s_omp M T SA n m fs threads in
            recurse_32s rec M na n m names fs f threads (fun M na =>
              let M := libsais_reconstruct_compacted_lms_suffixes_32s_1k_omp M T SA n m fs f
                         threads in
              (* if (buckets == NULL) { buckets = buffer = alloc(k); } *)
              let '(buckets, M, na) :=
                match buckets with
                | Some b => (Some b, M, na)
                | None =>
                    match libsais_alloc_aligned na k with
                    | (Some blk, na) => (Some (PHeap 0), mk_mem (m_sa M) blk, na)
                    | (None, na) => (None, M, na)
                    end
                end in
              match buckets with
              | None => Some (-2, M, na)
              | Some bk => place M na bk
              end)
          else place M na bk
        else finish M na bk
    end.

(** [libsais_main_32s]: each level of the recursion uses one unit of fuel. *)
Fixpoint libsais_main_32s (fuel : nat) (M : mem) (na : nat) (T : ptr)
    (n k fs threads : Z) : result32 :=
  match fuel with
  | O => None
  | S fuel' => libsais_main_32s_body (libsais_main_32s fuel') M na T n k fs threads
  end.

(** [libsais_main_8u]; [fuel] bounds the depth of [libsais_main_32s]. *)
Definition libsais_main_8u (fuel : nat) (T SA : list Z) (n bwt fs threads : Z) (na : nat)
    : option (Z * list Z * nat) :=
  let '(thread_state, na) :=
    if 1 <? threads then libsais_alloc_thread_state na threads else (false, na) in
  let '(buckets, na) := libsais_alloc_aligned na (8 * ALPHABET_SIZE) in
  match buckets with
  | Some buckets =>
      if thread_state || (threads =? 1) then
        let '(m, SA, buckets) :=
          libsais_count_and_gather_lms_suffixes_8u_omp T SA n buckets threads in
        let buckets := libsais_initialize_buckets_start_and_end_8u buckets in
        let finish := fun SA buckets na =>
          let '(index, SA, _) :=
            libsais_induce_final_order_8u_omp T SA n bwt buckets threads in
          Some (index, SA, na) in
        if 0 <? m then
          let first_lms_suffix := rd SA (n - m) in
          let '(left_suffixes_count, buckets) :=
            libsais_initialize_buckets_for_lms_suffixes_radix_sort_8u T buckets
              first_lms_suffix in
          let SA := if (1 <? threads) && (65536 <=? n) then memset0 SA 0 (n - m) else SA in
          let '(SA, buckets) :=
            libsais_radix_sort_lms_suffixes_8u_omp T SA n m buckets threads in
          let SA := if (1 <? threads) && (65536 <=? n) then memset0 SA (n - m) m else SA in
          let buckets :=
            libsais_initialize_buckets_for_partial_sorting_8u T buckets first_lms_suffix
              left_suffixes_count in
          let '(SA, buckets) :=
            libsais_induce_partial_order_8u_omp T SA n buckets first_lms_suffix
              left_suffixes_count threads in
          let '(names, SA) :=
            libsais_renumber_and_gather_lms_suffixes_8u_omp SA n m fs threads in
          if names <? m then
            match libsais_main_32s fuel (mk_mem SA []) na (PSA (n + fs - m)) m names
                    (fs + n - 2 * m) threads with
            | None => None
            | Some (r, M, na) =>
                if negb (r =? 0) then Some (-2, m_sa M, na)
                else
                  let SA := libsais_gather_lms_suffixes_8u_omp T (m_sa M) n threads in
                  let SA := libsais_reconstruct_lms_suffixes_omp SA n m threads in
                  finish (libsais_place_lms_suffixes_interval_8u SA n m buckets) buckets na
            end
          else
            finish (libsais_place_lms_suffixes_interval_8u SA n m buckets) buckets na
        else
          finish (memset0 SA 0 n) buckets na
      else Some (-2, SA, na)
  | None => Some (-2, SA, na)
  end.

(** [int libsais(const unsigned char * T, int * SA, int n, int fs)].
    A [NULL] pointer is [None]; the result is the returned [int] with
    the final content of [SA]. *)
Definition libsais (T SA : option (list Z)) (n fs : Z)
    : option (Z * option (list Z)) :=
  match T, SA with
  | Some T, Some SA =>
      if (n <? 0) || (fs <? 0) then Some (-1, Some SA)
      else if n <? 2 then
        Some (0, Some (if n =? 1 then wr SA 0 0 else SA))
      else
        match libsais_main_8u (Z.to_nat n) T SA n 0 fs 1 O with
        | None => None
        | Some (r, SA, _) => Some (r, Some SA)
        end
  | _, _ => Some (-1, SA)
  end.

(** [int libsais_bwt(const unsigned char * T, unsigned char * U, int * A,
                     int n, int fs)]: the returned [int] with the final
    contents of [U] and [A]. *)
Definition libsais_bwt (T U A : option (list Z)) (n fs : Z)
    : option (Z * option (list Z) * option (list Z)) :=
  match T, U, A with
  | Some T, Some U, Some A =>
      if (n <? 0) || (fs <? 0) then Some (-1, Some U, Some A)
      else if n <=? 1 then
        Some (n, Some (if n =? 1 then wr U 0 (rd T 0) else U), Some A)
      else
        match libsais_main_8u (Z.to_nat n) T A n 1 fs 1 O with
        | None => None
        | Some (index, A, _) =>
            if 0 <=? index then
              let U := wr U 0 (rd T (n - 1)) in
              let U := libsais_bwt_copy_8u U 1 A 0 index in
              let U := libsais_bwt_copy_8u U (1 + index) A (1 + index) (n - index - 1) in
              Some (index + 1, Some U, Some A)
            else Some (index, Some U, Some A)
        end
  | _, _, _ => Some (-1, U, A)
  end.

End Driver.

(** ** Intermediate states of the drivers

    The passes of a driver up to a point of its body, to speak of the
    state that the driver has built when it gets there. *)



(** * Byte strings

    A text is a list of byte values; [bytes_of_string] gives the bytes of a
    string literal. *)
Definition bytes_of_string (s : string) : list Z :=
  map (fun a => Z.of_N (N_of_ascii a)) (list_ascii_of_string s).

(** Environments for concrete runs: every allocation succeeds
    ([malloc_always]), every allocation fails ([malloc_never]), only the
    first one succeeds ([malloc_first]), or all but the second one
    succeed ([malloc_all_but_second]); fresh cells are zero. *)
Definition malloc_always : nat -> bool := fun _ => true.
Definition malloc_never : nat -> bool := fun _ => false.
Definition malloc_first : nat -> bool := fun i => Nat.eqb i 0.
Definition junk_zero : nat -> Z -> Z := fun _ _ => 0.

Definition banana : list Z := bytes_of_string "banana".

(** * Notions of the specification

    The properties below are stated with the usual vocabulary of suffix
    sorting.  A text is followed by a sentinel that is smaller than every
    symbol. *)

(** [ltype l]: the first position of the text [l] is L-type, that is, the
    suffix starting there is greater than the one starting one position to
    the right.  The empty suffix (the sentinel) is S-type. *)
Fixpoint ltype (l : list Z) : bool :=
  match l with
  | [] => false
  | x :: l' =>
      match l' with
      | [] => true
      | y :: _ => (y <? x) || ((x =? y) && ltype l')
      end
  end.

(** Position [i] of [T] is L-type; there is no L-type position left of the
    text. *)
Definition isL (T : list Z) (i : Z) : bool :=
  if i <? 0 then false else ltype (skipn (Z.to_nat i) T).

(** Position [i] is LMS: S-type with an L-type left neighbour. *)
Definition is_LMS (T : list Z) (i : Z) : bool :=
  negb (isL T i) && isL T (i - 1).

(** The positions [a, a + 1, ..., n - 1]. *)
Definition positions_from (a n : Z) : list Z :=
  map Z.of_nat (seq (Z.to_nat a) (Z.to_nat n - Z.to_nat a)).

Definition LMS_from (T : list Z) (a : Z) : list Z :=
  filter (is_LMS T) (positions_from a (Z.of_nat (length T))).

(** The LMS positions of [T] in ascending order. *)
Definition LMS_positions (T : list Z) : list Z := LMS_from T 0.

(** The two-bit state the type scanner files position [p] under: the type
    of [p] in bit 1, the type of its left neighbour in bit 0. *)
Definition type_state (T : list Z) (p : Z) : Z :=
  2 * b2z (isL T p) + b2z (isL T (p - 1)).

(** Positions at or after [a] filed under the cell [idx] of the table. *)
Definition filed_from (T : list Z) (a idx : Z) : list Z :=
  filter (fun p => BUCKETS_INDEX4 (rd T p) (type_state T p) =? idx)
    (positions_from a (Z.of_nat (length T))).

(** The number of positions of [T] with symbol [c] and state [s]. *)
Definition count_symbol_state (T : list Z) (c s : Z) : Z :=
  Z.of_nat (length (filed_from T 0 (BUCKETS_INDEX4 c s))).

(** A text of bytes. *)
Definition byte_text (T : list Z) : Prop := Forall (fun c => 0 <= c < ALPHABET_SIZE) T.


(** The invariant of the type scanner when it is about to read [T[i]]:
    [prev] is the symbol read last, bit 0 of [s] the type of position
    [i + 1], and the positions from [i + 2] on have been gathered at the
    tail of [SA] and filed in the table [B]. *)
Record cg_inv (T : list Z) (lenSA lenB : nat) (i prev : Z) (SA B : list Z) (m s : Z)
    : Prop := mk_cg_inv {
  cgi_prev : 0 <= i + 1 -> prev = rd T (i + 1);
  cgi_s : Z.land s 1 = b2z (isL T (i + 1));
  cgi_m : m = Z.of_nat (length T) - 1 - Z.of_nat (length (LMS_from T (i + 2)));
  cgi_lenSA : length SA = lenSA;
  cgi_SA : forall q, (q < length (LMS_from T (i + 2)))%nat ->
           rd SA (m + 1 + Z.of_nat q) = nth q (LMS_from T (i + 2)) 0;
  cgi_lenB : length B = lenB;
  cgi_B : forall idx, 0 <= idx < 4 * ALPHABET_SIZE ->
          rd B idx = Z.of_nat (length (filed_from T (i + 2) idx))
}.





(** The counting argument behind the size of the reduced problem.  A
    scanner has read the symbols above [i]; [c] counts the positions it
    has recognised as LMS, bit 0 of [s] is the type of the position read
    last.  Two LMS positions are never adjacent, so [c] is at most half
    the number of symbols read. *)
Definition lms_count_inv (n i c s : Z) : Prop :=
  0 <= c /\
  ((Z.land s 1 = 1 /\ 2 * c <= n - 2 - i) \/ (Z.land s 1 = 0 /\ 2 * c <= n - 3 - i)).




(** The number of positions at or after [a] that hold the symbol [j]. *)
Definition occurrences_from (T : list Z) (a j : Z) : Z :=
  Z.of_nat (length (filter (fun p => rd T p =? j) (positions_from a (Z.of_nat (length T))))).

(** The text of [n] copies of the symbol [c]. *)
Definition constant_text (c n : Z) : list Z := repeat c (Z.to_nat n).

(** The suffix array of a constant text: [n - 1, n - 2, ..., 0]. *)
Definition descending (n : Z) : list Z := map (fun i => n - 1 - i) (positions_from 0 n).


(** [tot 0 + tot 1 + ... + tot (j - 1)]. *)
Fixpoint prefix_sum (tot : Z -> Z) (j : nat) : Z :=
  match j with
  | O => 0
  | S j' => prefix_sum tot j' + tot (Z.of_nat j')
  end.


(** The final left-to-right scan of the constant text of [n] symbols [c],
    about to read cell [i]: the cells before [i] hold [done j], cell [i]
    holds the position [n - 1 - i], the cells after it are empty, and the
    bucket of [c] starts at [i + 1]; the rest of the table is as in [B0]. *)
Definition constant_l2r_inv (c n : Z) (done : Z -> Z) (B0 : list Z) (lenSA : nat) (ib : Z)
    (i : Z) (st : list Z * list Z) : Prop :=
  length (fst st) = lenSA /\ length (snd st) = length B0 /\
  (forall j, 0 <= j < i -> rd (fst st) j = done j) /\
  (i < n -> rd (fst st) i = n - 1 - i) /\
  (forall j, i < j < n -> rd (fst st) j = 0) /\
  rd (snd st) (ib + c) = Z.min (i + 1) n /\
  (forall idx, idx <> ib + c -> rd (snd st) idx = rd B0 idx).

(** The final right-to-left scan, about to read cell [i]: the cells up to
    [i] hold [todo j], the cells after it hold [done j]. *)
Definition constant_r2l_inv (n : Z) (todo done : Z -> Z) (lenSA : nat) (i : Z) (SA : list Z)
    : Prop :=
  length SA = lenSA /\
  (forall j, 0 <= j <= i -> rd SA j = todo j) /\
  (forall j, i < j < n -> rd SA j = done j).


(** What the left-to-right final scans leave in cell [j] of the constant
    text: the position with its sign bit flipped (suffix-array mode), or
    the marked preceding symbol (BWT mode; position 0 has none). *)
Definition sorted_mark (n j : Z) : Z := Z.lxor (n - 1 - j) INT_MIN.
Definition bwt_mark (c n j : Z) : Z := if j <? n - 1 then Z.lor c INT_MIN else 0.

(** What the right-to-left final scan of the BWT mode leaves in cell [j]. *)
Definition bwt_cell (c n j : Z) : Z := if j <? n - 1 then c else 0.

(** ** Marked cells, memory cells and histograms *)

(** The positions of [[a, b)] whose cell of [SA] is negative (marked). *)
Definition negative_cells (SA : list Z) (a b : Z) : list Z :=
  filter (fun i => rd SA i <? 0) (positions_from a b).

(** The cell of the memory that [p[i]] names: its block ([true] for the
    [SA] buffer) and its index in the block. *)
Definition cell_of (p : ptr) (i : Z) : bool * Z :=
  match p with
  | PSA o => (true, o + i)
  | PHeap o => (false, o + i)
  end.

(** [p[i]] lies inside its block. *)
Definition in_block (M : mem) (p : ptr) (i : Z) : Prop :=
  match p with
  | PSA o => 0 <= o + i < Z.of_nat (length (m_sa M))
  | PHeap o => 0 <= o + i < Z.of_nat (length (m_heap M))
  end.

(** The number of positions [i] in [[a, b)] with [T[i] = c]. *)
Definition occurrences_m (M : mem) (T : ptr) (a b c : Z) : Z :=
  Z.of_nat (length (filter (fun i => ld M T i =? c) (positions_from a b))).

(** [q[j]] is not one of the cells [buckets[0 .. k)]. *)
Definition off_table (buckets : ptr) (k : Z) (q : ptr) (j : Z) : Prop :=
  forall c, 0 <= c < k -> cell_of q j <> cell_of buckets c.

(** * Proof devices *)

(** The body of a loop unrolled [c] times: [step i], [step (i + 1)], ...,
    [step (i + c - 1)] in an ascending loop, [step i], [step (i - 1)],
    ... in a descending one. *)
Fixpoint unrolled_up {St : Type} (step : Z -> St -> St) (c : nat) (i : Z) (s : St) : St :=
  match c with
  | O => s
  | S c' => step (i + Z.of_nat c') (unrolled_up step c' i s)
  end.

Fixpoint unrolled_down {St : Type} (step : Z -> St -> St) (c : nat) (i : Z) (s : St) : St :=
  match c with
  | O => s
  | S c' => step (i - Z.of_nat c') (unrolled_down step c' i s)
  end.


(** * Properties *)

(** ** Arrays *)

Lemma upd_nat_length (l : list Z) (i : nat) (v : Z) :
  length (upd_nat l i v) = length l.
Proof.
  revert i; induction l as [|x l IH]; intros [|i]; simpl; auto.
Qed.

Lemma nth_upd_nat_same (l : list Z) (i : nat) (v d : Z) :
  (i < length l)%nat -> nth i (upd_nat l i v) d = v.
Proof.
  revert i; induction l as [|x l IH]; intros [|i] H; simpl in *; try lia; auto.
  apply IH; lia.
Qed.

Lemma nth_upd_nat_other (l : list Z) (i j : nat) (v d : Z) :
  i <> j -> nth j (upd_nat l i v) d = nth j l d.
Proof.
  revert i j; induction l as [|x l IH]; intros [|i] [|j] H; simpl; auto; try congruence.
Qed.

Lemma wr_length (l : list Z) (i v : Z) : length (wr l i v) = length l.
Proof.
  unfold wr; destruct (i <? 0); auto using upd_nat_length.
Qed.

Lemma rd_wr_same (l : list Z) (i v : Z) :
  0 <= i < Z.of_nat (length l) -> rd (wr l i v) i = v.
Proof.
  intros H; unfold rd, wr.
  destruct (Z.ltb_spec i 0); try lia.
  apply nth_upd_nat_same; lia.
Qed.

Lemma rd_wr_other (l : list Z) (i j v : Z) :
  i <> j -> rd (wr l i v) j = rd l j.
Proof.
  intros H; unfold rd, wr.
  destruct (Z.ltb_spec j 0); auto.
  destruct (Z.ltb_spec i 0); auto.
  apply nth_upd_nat_other; lia.
Qed.

Lemma rd_out (l : list Z) (i : Z) : Z.of_nat (length l) <= i -> rd l i = 0.
Proof.
  intros H; unfold rd; destruct (Z.ltb_spec i 0); auto.
  apply nth_overflow; lia.
Qed.

Lemma wr_out (l : list Z) (i v : Z) : Z.of_nat (length l) <= i -> wr l i v = l.
Proof.
  intros H; unfold wr; destruct (Z.ltb_spec i 0); auto.
  assert (Hn : (length l <= Z.to_nat i)%nat) by lia.
  revert Hn; generalize (Z.to_nat i); clear.
  induction l as [|x l IH]; intros [|n] Hn; simpl in *; auto; try lia.
  f_equal; apply IH; lia.
Qed.

Lemma incr_length (l : list Z) (i : Z) : length (incr l i) = length l.
Proof. apply wr_length. Qed.

Lemma rd_incr_same (l : list Z) (i : Z) :
  0 <= i < Z.of_nat (length l) -> rd (incr l i) i = rd l i + 1.
Proof. intros; unfold incr; now rewrite rd_wr_same. Qed.

Lemma rd_incr_other (l : list Z) (i j : Z) : i <> j -> rd (incr l i) j = rd l j.
Proof. intros; unfold incr; now rewrite rd_wr_other. Qed.

Lemma blit_length (ch l : list Z) (i : Z) : length (blit l i ch) = length l.
Proof.
  revert l i; induction ch as [|c ch IH]; intros; simpl; auto.
  now rewrite IH, wr_length.
Qed.

Lemma rd_blit_out (ch l : list Z) (i j : Z) :
  j < i \/ i + Z.of_nat (length ch) <= j -> rd (blit l i ch) j = rd l j.
Proof.
  revert l i; induction ch as [|c ch IH]; intros l i H; simpl in *; auto.
  rewrite IH by lia. apply rd_wr_other; lia.
Qed.

Lemma rd_blit_in (ch l : list Z) (i j : Z) :
  0 <= i -> i <= j < i + Z.of_nat (length ch) -> j < Z.of_nat (length l) ->
  rd (blit l i ch) j = nth (Z.to_nat (j - i)) ch 0.
Proof.
  revert l i; induction ch as [|c ch IH]; intros l i Hi H Hj; simpl in *; try lia.
  destruct (Z.eq_dec j i) as [->|Hne].
  - rewrite rd_blit_out by lia. rewrite rd_wr_same by lia.
    now replace (i - i) with 0 by lia.
  - rewrite IH; try lia.
    + replace (Z.to_nat (j - i)) with (S (Z.to_nat (j - (i + 1)))) by lia. reflexivity.
    + rewrite wr_length; lia.
Qed.

Lemma memset0_length (l : list Z) (i cnt : Z) : length (memset0 l i cnt) = length l.
Proof. apply blit_length. Qed.

Lemma rd_memset0_in (l : list Z) (i cnt j : Z) :
  0 <= i -> i <= j < i + cnt -> rd (memset0 l i cnt) j = 0.
Proof.
  intros Hi H. unfold memset0.
  destruct (Z_lt_ge_dec j (Z.of_nat (length l))) as [Hj|Hj].
  - rewrite rd_blit_in; try rewrite repeat_length; try lia.
    apply nth_repeat.
  - apply rd_out. rewrite blit_length; lia.
Qed.

Lemma rd_memset0_out (l : list Z) (i cnt j : Z) :
  j < i \/ i + cnt <= j -> rd (memset0 l i cnt) j = rd l j.
Proof.
  intros H; unfold memset0. apply rd_blit_out. rewrite repeat_length. lia.
Qed.

(** Two arrays that agree cell by cell are equal. *)
Lemma rd_ext (l l' : list Z) :
  length l = length l' ->
  (forall i, 0 <= i < Z.of_nat (length l) -> rd l i = rd l' i) -> l = l'.
Proof.
  intros Hlen H. apply (nth_ext l l' 0 0 Hlen).
  intros n Hn. specialize (H (Z.of_nat n)).
  unfold rd in H. destruct (Z.ltb_spec (Z.of_nat n) 0); try lia.
  rewrite Nat2Z.id in H. apply H; lia.
Qed.

Lemma rd_firstn (l : list Z) (k : nat) (i : Z) :
  0 <= i < Z.of_nat k -> rd (firstn k l) i = rd l i.
Proof.
  intros H; unfold rd. destruct (Z.ltb_spec i 0); try lia.
  apply nth_firstn_lt || (rewrite nth_firstn; destruct (Nat.ltb_spec (Z.to_nat i) k); auto; lia).
Qed.

Lemma rd_skipn (l : list Z) (k : nat) (i : Z) :
  0 <= i -> rd (skipn k l) i = rd l (Z.of_nat k + i).
Proof.
  intros H; unfold rd.
  destruct (Z.ltb_spec i 0); try lia.
  destruct (Z.ltb_spec (Z.of_nat k + i) 0); try lia.
  rewrite nth_skipn. f_equal; lia.
Qed.

(** ** Loops: indexed invariants *)

Section LoopInvariants.
Context {St : Type}.
Variable P : Z -> St -> Prop.

Lemma for_up_fuel_ind (step : Z) (body : Z -> St -> St) (j : Z) :
  0 < step ->
  (forall k s, k < j -> P k s -> P (k + step) (body k s)) ->
  forall fuel i s, (Z.to_nat (j - i) <= fuel)%nat -> P i s ->
  let r := for_up_fuel fuel step body i j s in
  P (fst r) (snd r) /\ j <= fst r /\ (fst r = i \/ fst r < j + step).
Proof.
  intros Hstep Hbody fuel; induction fuel as [|fuel IH]; intros i s Hf Hi; simpl.
  - repeat split; auto; lia.
  - destruct (Z.ltb_spec i j) as [Hlt|Hge].
    + destruct (IH (i + step) (body i s)) as (H1 & H2 & H3); [lia|auto|].
      repeat split; auto. right. destruct H3 as [->|]; lia.
    + simpl; repeat split; auto; lia.
Qed.

Lemma for_up_ind (step : Z) (body : Z -> St -> St) (i j : Z) (s : St) :
  0 < step -> P i s ->
  (forall k s, i <= k < j -> P k s -> P (k + step) (body k s)) ->
  let r := for_up step body i j s in
  P (fst r) (snd r) /\ j <= fst r /\ (fst r = i \/ fst r < j + step).
Proof.
  intros Hstep Hi Hbody. unfold for_up.
  pose (Q := fun k s => i <= k /\ P k s).
  assert (HQ : forall fuel i0 s0, (Z.to_nat (j - i0) <= fuel)%nat -> Q i0 s0 ->
            let r := for_up_fuel fuel step body i0 j s0 in
            Q (fst r) (snd r) /\ j <= fst r /\ (fst r = i0 \/ fst r < j + step)).
  { clear Hi. intros fuel; induction fuel as [|fuel IH]; intros i0 s0 Hf [Hle Hp]; simpl.
    - repeat split; auto; lia.
    - destruct (Z.ltb_spec i0 j) as [Hlt|Hge].
      + destruct (IH (i0 + step) (body i0 s0)) as (H1 & H2 & H3); [lia| |].
        { split; [lia|]. apply Hbody; auto; lia. }
        repeat split; try apply H1; auto. right. destruct H3 as [->|]; lia.
      + simpl; repeat split; auto; lia. }
  destruct (HQ (Z.to_nat (j - i)) i s) as ((_ & H1) & H2 & H3); [lia|split; [lia|auto]|].
  repeat split; auto.
Qed.

Lemma for_down_ind (step : Z) (body : Z -> St -> St) (i j : Z) (s : St) :
  0 < step -> P i s ->
  (forall k s, j <= k <= i -> P k s -> P (k - step) (body k s)) ->
  let r := for_down step body i j s in
  P (fst r) (snd r) /\ fst r < j /\ (fst r = i \/ j - step <= fst r).
Proof.
  intros Hstep Hi Hbody. unfold for_down.
  pose (Q := fun k s => k <= i /\ P k s).
  assert (HQ : forall fuel i0 s0, (Z.to_nat (i0 - j + 1) <= fuel)%nat -> Q i0 s0 ->
            let r := for_down_fuel fuel step body i0 j s0 in
            Q (fst r) (snd r) /\ fst r < j /\ (fst r = i0 \/ j - step <= fst r)).
  { clear Hi. intros fuel; induction fuel as [|fuel IH]; intros i0 s0 Hf [Hle Hp]; simpl.
    - repeat split; auto; lia.
    - destruct (Z.leb_spec j i0) as [Hlt|Hge].
      + destruct (IH (i0 - step) (body i0 s0)) as (H1 & H2 & H3); [lia| |].
        { split; [lia|]. apply Hbody; auto; lia. }
        repeat split; try apply H1; auto. right. destruct H3 as [->|]; lia.
      + simpl; repeat split; auto; lia. }
  destruct (HQ (Z.to_nat (i - j + 1)) i s) as ((_ & H1) & H2 & H3); [lia|split; [lia|auto]|].
  repeat split; auto.
Qed.
End LoopInvariants.


Lemma for_down_inv {St : Type} (P : St -> Prop) (step : Z) (body : Z -> St -> St)
    (i j : Z) (s : St) :
  (forall k s, P s -> P (body k s)) -> P s -> P (snd (for_down step body i j s)).
Proof.
  intros Hbody. unfold for_down. generalize (Z.to_nat (i - j + 1)) as fuel.
  intros fuel; revert i s; induction fuel as [|fuel IH]; intros i s Hs; simpl; auto.
  destruct (j <=? i); simpl; auto.
Qed.

(** ** The entry points on a concrete text *)

(** C2, as written, fails on the code: on ["banana"] with [fs = 0],
    [libsais_bwt] does not return primary index 4 together with
    [U = "nnbaaa"]; the string it writes is ["annbaa"]. *)
Lemma libsais_bwt_banana_not_nnbaaa :
  ~ exists A',
      libsais_bwt malloc_always junk_zero 4096 (Some banana) (Some (repeat 0 6%nat))
        (Some (repeat 0 6%nat)) 6 0
      = Some (4, Some (bytes_of_string "nnbaaa"), A').
Proof.
  intros [A' H]. vm_compute in H. discriminate H.
Qed.

(** C2, amended: on ["banana"] with [fs = 0], whatever the buffers hold on
    entry and whatever the freshly allocated bucket table holds, [libsais]
    returns 0 with [SA = (5,3,1,0,4,2)], and [libsais_bwt] returns the
    primary index 4 with [U = "annbaa"] (the last column of the sorted
    suffixes with the end-of-text sentinel dropped); cells of the buffers
    past the first six are left alone. *)
Theorem libsais_banana (malloc_ok : nat -> bool) (malloc_junk : nat -> Z -> Z) (SA_addr : Z)
    (a0 a1 a2 a3 a4 a5 u0 u1 u2 u3 u4 u5 : Z) (arest urest : list Z) :
  malloc_ok O = true ->
  libsais malloc_ok malloc_junk SA_addr (Some banana)
    (Some (a0 :: a1 :: a2 :: a3 :: a4 :: a5 :: arest)) 6 0
  = Some (0, Some (5 :: 3 :: 1 :: 0 :: 4 :: 2 :: arest))
  /\ exists A',
      libsais_bwt malloc_ok malloc_junk SA_addr (Some banana)
        (Some (u0 :: u1 :: u2 :: u3 :: u4 :: u5 :: urest))
        (Some (a0 :: a1 :: a2 :: a3 :: a4 :: a5 :: arest)) 6 0
      = Some (4, Some (bytes_of_string "annbaa" ++ urest), A').
Proof.
  intros Hm. split.
  - unfold libsais. cbn [orb Z.ltb Z.compare].
    unfold libsais_main_8u. cbn [Z.ltb Z.compare Pos.compare Pos.compare_cont].
    unfold libsais_alloc_aligned. rewrite Hm.
    vm_compute. reflexivity.
  - eexists. unfold libsais_bwt. cbn [orb Z.ltb Z.compare].
    unfold libsais_main_8u. cbn [Z.ltb Z.compare Pos.compare Pos.compare_cont].
    unfold libsais_alloc_aligned. rewrite Hm.
    vm_compute. reflexivity.
Qed.

Lemma libsais_banana_witness :
  malloc_always O = true /\
  (libsais malloc_always junk_zero 4096 (Some banana)
     (Some (0 :: 0 :: 0 :: 0 :: 0 :: 0 :: nil)) 6 0
   = Some (0, Some (5 :: 3 :: 1 :: 0 :: 4 :: 2 :: nil))
   /\ exists A',
       libsais_bwt malloc_always junk_zero 4096 (Some banana)
         (Some (0 :: 0 :: 0 :: 0 :: 0 :: 0 :: nil))
         (Some (0 :: 0 :: 0 :: 0 :: 0 :: 0 :: nil)) 6 0
       = Some (4, Some (bytes_of_string "annbaa" ++ nil), A')).
Proof.
  split; [reflexivity|].
  apply (libsais_banana malloc_always junk_zero 4096 0 0 0 0 0 0 0 0 0 0 0 0 nil nil).
  reflexivity.
Defined.

(** ** Error returns of the entry points *)

(** C9: when [libsais_bwt] is called with [n >= 2] and returns a negative
    value, the buffer [U] is exactly what it was on entry. *)
Theorem libsais_bwt_negative_keeps_U (malloc_ok : nat -> bool) (malloc_junk : nat -> Z -> Z)
    (SA_addr : Z) (T U A : option (list Z)) (n fs r : Z) (U' A' : option (list Z)) :
  2 <= n ->
  libsais_bwt malloc_ok malloc_junk SA_addr T U A n fs = Some (r, U', A') ->
  r < 0 ->
  U' = U.
Proof.
  intros Hn H Hr. unfold libsais_bwt in H.
  destruct T as [T|], U as [U|], A as [A|]; try (inversion H; reflexivity).
  destruct ((n <? 0) || (fs <? 0)); [inversion H; reflexivity|].
  destruct (Z.leb_spec n 1); [lia|].
  destruct (libsais_main_8u _ _ _ _ _ _ _ _ _ _ _) as [[[index A2] na]|]; [|discriminate].
  destruct (Z.leb_spec 0 index); inversion H; subst; [lia|reflexivity].
Qed.

Lemma libsais_bwt_negative_keeps_U_witness :
  2 <= 6 /\
  libsais_bwt malloc_never junk_zero 4096 (Some banana) (Some (repeat 7 6%nat))
    (Some (repeat 0 6%nat)) 6 0
  = Some (-2, Some (repeat 7 6%nat), Some (repeat 0 6%nat)) /\
  -2 < 0 /\
  Some (repeat 7 6%nat) = Some (repeat 7 6%nat).
Proof.
  assert (Hrun : libsais_bwt malloc_never junk_zero 4096 (Some banana) (Some (repeat 7 6%nat))
                   (Some (repeat 0 6%nat)) 6 0
                 = Some (-2, Some (repeat 7 6%nat), Some (repeat 0 6%nat)))
    by (vm_compute; reflexivity).
  split; [lia|]. split; [exact Hrun|]. split; [lia|].
  apply (libsais_bwt_negative_keeps_U malloc_never junk_zero 4096 (Some banana)
           (Some (repeat 7 6%nat)) (Some (repeat 0 6%nat)) 6 0 (-2)
           (Some (repeat 7 6%nat)) (Some (repeat 0 6%nat))); [lia|exact Hrun|lia].
Defined.


(** ** The type scanner *)

(** ** Types of positions *)

Lemma rd_byte (T : list Z) (i : Z) : byte_text T -> 0 <= rd T i < ALPHABET_SIZE.
Proof.
  intros HT. unfold rd. destruct (Z.ltb_spec i 0); [unfold ALPHABET_SIZE; lia|].
  destruct (Nat.lt_ge_cases (Z.to_nat i) (length T)) as [Hlt|Hge].
  - unfold byte_text in HT. rewrite Forall_forall in HT. apply HT, nth_In, Hlt.
  - rewrite nth_overflow by exact Hge. unfold ALPHABET_SIZE; lia.
Qed.

Lemma skipn_cons_nth (T : list Z) (k : nat) :
  (k < length T)%nat -> skipn k T = nth k T 0 :: skipn (S k) T.
Proof.
  revert k; induction T as [|x T IH]; intros [|k] H; simpl in *; try lia; auto.
  apply IH; lia.
Qed.

Lemma skipn_cons_rd (T : list Z) (i : Z) :
  0 <= i < Z.of_nat (length T) ->
  skipn (Z.to_nat i) T = rd T i :: skipn (Z.to_nat (i + 1)) T.
Proof.
  intros H. unfold rd. destruct (Z.ltb_spec i 0); [lia|].
  replace (Z.to_nat (i + 1)) with (S (Z.to_nat i)) by lia.
  apply skipn_cons_nth; lia.
Qed.

Lemma isL_neg (T : list Z) (i : Z) : i < 0 -> isL T i = false.
Proof. intros H; unfold isL. destruct (Z.ltb_spec i 0); auto; lia. Qed.

Lemma isL_last (T : list Z) (n : Z) :
  Z.of_nat (length T) = n -> 1 <= n -> isL T (n - 1) = true.
Proof.
  intros Hlen Hn. unfold isL. destruct (Z.ltb_spec (n - 1) 0); [lia|].
  rewrite skipn_cons_rd by lia. replace (n - 1 + 1) with n by lia.
  rewrite skipn_all2 by lia. reflexivity.
Qed.

Lemma isL_step (T : list Z) (i : Z) :
  0 <= i -> i + 1 < Z.of_nat (length T) ->
  isL T i = (rd T (i + 1) <? rd T i) || ((rd T i =? rd T (i + 1)) && isL T (i + 1)).
Proof.
  intros Hi Hn. unfold isL.
  destruct (Z.ltb_spec i 0); [lia|]. destruct (Z.ltb_spec (i + 1) 0); [lia|].
  rewrite (skipn_cons_rd T i) by lia.
  rewrite (skipn_cons_rd T (i + 1)) by lia. reflexivity.
Qed.

(** The comparison of the scanner computes the type of the position read. *)
Lemma type_bit_correct (T : list Z) (i s : Z) :
  0 <= i -> i + 1 < Z.of_nat (length T) ->
  Z.land s 1 = b2z (isL T (i + 1)) ->
  (rd T (i + 1) - Z.land s 1 <? rd T i) = isL T i.
Proof.
  intros Hi Hn Hs. rewrite Hs, (isL_step T i Hi Hn).
  destruct (isL T (i + 1)); simpl;
    destruct (Z.ltb_spec (rd T (i + 1)) (rd T i)), (Z.eqb_spec (rd T i) (rd T (i + 1)));
    simpl; try lia;
    match goal with |- (?a <? ?b) = _ => destruct (Z.ltb_spec a b) end; lia.
Qed.

Lemma land_3_mod (x : Z) : Z.land x 3 = x mod 4.
Proof. change 3 with (Z.ones 2). rewrite Z.land_ones by lia. reflexivity. Qed.

Lemma land_1_mod (x : Z) : Z.land x 1 = x mod 2.
Proof. change 1 with (Z.ones 1) at 1. rewrite Z.land_ones by lia. reflexivity. Qed.

Lemma mod_4_step (s b : Z) : 0 <= b <= 1 -> (s * 2 + b) mod 4 = 2 * (s mod 2) + b.
Proof.
  intros Hb.
  pose proof (Z.mod_pos_bound s 2 ltac:(lia)).
  pose proof (Z.div_mod s 2 ltac:(lia)).
  replace (s * 2 + b) with (2 * (s mod 2) + b + (s / 2) * 4) by lia.
  rewrite Z.mod_add by lia. apply Z.mod_small. lia.
Qed.

Lemma type_step_land_3 (s cur prev : Z) :
  Z.land (type_step s cur prev) 3 = 2 * Z.land s 1 + b2z (prev - Z.land s 1 <? cur).
Proof.
  unfold type_step, to_size_t. rewrite land_3_mod, land_1_mod, Z.shiftl_mul_pow2 by lia.
  rewrite Z.mod_mod_divide by (exists (2 ^ 62); reflexivity).
  apply mod_4_step. destruct (_ <? _); simpl; lia.
Qed.

Lemma type_step_land_1 (s cur prev : Z) :
  Z.land (type_step s cur prev) 1 = b2z (prev - Z.land s 1 <? cur).
Proof.
  pose proof (type_step_land_3 s cur prev) as H.
  rewrite land_3_mod in H. rewrite (land_1_mod (type_step _ _ _)).
  rewrite (land_1_mod s) in *.
  set (b := b2z _) in *. assert (Hb : 0 <= b <= 1) by (unfold b, b2z; destruct (_ <? _); lia).
  pose proof (Z.mod_pos_bound s 2 ltac:(lia)).
  rewrite <- (Z.mod_mod_divide _ 4 2) by (exists 2; reflexivity).
  rewrite H. replace (2 * (s mod 2) + b) with (b + (s mod 2) * 2) by lia.
  rewrite Z.mod_add by lia. apply Z.mod_small; lia.
Qed.

Lemma positions_from_cons (a n : Z) :
  0 <= a < n -> positions_from a n = a :: positions_from (a + 1) n.
Proof.
  intros H. unfold positions_from.
  replace (Z.to_nat n - Z.to_nat a)%nat with (S (Z.to_nat n - Z.to_nat (a + 1))) by lia.
  simpl. rewrite Z2Nat.id by lia.
  replace (Z.to_nat (a + 1)) with (S (Z.to_nat a)) by lia. reflexivity.
Qed.

Lemma positions_from_nil (a n : Z) : n <= a -> positions_from a n = [].
Proof.
  intros H. unfold positions_from.
  replace (Z.to_nat n - Z.to_nat a)%nat with O by lia. reflexivity.
Qed.

Lemma positions_from_length (a n : Z) :
  0 <= a <= n -> Z.of_nat (length (positions_from a n)) = n - a.
Proof.
  intros H. unfold positions_from. rewrite length_map, length_seq. lia.
Qed.

Lemma LMS_from_cons (T : list Z) (a : Z) :
  0 <= a < Z.of_nat (length T) ->
  LMS_from T a = if is_LMS T a then a :: LMS_from T (a + 1) else LMS_from T (a + 1).
Proof.
  intros H. unfold LMS_from. rewrite positions_from_cons by lia. reflexivity.
Qed.

Lemma LMS_from_length (T : list Z) (a : Z) :
  0 <= a <= Z.of_nat (length T) ->
  Z.of_nat (length (LMS_from T a)) <= Z.of_nat (length T) - a.
Proof.
  intros H. rewrite <- positions_from_length by lia.
  unfold LMS_from. apply inj_le, filter_length_le.
Qed.

Lemma filed_from_cons (T : list Z) (a idx : Z) :
  0 <= a < Z.of_nat (length T) ->
  filed_from T a idx =
    if BUCKETS_INDEX4 (rd T a) (type_state T a) =? idx
    then a :: filed_from T (a + 1) idx else filed_from T (a + 1) idx.
Proof.
  intros H. unfold filed_from. rewrite positions_from_cons by lia. reflexivity.
Qed.

Lemma BUCKETS_INDEX4_eq (c s : Z) : BUCKETS_INDEX4 c s = 4 * c + s.
Proof. unfold BUCKETS_INDEX4. rewrite Z.shiftl_mul_pow2 by lia. change (2 ^ 2) with 4. lia. Qed.

Lemma type_state_range (T : list Z) (p : Z) : 0 <= type_state T p < 4.
Proof. unfold type_state. destruct (isL T p), (isL T (p - 1)); simpl; lia. Qed.

(** One step of the scanner, reading [cur] as the symbol at [i]. *)
Lemma cg_step_inv (T : list Z) (lenSA lenB : nat) (i prev cur : Z) (SA B : list Z) (m s : Z) :
  byte_text T -> -1 <= i -> i + 1 < Z.of_nat (length T) ->
  (length T <= lenSA)%nat -> 4 * ALPHABET_SIZE <= Z.of_nat lenB ->
  cg_inv T lenSA lenB i prev SA B m s ->
  (prev - Z.land s 1 <? cur) = isL T i ->
  (0 <= i -> cur = rd T i) ->
  let s' := type_step s cur prev in
  cg_inv T lenSA lenB (i - 1) cur (wr SA m (i + 1))
    (incr B (BUCKETS_INDEX4 (to_size_t prev) (Z.land s' 3)))
    (m - b2z (Z.land s' 3 =? 1)) s'.
Proof.
  intros HT Hi Hn HlenSA HlenB [Hprev Hs Hm HlSA HSA HlB HB] Hbit Hcur s'.
  assert (Hs3 : Z.land s' 3 = type_state T (i + 1)).
  { unfold s'. rewrite type_step_land_3, Hbit, Hs. unfold type_state.
    replace (i + 1 - 1) with i by lia. reflexivity. }
  assert (Hlms : (Z.land s' 3 =? 1) = is_LMS T (i + 1)).
  { rewrite Hs3. unfold type_state, is_LMS. replace (i + 1 - 1) with i by lia.
    destruct (isL T (i + 1)), (isL T i); reflexivity. }
  assert (Hp : to_size_t prev = rd T (i + 1)).
  { rewrite Hprev by lia. unfold to_size_t. apply Z.mod_small.
    pose proof (rd_byte T (i + 1) HT). unfold ALPHABET_SIZE in *. lia. }
  pose proof (LMS_from_length T (i + 2) ltac:(lia)) as Hcnt.
  pose proof (LMS_from_cons T (i + 1) ltac:(lia)) as Hcons.
  replace (i + 1 + 1) with (i + 2) in Hcons by lia.
  rewrite Hlms, Hp, Hs3.
  split; replace (i - 1 + 1) with i by lia; replace (i - 1 + 2) with (i + 1) by lia;
    rewrite ?Hcons.
  - exact Hcur.
  - unfold s'. rewrite type_step_land_1, Hbit. reflexivity.
  - destruct (is_LMS T (i + 1)); simpl length; simpl b2z; lia.
  - rewrite wr_length. exact HlSA.
  - intros q Hq. destruct (is_LMS T (i + 1)); simpl b2z in *.
    + destruct q as [|q]; simpl nth.
      * replace (m - 1 + 1 + Z.of_nat 0) with m by lia.
        apply rd_wr_same. lia.
      * rewrite rd_wr_other by lia. simpl in Hq.
        replace (m - 1 + 1 + Z.of_nat (S q)) with (m + 1 + Z.of_nat q) by lia.
        apply HSA. lia.
    + rewrite rd_wr_other by lia. replace (m - 0) with m by lia. apply HSA, Hq.
  - rewrite incr_length. exact HlB.
  - intros idx Hidx. rewrite (filed_from_cons T (i + 1)) by lia.
    replace (i + 1 + 1) with (i + 2) by lia.
    destruct (Z.eqb_spec (BUCKETS_INDEX4 (rd T (i + 1)) (type_state T (i + 1))) idx) as [->|Hne].
    + rewrite rd_incr_same by lia. rewrite HB by exact Hidx. simpl length. lia.
    + rewrite rd_incr_other by exact Hne. apply HB, Hidx.
Qed.

Lemma cg8_read_c1_inv (T : list Z) (lenSA lenB : nat) (i pos j : Z) (st : cg_state) :
  byte_text T -> 0 <= i -> i + 1 < Z.of_nat (length T) ->
  (length T <= lenSA)%nat -> 4 * ALPHABET_SIZE <= Z.of_nat lenB ->
  pos = i + 1 -> j = i - 1 ->
  cg_inv T lenSA lenB i (cg_c0 st) (cg_SA st) (cg_buckets st) (cg_m st) (cg_s st) ->
  let st' := cg8_read_c1 T i pos st in
  cg_inv T lenSA lenB j (cg_c1 st') (cg_SA st') (cg_buckets st') (cg_m st') (cg_s st').
Proof.
  intros HT Hi Hn HlSA HlB -> -> Hinv. simpl.
  apply cg_step_inv; auto; try lia.
  rewrite (cgi_prev _ _ _ _ _ _ _ _ _ Hinv) by lia.
  apply type_bit_correct; try lia. apply (cgi_s _ _ _ _ _ _ _ _ _ Hinv).
Qed.

Lemma cg8_read_c0_inv (T : list Z) (lenSA lenB : nat) (i pos j : Z) (st : cg_state) :
  byte_text T -> 0 <= i -> i + 1 < Z.of_nat (length T) ->
  (length T <= lenSA)%nat -> 4 * ALPHABET_SIZE <= Z.of_nat lenB ->
  pos = i + 1 -> j = i - 1 ->
  cg_inv T lenSA lenB i (cg_c1 st) (cg_SA st) (cg_buckets st) (cg_m st) (cg_s st) ->
  let st' := cg8_read_c0 T i pos st in
  cg_inv T lenSA lenB j (cg_c0 st') (cg_SA st') (cg_buckets st') (cg_m st') (cg_s st').
Proof.
  intros HT Hi Hn HlSA HlB -> -> Hinv. simpl.
  apply cg_step_inv; auto; try lia.
  rewrite (cgi_prev _ _ _ _ _ _ _ _ _ Hinv) by lia.
  apply type_bit_correct; try lia. apply (cgi_s _ _ _ _ _ _ _ _ _ Hinv).
Qed.

(** The scanner on a whole text: the state it ends in. *)
Lemma count_and_gather_lms_suffixes_8u_inv (T SA buckets : list Z) (n : Z) :
  byte_text T -> Z.of_nat (length T) = n -> 1 <= n ->
  n <= Z.of_nat (length SA) -> 4 * ALPHABET_SIZE <= Z.of_nat (length buckets) ->
  exists SA' B' m s prev,
    libsais_count_and_gather_lms_suffixes_8u T SA n buckets 0 n = (n - 1 - m, SA', B') /\
    cg_inv T (length SA) (length buckets) (-2) prev SA' B' m s.
Proof.
  intros HT Hlen Hn HSA HB.
  unfold libsais_count_and_gather_lms_suffixes_8u.
  destruct (Z.ltb_spec 0 n) as [_|]; [|lia].
  replace (0 + n - 1) with (n - 1) by lia.
  replace (n - (n - 1 + 1)) with 0 by lia. simpl skip_equal. cbv iota beta.
  set (st0 := mk_cg _ _ _ _ _ _).
  pose (P := fun i st =>
    -1 <= i /\ i + 1 < n /\
    cg_inv T (length SA) (length buckets) i (cg_c0 st) (cg_SA st) (cg_buckets st)
      (cg_m st) (cg_s st)).
  assert (H0 : P (n - 1 - 1) st0).
  { unfold P. split; [lia|]. split; [lia|].
    unfold st0; simpl. split.
    - intros _. f_equal. lia.
    - replace (n - 1 - 1 + 1) with (n - 1) by lia. rewrite (isL_last T n Hlen Hn).
      pose proof (rd_byte T (n - 1) HT).
      destruct (Z.leb_spec (-1) (rd T (n - 1))); [reflexivity|lia].
    - unfold LMS_from. rewrite positions_from_nil by lia. simpl. lia.
    - reflexivity.
    - unfold LMS_from. rewrite positions_from_nil by lia. simpl. lia.
    - apply memset0_length.
    - intros idx Hidx. unfold filed_from. rewrite positions_from_nil by lia.
      simpl. apply rd_memset0_in; unfold ALPHABET_SIZE in *; lia. }
  match goal with |- context [for_down 4 ?body ?a ?b ?s] =>
    destruct (for_down_ind P 4 body a b s ltac:(lia) H0) as (H4 & Hi4 & Hi4');
    [|destruct (for_down 4 body a b s) as [i4 st4]]
  end.
  { intros k st Hk (Hk1 & Hk2 & Hinv). unfold P. split; [lia|]. split; [lia|].
    apply (cg8_read_c0_inv T _ _ (k - 3)); auto; try lia.
    apply (cg8_read_c1_inv T _ _ (k - 2)); auto; try lia.
    apply (cg8_read_c0_inv T _ _ (k - 1)); auto; try lia.
    apply (cg8_read_c1_inv T _ _ (k - 0)); auto; try lia.
    replace (k - 0) with k by lia. exact Hinv. }
  simpl fst in *; simpl snd in *.
  match goal with |- context [for_down 1 ?body ?a ?b ?s] =>
    destruct (for_down_ind P 1 body a b s ltac:(lia) H4) as (H1 & Hi1 & Hi1');
    [|destruct (for_down 1 body a b s) as [i1 st1]]
  end.
  { intros k st Hk (Hk1 & Hk2 & Hinv). unfold P. split; [lia|]. split; [lia|].
    apply (cg8_read_c0_inv T _ _ k); auto; try lia. }
  simpl fst in *; simpl snd in *.
  destruct H4 as (Hi4a & _ & _). destruct H1 as (_ & _ & Hinv).
  assert (i1 = -1) by lia. subst i1.
  change (0 <=? -1) with false. cbv iota.
  do 5 eexists. split.
  - replace (0 + n - 1) with (n - 1) by lia. reflexivity.
  - change (-2) with (-1 - 1). change (-1 + 1) with 0.
    apply cg_step_inv; auto; try lia.
    rewrite isL_neg by lia.
    rewrite (cgi_prev _ _ _ _ _ _ _ _ _ Hinv) by lia.
    rewrite (cgi_s _ _ _ _ _ _ _ _ _ Hinv).
    pose proof (rd_byte T (-1 + 1) HT). change (0 <=? -1) with false. cbv iota.
    destruct (isL T (-1 + 1)); simpl b2z;
      match goal with |- (?a <? ?b) = _ => destruct (Z.ltb_spec a b) end; lia.
Qed.

Lemma nth_map_seq (f : nat -> Z) (k q : nat) (d : Z) :
  (q < k)%nat -> nth q (map f (seq 0 k)) d = f q.
Proof.
  intros H. rewrite (nth_indep _ d (f O)) by (rewrite length_map, length_seq; exact H).
  rewrite map_nth, seq_nth by exact H. reflexivity.
Qed.

Lemma slice_of_rd (A l : list Z) (i : Z) :
  (forall q, (q < length l)%nat -> rd A (i + Z.of_nat q) = nth q l 0) ->
  slice A i (Z.of_nat (length l)) = l.
Proof.
  intros H. unfold slice. rewrite Nat2Z.id.
  apply (nth_ext _ _ 0 0).
  - now rewrite length_map, length_seq.
  - intros q Hq. rewrite length_map, length_seq in Hq.
    rewrite nth_map_seq by exact Hq. apply H, Hq.
Qed.

Lemma count_and_gather_lms_suffixes_8u_omp_eq (T SA buckets : list Z) (n threads : Z) :
  libsais_count_and_gather_lms_suffixes_8u_omp T SA n buckets threads
  = libsais_count_and_gather_lms_suffixes_8u T SA n buckets 0 n.
Proof.
  unfold libsais_count_and_gather_lms_suffixes_8u_omp. simpl.
  now replace (n - 0) with n by lia.
Qed.

(** C5: on a byte text [T] of length [n >= 2], the type scanner returns
    the number [m] of LMS positions of [T], leaves these positions in
    ascending order in [SA[n - m .. n)], and leaves in the table, under
    each pair of a symbol and a two-bit type state, the number of
    positions of [T] with that symbol and state. *)
Theorem count_and_gather_lms_suffixes_8u_correct (T SA buckets : list Z) (n : Z) :
  byte_text T -> Z.of_nat (length T) = n -> 2 <= n ->
  n <= Z.of_nat (length SA) -> 4 * ALPHABET_SIZE <= Z.of_nat (length buckets) ->
  let '(m, SA', buckets') := libsais_count_and_gather_lms_suffixes_8u T SA n buckets 0 n in
  m = Z.of_nat (length (LMS_positions T)) /\
  slice SA' (n - m) m = LMS_positions T /\
  forall c s, 0 <= c < ALPHABET_SIZE -> 0 <= s < 4 ->
    rd buckets' (BUCKETS_INDEX4 c s) = count_symbol_state T c s.
Proof.
  intros HT Hlen Hn HSA HB.
  destruct (count_and_gather_lms_suffixes_8u_inv T SA buckets n HT Hlen ltac:(lia) HSA HB)
    as (SA' & B' & m & s & prev & -> & Hinv).
  destruct Hinv as [_ _ Hm _ HSA' _ HB'].
  change (-2 + 2) with 0 in *. fold (LMS_positions T) in *.
  assert (Hcnt : n - 1 - m = Z.of_nat (length (LMS_positions T))) by lia.
  split; [exact Hcnt|]. split.
  - rewrite Hcnt. apply slice_of_rd. intros q Hq.
    rewrite <- Hcnt. replace (n - (n - 1 - m) + Z.of_nat q) with (m + 1 + Z.of_nat q) by lia.
    apply HSA', Hq.
  - intros c s0 Hc Hs0. unfold count_symbol_state. apply HB'.
    rewrite BUCKETS_INDEX4_eq. lia.
Qed.

Lemma count_and_gather_lms_suffixes_8u_correct_witness :
  byte_text banana /\ Z.of_nat (length banana) = 6 /\ 2 <= 6 /\
  6 <= Z.of_nat (length (repeat 0 6%nat)) /\
  4 * ALPHABET_SIZE <= Z.of_nat (length (repeat 7 1024%nat)) /\
  let '(m, SA', buckets') :=
    libsais_count_and_gather_lms_suffixes_8u banana (repeat 0 6%nat) 6 (repeat 7 1024%nat) 0 6 in
  m = Z.of_nat (length (LMS_positions banana)) /\
  slice SA' (6 - m) m = LMS_positions banana /\
  forall c s, 0 <= c < ALPHABET_SIZE -> 0 <= s < 4 ->
    rd buckets' (BUCKETS_INDEX4 c s) = count_symbol_state banana c s.
Proof.
  assert (H1 : byte_text banana) by (repeat constructor; vm_compute; discriminate).
  assert (H2 : Z.of_nat (length banana) = 6) by reflexivity.
  assert (H3 : 6 <= Z.of_nat (length (repeat 0 6%nat))) by (vm_compute; discriminate).
  assert (H4 : 4 * ALPHABET_SIZE <= Z.of_nat (length (repeat 7 1024%nat)))
    by (vm_compute; discriminate).
  split; [exact H1|]. split; [exact H2|]. split; [lia|]. split; [exact H3|].
  split; [exact H4|].
  apply (count_and_gather_lms_suffixes_8u_correct banana (repeat 0 6%nat) (repeat 7 1024%nat) 6
           H1 H2 ltac:(lia) H3 H4).
Defined.


(** ** Arithmetic of the sign bit *)

Lemma land_INT_MAX (x : Z) : Z.land x INT_MAX = x mod 2 ^ 31.
Proof. change INT_MAX with (Z.ones 31). apply Z.land_ones. lia. Qed.

Lemma land_INT_MIN_nonneg (q : Z) : 0 <= q <= INT_MAX -> Z.land q INT_MIN = 0.
Proof.
  intros H. change INT_MIN with (Z.lnot (Z.ones 31)).
  rewrite <- Z.ldiff_land, Z.ldiff_ones_r, Z.shiftr_div_pow2 by lia.
  unfold INT_MAX in H. rewrite Z.div_small by lia. apply Z.shiftl_0_l.
Qed.

Lemma lor_INT_MIN (q : Z) : 0 <= q <= INT_MAX -> Z.lor q INT_MIN = q + INT_MIN.
Proof.
  intros H. pose proof (land_INT_MIN_nonneg q H) as H0.
  rewrite <- Z.lxor_lor by exact H0. symmetry. apply Z.add_nocarry_lxor, H0.
Qed.

Lemma lxor_INT_MIN_nonneg (q : Z) : 0 <= q <= INT_MAX -> Z.lxor q INT_MIN = q + INT_MIN.
Proof.
  intros H. symmetry. apply Z.add_nocarry_lxor, land_INT_MIN_nonneg, H.
Qed.



(** ** The range of the cells *)

Lemma In_positions_from (a n j : Z) : 0 <= a -> In j (positions_from a n) <-> a <= j < n.
Proof.
  intros Ha. unfold positions_from. rewrite in_map_iff. split.
  - intros (k & <- & Hk). apply in_seq in Hk. lia.
  - intros H. exists (Z.to_nat j). split; [lia|]. apply in_seq. lia.
Qed.
















(** ** The drivers pass through their intermediate states *)

Section Intermediate.
Variable malloc_ok : nat -> bool.
Variable malloc_junk : nat -> Z -> Z.
Variable SA_addr : Z.



End Intermediate.







(** * The integer path *)

(** ** The size of the reduced problem *)

Lemma lms_count_inv_step (n i c s cur prev : Z) :
  lms_count_inv n i c s ->
  let s' := type_step s cur prev in
  lms_count_inv n (i - 1) (c + b2z (Z.land s' 3 =? 1)) s'.
Proof.
  intros [Hc H] s'. unfold lms_count_inv, s'.
  rewrite type_step_land_3, type_step_land_1.
  destruct (prev - Z.land s 1 <? cur); destruct H as [[-> H]|[-> H]];
    match goal with |- context [b2z (?a =? 1)] =>
      let v := eval vm_compute in (b2z (a =? 1)) in change (b2z (a =? 1)) with v
    end;
    unfold b2z; (split; [lia|]);
    solve [left; split; [reflexivity|lia] | right; split; [reflexivity|lia]].
Qed.

Section CountLoops.
Context {St : Type}.
Variables (cnt sb : St -> Z).

Lemma lms_loops_bound (body4 body1 : Z -> St -> St) (lo4 n : Z) (x0 : St) :
  3 <= lo4 ->
  (forall i x, lms_count_inv n i (cnt x) (sb x) ->
               lms_count_inv n (i - 4) (cnt (body4 i x)) (sb (body4 i x))) ->
  (forall i x, lms_count_inv n i (cnt x) (sb x) ->
               lms_count_inv n (i - 1) (cnt (body1 i x)) (sb (body1 i x))) ->
  sb x0 = 1 -> cnt x0 = 0 ->
  let r4 := for_down 4 body4 (n - 2) lo4 x0 in
  let r1 := for_down 1 body1 (fst r4) 0 (snd r4) in
  0 <= cnt (snd r1) /\ (0 < cnt (snd r1) -> 2 * cnt (snd r1) + 1 <= n).
Proof.
  intros Hlo H4 H1 Hs Hc r4 r1.
  pose (P := fun i x => lms_count_inv n i (cnt x) (sb x)).
  assert (H0 : P (n - 2) x0).
  { unfold P, lms_count_inv. rewrite Hs, Hc. split; [lia|]. left. split; [reflexivity|lia]. }
  destruct (for_down_ind P 4 body4 (n - 2) lo4 x0 ltac:(lia) H0) as (Hr4 & Hi4 & Hi4').
  { intros k x _ Hk. apply H4, Hk. }
  fold r4 in Hr4, Hi4, Hi4'.
  destruct (for_down_ind P 1 body1 (fst r4) 0 (snd r4) ltac:(lia) Hr4) as (Hr1 & Hi1 & Hi1').
  { intros k x _ Hk. apply H1, Hk. }
  fold r1 in Hr1, Hi1, Hi1'.
  unfold P, lms_count_inv in Hr1. lia.
Qed.
End CountLoops.

Lemma sc_read_s (T : ptr) (r : bool) (i : Z) (x : sc32) :
  sc_s (sc_read T r i x) = type_step (sc_s x) (ld (sc_mem x) T i) (sc_prev r x)
  /\ sc_m (sc_read T r i x) = sc_m x.
Proof. unfold sc_read. destruct r; simpl; auto. Qed.

(** A statement group that reads a symbol and gathers a position, followed
    by updates [g] that leave [m] and [s] alone, keeps the count. *)
Lemma sc_gather_count (g : sc32 -> sc32) (T SA : ptr) (r : bool) (n i pos : Z) (x : sc32) :
  (forall y, sc_m (g y) = sc_m y /\ sc_s (g y) = sc_s y) ->
  lms_count_inv n i (n - 1 - sc_m x) (sc_s x) ->
  let x' := g (sc_gather SA pos (sc_read T r i x)) in
  lms_count_inv n (i - 1) (n - 1 - sc_m x') (sc_s x').
Proof.
  intros Hg H x'. unfold x'. destruct (Hg (sc_gather SA pos (sc_read T r i x))) as [-> ->].
  unfold sc_gather; simpl sc_m; simpl sc_s.
  destruct (sc_read_s T r i x) as [-> ->].
  replace (n - 1 - (sc_m x - b2z (Z.land (type_step (sc_s x) (ld (sc_mem x) T i) (sc_prev r x)) 3 =? 1)))
    with (n - 1 - sc_m x + b2z (Z.land (type_step (sc_s x) (ld (sc_mem x) T i) (sc_prev r x)) 3 =? 1))
    by lia.
  apply lms_count_inv_step, H.
Qed.

Lemma sc_scan_gather_bound (g : bool -> sc32 -> sc32) (T SA : ptr) (lo4 n : Z) (x0 : sc32) :
  3 <= lo4 ->
  (forall r y, sc_m (g r y) = sc_m y /\ sc_s (g r y) = sc_s y) ->
  sc_s x0 = 1 -> sc_m x0 = n - 1 ->
  let x := sc_scan (fun r i pos x => g r (sc_gather SA pos (sc_read T r i x))) lo4 (n - 2) x0 in
  0 <= n - 1 - sc_m x /\ (0 < n - 1 - sc_m x -> 2 * (n - 1 - sc_m x) + 1 <= n).
Proof.
  intros Hlo Hg Hs Hm. unfold sc_scan.
  match goal with |- context [for_down 4 ?b4 ?a ?b ?s] =>
    match goal with |- context [for_down 1 ?b1 _ _ _] =>
      pose proof (lms_loops_bound (fun x => n - 1 - sc_m x) sc_s b4 b1 lo4 n x0 Hlo) as H
    end
  end.
  cbv beta zeta in H.
  match type of H with ?A -> ?B -> _ => assert (H4 : A); [|assert (H1 : B)] end.
  - intros i x Hx.
    replace (i - 4) with (i - 3 - 1) by lia. apply sc_gather_count; [apply Hg|].
    replace (i - 3) with (i - 2 - 1) by lia. apply sc_gather_count; [apply Hg|].
    replace (i - 2) with (i - 1 - 1) by lia. apply sc_gather_count; [apply Hg|].
    replace (i - 1) with (i - 0 - 1) by lia. apply sc_gather_count; [apply Hg|].
    replace (i - 0) with i by lia. exact Hx.
  - intros i x Hx. apply sc_gather_count; [apply Hg|]. exact Hx.
  - specialize (H H4 H1 Hs ltac:(lia)).
    destruct (for_down 4 _ (n - 2) lo4 x0) as [i4 x4]. exact H.
Qed.

Lemma count_and_gather_lms_suffixes_32s_4k_bound (M : mem) (T SA : ptr) (n k : Z)
    (buckets : ptr) :
  let m := fst (libsais_count_and_gather_lms_suffixes_32s_4k M T SA n k buckets) in
  0 <= m /\ (0 < m -> 2 * m + 1 <= n).
Proof.
  unfold libsais_count_and_gather_lms_suffixes_32s_4k. simpl fst.
  apply (sc_scan_gather_bound (fun r => sc_count4 buckets r)); try reflexivity; try lia.
  intros r y. split; reflexivity.
Qed.

Lemma count_and_gather_lms_suffixes_32s_2k_bound (M : mem) (T SA : ptr) (n k : Z)
    (buckets : ptr) :
  let m := fst (libsais_count_and_gather_lms_suffixes_32s_2k M T SA n k buckets) in
  0 <= m /\ (0 < m -> 2 * m + 1 <= n).
Proof.
  unfold libsais_count_and_gather_lms_suffixes_32s_2k. simpl fst.
  apply (sc_scan_gather_bound (fun r => sc_count2 buckets r)); try reflexivity; try lia.
  intros r y. split; reflexivity.
Qed.

Lemma radix1k_sub_count (T SA buckets : ptr) (r : bool) (n i pos : Z) (y : sc32 * Z) :
  lms_count_inv n i (sc_m (fst y)) (sc_s (fst y)) ->
  let y' := radix1k_sub T SA buckets r i pos y in
  lms_count_inv n (i - 1) (sc_m (fst y')) (sc_s (fst y')).
Proof.
  destruct y as [x c2]. simpl fst. intros H. unfold radix1k_sub.
  pose proof (lms_count_inv_step n i (sc_m x) (sc_s x) (ld (sc_mem x) T i) (sc_prev r x) H) as H'.
  cbv zeta in H'. destruct (sc_read_s T r i x) as [Hs Hm]. rewrite <- Hs in H'.
  destruct (Z.land (sc_s (sc_read T r i x)) 3 =? 1); simpl in *; rewrite ?Hm.
  - exact H'.
  - now rewrite Z.add_0_r in H'.
Qed.

Lemma radix_sort_lms_suffixes_32s_1k_bound (M : mem) (T SA : ptr) (n : Z) (buckets : ptr) :
  let m := fst (libsais_radix_sort_lms_suffixes_32s_1k M T SA n buckets) in
  0 <= m /\ (0 < m -> 2 * m + 1 <= n).
Proof.
  unfold libsais_radix_sort_lms_suffixes_32s_1k.
  match goal with |- context [for_down 4 ?b4 ?a ?b ?s] =>
    match goal with |- context [for_down 1 ?b1 _ _ _] =>
      pose proof (lms_loops_bound (fun y : sc32 * Z => sc_m (fst y)) (fun y => sc_s (fst y))
                    b4 b1 (32 + 3) n s ltac:(lia)) as H
    end
  end.
  cbv beta zeta in H.
  match type of H with ?A -> ?B -> _ => assert (H4 : A); [|assert (H1 : B)] end.
  - intros i x Hx.
    replace (i - 4) with (i - 3 - 1) by lia. apply radix1k_sub_count.
    replace (i - 3) with (i - 2 - 1) by lia. apply radix1k_sub_count.
    replace (i - 2) with (i - 1 - 1) by lia. apply radix1k_sub_count.
    replace (i - 1) with (i - 0 - 1) by lia. apply radix1k_sub_count.
    replace (i - 0) with i by lia. exact Hx.
  - intros i [x c2] Hx. apply radix1k_sub_count. exact Hx.
  - specialize (H H4 H1 eq_refl eq_refl).
    destruct (for_down 4 _ (n - 2) (32 + 3) _) as [i4 y4]. simpl fst in H; simpl snd in H.
    destruct (for_down 1 _ i4 0 y4) as [i1 [x1 c1]]. simpl fst in H; simpl snd in H.
    destruct (1 <? sc_m x1); simpl fst; exact H.
Qed.

(** ** Compaction: the number of unique LMS suffixes *)



(** ** The recursion of [libsais_main_32s] *)



Ltac walk :=
  repeat match goal with
  | |- context [match ?e with _ => _ end] => destruct e eqn:?
  end.

Section Body.
Variable malloc_ok : nat -> bool.
Variable malloc_junk : nat -> Z -> Z.
Variable SA_addr : Z.



End Body.





(** * Constant texts *)

(** ** What the type scanner files under a symbol *)

Lemma filed_symbol_count (T : list Z) (ts : Z -> Z) (j : Z) (l : list Z) :
  (forall p, 0 <= ts p < 4) ->
  Z.of_nat (length (filter (fun p => BUCKETS_INDEX4 (rd T p) (ts p) =? BUCKETS_INDEX4 j 0) l))
  + Z.of_nat (length (filter (fun p => BUCKETS_INDEX4 (rd T p) (ts p) =? BUCKETS_INDEX4 j 1) l))
  + Z.of_nat (length (filter (fun p => BUCKETS_INDEX4 (rd T p) (ts p) =? BUCKETS_INDEX4 j 2) l))
  + Z.of_nat (length (filter (fun p => BUCKETS_INDEX4 (rd T p) (ts p) =? BUCKETS_INDEX4 j 3) l))
  = Z.of_nat (length (filter (fun p => rd T p =? j) l)).
Proof.
  intros Hts. induction l as [|p l IH]; [reflexivity|].
  cbn [filter]. rewrite !BUCKETS_INDEX4_eq in *. specialize (Hts p).
  destruct (Z.eqb_spec (rd T p) j) as [->|Hne].
  - assert (Hc : ts p = 0 \/ ts p = 1 \/ ts p = 2 \/ ts p = 3) by lia.
    destruct Hc as [-> | [-> | [-> | ->]]];
      repeat match goal with
      | |- context [?a =? ?b] =>
          destruct (Z.eqb_spec a b); try lia
      end;
      cbn [length]; lia.
  - repeat match goal with
      | |- context [4 * rd T p + ts p =? ?b] =>
          destruct (Z.eqb_spec (4 * rd T p + ts p) b); try lia
      end.
Qed.

Lemma filed_from_sum (T : list Z) (a j : Z) :
  Z.of_nat (length (filed_from T a (BUCKETS_INDEX4 j 0)))
  + Z.of_nat (length (filed_from T a (BUCKETS_INDEX4 j 1)))
  + Z.of_nat (length (filed_from T a (BUCKETS_INDEX4 j 2)))
  + Z.of_nat (length (filed_from T a (BUCKETS_INDEX4 j 3)))
  = occurrences_from T a j.
Proof.
  unfold filed_from, occurrences_from. apply filed_symbol_count. apply type_state_range.
Qed.

(** ** Types and counts of a constant text *)

Lemma constant_text_length (c n : Z) : 0 <= n -> Z.of_nat (length (constant_text c n)) = n.
Proof. intros H. unfold constant_text. rewrite repeat_length. lia. Qed.

Lemma rd_constant_text (c n i : Z) : 0 <= i < n -> rd (constant_text c n) i = c.
Proof.
  intros H. unfold rd, constant_text. destruct (Z.ltb_spec i 0); [lia|].
  apply nth_repeat_lt. lia.
Qed.

Lemma constant_text_bytes (c n : Z) : 0 <= c < ALPHABET_SIZE -> byte_text (constant_text c n).
Proof.
  intros H. unfold byte_text, constant_text. apply Forall_forall.
  intros x Hx. apply repeat_spec in Hx. now subst.
Qed.

Lemma constant_text_isL (c n : Z) (k : nat) :
  (Z.of_nat k < n) -> isL (constant_text c n) (n - 1 - Z.of_nat k) = true.
Proof.
  induction k as [|k IH]; intros H.
  - replace (n - 1 - Z.of_nat 0) with (n - 1) by lia.
    apply isL_last; [apply constant_text_length|]; lia.
  - rewrite isL_step by (rewrite ?constant_text_length; lia).
    replace (n - 1 - Z.of_nat (S k) + 1) with (n - 1 - Z.of_nat k) by lia.
    rewrite IH by lia. rewrite !rd_constant_text by lia.
    rewrite Z.eqb_refl. apply orb_true_r.
Qed.

Lemma constant_text_isL_all (c n i : Z) : 0 <= i < n -> isL (constant_text c n) i = true.
Proof.
  intros H. replace i with (n - 1 - Z.of_nat (Z.to_nat (n - 1 - i))) by lia.
  apply constant_text_isL. lia.
Qed.

Lemma filter_none {A : Type} (f : A -> bool) (l : list A) :
  (forall x, In x l -> f x = false) -> filter f l = [].
Proof.
  induction l as [|x l IH]; intros H; [reflexivity|]. simpl.
  rewrite (H x (or_introl eq_refl)). apply IH. intros y Hy. apply H. now right.
Qed.

Lemma filter_all {A : Type} (f : A -> bool) (l : list A) :
  (forall x, In x l -> f x = true) -> filter f l = l.
Proof.
  induction l as [|x l IH]; intros H; [reflexivity|]. simpl.
  rewrite (H x (or_introl eq_refl)). f_equal. apply IH. intros y Hy. apply H. now right.
Qed.

Lemma constant_text_no_LMS (c n : Z) : 0 <= n -> LMS_positions (constant_text c n) = [].
Proof.
  intros Hn. unfold LMS_positions, LMS_from. apply filter_none.
  intros p Hp. rewrite constant_text_length in Hp by lia.
  apply In_positions_from in Hp; [|lia].
  unfold is_LMS. rewrite constant_text_isL_all by lia. reflexivity.
Qed.

Lemma constant_text_occurrences (c n j : Z) :
  0 <= n -> occurrences_from (constant_text c n) 0 j = if j =? c then n else 0.
Proof.
  intros Hn. unfold occurrences_from. rewrite constant_text_length by lia.
  destruct (Z.eqb_spec j c) as [->|Hne].
  - rewrite filter_all.
    + rewrite positions_from_length; lia.
    + intros p Hp. apply In_positions_from in Hp; [|lia].
      rewrite rd_constant_text by lia. apply Z.eqb_refl.
  - rewrite filter_none; [reflexivity|].
    intros p Hp. apply In_positions_from in Hp; [|lia].
    rewrite rd_constant_text by lia. apply Z.eqb_neq. congruence.
Qed.

(** ** Bucket borders *)

Lemma initialize_buckets_start_and_end_8u_spec (B : list Z) (tot : Z -> Z) :
  8 * ALPHABET_SIZE <= Z.of_nat (length B) ->
  (forall j, 0 <= j < ALPHABET_SIZE ->
     rd B (BUCKETS_INDEX4 j 0) + rd B (BUCKETS_INDEX4 j 1)
     + rd B (BUCKETS_INDEX4 j 2) + rd B (BUCKETS_INDEX4 j 3) = tot j) ->
  let B' := libsais_initialize_buckets_start_and_end_8u B in
  length B' = length B /\
  (forall idx, 0 <= idx < 6 * ALPHABET_SIZE -> rd B' idx = rd B idx) /\
  (forall j, 0 <= j < ALPHABET_SIZE ->
     rd B' (6 * ALPHABET_SIZE + j) = prefix_sum tot (Z.to_nat j) /\
     rd B' (7 * ALPHABET_SIZE + j) = prefix_sum tot (Z.to_nat (j + 1))).
Proof.
  intros HB Htot. unfold libsais_initialize_buckets_start_and_end_8u.
  unfold ALPHABET_SIZE in *. cbv zeta.
  pose (P := fun (i : Z) (st : list Z * Z * Z) =>
    let '(Bc, j, sum) := st in
    i = 4 * j /\ 0 <= j <= 256 /\ sum = prefix_sum tot (Z.to_nat j) /\
    length Bc = length B /\
    (forall idx, 0 <= idx < 6 * 256 -> rd Bc idx = rd B idx) /\
    (forall j', 0 <= j' < j ->
       rd Bc (6 * 256 + j') = prefix_sum tot (Z.to_nat j') /\
       rd Bc (7 * 256 + j') = prefix_sum tot (Z.to_nat (j' + 1)))).
  match goal with |- context [for_up ?st ?body ?a ?b ?s] =>
    destruct (for_up_ind P st body a b s ltac:(vm_compute; reflexivity)) as (H & Hi & Hi');
    [| |destruct (for_up st body a b s) as [i [[Bc j] sum]]]
  end.
  - unfold P. repeat split; try lia; try reflexivity.
  - intros k [[Bc j] sum] Hk (Hkj & Hj & Hsum & Hlen & Hlow & Hdone).
    change (BUCKETS_INDEX4 UCHAR_MAX 0 + 1) with 1021 in Hk.
    change (BUCKETS_INDEX4 0 0) with 0 in *. change (BUCKETS_INDEX4 1 0) with 4 in *.
    change (BUCKETS_INDEX4 0 1) with 1. change (BUCKETS_INDEX4 0 2) with 2.
    change (BUCKETS_INDEX4 0 3) with 3.
    unfold P. cbv zeta.
    assert (Hj' : 0 <= j < 256) by lia.
    assert (Hrd : forall s, 0 <= s < 4 ->
              rd (wr Bc (6 * 256 + j) sum) (k + s) = rd B (BUCKETS_INDEX4 j s)).
    { intros s Hs. rewrite rd_wr_other by lia. rewrite Hlow by lia.
      f_equal. rewrite BUCKETS_INDEX4_eq. lia. }
    rewrite !Hrd by lia. rewrite (Htot j Hj').
    repeat split; try lia.
    + rewrite Hsum. replace (Z.to_nat (j + 1)) with (S (Z.to_nat j)) by lia.
      simpl. rewrite Z2Nat.id by lia. reflexivity.
    + now rewrite !wr_length.
    + intros idx Hidx. rewrite !rd_wr_other by lia. apply Hlow, Hidx.
    + destruct (Z.eq_dec j' j) as [->|Hne].
      * rewrite rd_wr_other by lia. rewrite rd_wr_same by lia. exact Hsum.
      * rewrite !rd_wr_other by lia. apply Hdone. lia.
    + destruct (Z.eq_dec j' j) as [->|Hne].
      * rewrite rd_wr_same by (rewrite wr_length; lia).
        rewrite Hsum. replace (Z.to_nat (j + 1)) with (S (Z.to_nat j)) by lia.
        simpl. rewrite Z2Nat.id by lia. reflexivity.
      * rewrite !rd_wr_other by lia. apply Hdone. lia.
  - simpl fst in *; simpl snd in *.
    change (BUCKETS_INDEX4 UCHAR_MAX 0 + 1) with 1021 in *.
    change (BUCKETS_INDEX4 0 0) with 0 in *. change (BUCKETS_INDEX4 1 0) with 4 in *.
    destruct H as (Hkj & Hj & Hsum & Hlen & Hlow & Hdone).
    assert (j = 256) by lia. subst j.
    repeat split; auto; apply Hdone; lia.
Qed.

Lemma constant_text_prefix_sum (c n : Z) (k : nat) :
  0 <= c ->
  prefix_sum (fun j => if j =? c then n else 0) k = if Z.of_nat k <=? c then 0 else n.
Proof.
  intros Hc. induction k as [|k IH].
  - simpl. destruct (Z.leb_spec 0 c); [reflexivity|lia].
  - cbn [prefix_sum]. rewrite IH.
    destruct (Z.leb_spec (Z.of_nat k) c), (Z.leb_spec (Z.of_nat (S k)) c),
      (Z.eqb_spec (Z.of_nat k) c); lia.
Qed.

(** ** Scans unrolled twice *)

Section Scans.
Context {St : Type}.
Variable P : Z -> St -> Prop.
Variable step : Z -> St -> St.

Lemma scan_up_2_1 (n j1 j2 : Z) (s : St) :
  0 <= n -> j1 <= n - 1 -> j2 = n ->
  (forall k s, 0 <= k < n -> P k s -> P (k + 1) (step k s)) ->
  P 0 s ->
  let r2 := for_up 2 (fun i st => step (i + 1) (step (i + 0) st)) 0 j1 s in
  P n (snd (for_up 1 step (fst r2) j2 (snd r2))).
Proof.
  intros Hn Hj1 -> Hstep H0 r2.
  destruct (for_up_ind P 2 (fun i st => step (i + 1) (step (i + 0) st)) 0 j1 s
              ltac:(lia) H0) as (H2 & Hi2 & Hi2').
  { intros k st Hk Hst. replace (k + 2) with (k + 1 + 1) by lia.
    apply Hstep; [lia|]. replace (k + 0) with k by lia. apply Hstep; [lia|exact Hst]. }
  fold r2 in H2, Hi2, Hi2'.
  assert (Hr2 : 0 <= fst r2 <= n).
  { destruct Hi2' as [E|E]; [rewrite E; lia|].
    split; [|lia].
    destruct (for_up_ind (fun i _ => 0 <= i) 2 (fun i st => step (i + 1) (step (i + 0) st))
                0 j1 s ltac:(lia) (Z.le_refl 0)) as (H & _); [intros; lia|exact H]. }
  destruct (for_up_ind P 1 step (fst r2) n (snd r2) ltac:(lia) H2) as (H1 & Hi1 & Hi1').
  { intros k st Hk Hst. apply Hstep; [lia|exact Hst]. }
  replace n with (fst (for_up 1 step (fst r2) n (snd r2))) at 1 by lia. exact H1.
Qed.

Lemma scan_down_2_1 (n j1 j2 : Z) (s : St) :
  0 <= n -> 1 <= j1 -> j2 = 0 ->
  (forall k s, 0 <= k < n -> P k s -> P (k - 1) (step k s)) ->
  P (n - 1) s ->
  let r2 := for_down 2 (fun i st => step (i - 1) (step (i - 0) st)) (n - 1) j1 s in
  P (-1) (snd (for_down 1 step (fst r2) j2 (snd r2))).
Proof.
  intros Hn Hj1 -> Hstep H0 r2.
  destruct (for_down_ind P 2 (fun i st => step (i - 1) (step (i - 0) st)) (n - 1) j1 s
              ltac:(lia) H0) as (H2 & Hi2 & Hi2').
  { intros k st Hk Hst. replace (k - 2) with (k - 1 - 1) by lia.
    apply Hstep; [lia|]. replace (k - 0) with k by lia. apply Hstep; [lia|exact Hst]. }
  fold r2 in H2, Hi2, Hi2'.
  assert (Hr2 : -1 <= fst r2 <= n - 1).
  { split; [destruct Hi2' as [E|E]; [rewrite E|]; lia|].
    destruct (for_down_ind (fun i _ => i <= n - 1) 2
                (fun i st => step (i - 1) (step (i - 0) st))
                (n - 1) j1 s ltac:(lia) (Z.le_refl (n - 1))) as (H & _); [intros; lia|exact H]. }
  destruct (for_down_ind P 1 step (fst r2) 0 (snd r2) ltac:(lia) H2) as (H1 & Hi1 & Hi1').
  { intros k st Hk Hst. apply Hstep; [lia|exact Hst]. }
  replace (-1) with (fst (for_down 1 step (fst r2) 0 (snd r2))) at 1 by lia. exact H1.
Qed.
End Scans.

(** ** The final scans of a constant text *)

Lemma land_INT_MAX_marked (q : Z) : 0 <= q <= INT_MAX -> Z.land (q + INT_MIN) INT_MAX = q.
Proof.
  intros H. rewrite land_INT_MAX. unfold INT_MIN, INT_MAX in *.
  replace (q + - 2 ^ 31) with (q + (-1) * 2 ^ 31) by lia.
  rewrite Z.mod_add by lia. apply Z.mod_small. lia.
Qed.

Section ConstantScans.
Variables (c n : Z).
Hypothesis Hn : 2 <= n <= INT_MAX.
Hypothesis Hc : 0 <= c < ALPHABET_SIZE.

Let T := constant_text c n.

Lemma rd_T (i : Z) : 0 <= i < n -> rd T i = c.
Proof. apply rd_constant_text. Qed.

Lemma induced_cell (q : Z) :
  0 <= q < n - 1 ->
  Z.lor q (sign_if (rd T (q - b2z (0 <? q)) <? rd T q)) = q.
Proof.
  intros H. rewrite !rd_T.
  - rewrite Z.ltb_irrefl. simpl. apply Z.lor_0_r.
  - lia.
  - destruct (Z.ltb_spec 0 q); simpl; lia.
Qed.

Lemma final_sorting_l2r_8u_step_constant (B0 : list Z) (lenSA : nat) (ib k : Z)
    (st : list Z * list Z) :
  n <= Z.of_nat lenSA -> 0 <= ib -> ib + ALPHABET_SIZE <= Z.of_nat (length B0) ->
  0 <= k < n ->
  constant_l2r_inv c n (sorted_mark n) B0 lenSA ib k st ->
  constant_l2r_inv c n (sorted_mark n) B0 lenSA ib (k + 1) (final_sorting_l2r_8u_step T ib k st).
Proof.
  intros HlSA Hib HlB Hk. destruct st as [SA B]. unfold constant_l2r_inv. simpl fst; simpl snd.
  intros (H1 & H2 & H3 & H4 & H5 & H6 & H7).
  unfold final_sorting_l2r_8u_step. rewrite H4 by lia.
  destruct (Z.ltb_spec 0 (n - 1 - k)) as [Hp|Hp]; simpl fst; simpl snd.
  - rewrite induced_cell by lia. rewrite !rd_T by lia. rewrite H6.
    rewrite Z.min_l by lia.
    repeat split.
    + now rewrite !wr_length.
    + now rewrite incr_length.
    + intros j Hj. rewrite rd_wr_other by lia.
      destruct (Z.eq_dec j k) as [->|Hne].
      * rewrite rd_wr_same by lia. reflexivity.
      * rewrite rd_wr_other by lia. apply H3. lia.
    + intros _. rewrite rd_wr_same by (rewrite wr_length; lia). lia.
    + intros j Hj. rewrite !rd_wr_other by lia. apply H5. lia.
    + rewrite rd_incr_same by (unfold ALPHABET_SIZE in *; lia). rewrite H6. lia.
    + intros idx Hidx. rewrite rd_incr_other by congruence. apply H7, Hidx.
  - assert (k = n - 1) by lia. subst k.
    repeat split; auto.
    + now rewrite wr_length.
    + intros j Hj. destruct (Z.eq_dec j (n - 1)) as [->|Hne].
      * rewrite rd_wr_same by lia. reflexivity.
      * rewrite rd_wr_other by lia. apply H3. lia.
    + intros; lia.
    + intros j Hj. lia.
    + rewrite H6. lia.
Qed.

Lemma final_bwt_l2r_8u_step_constant (B0 : list Z) (lenSA : nat) (ib k : Z)
    (st : list Z * list Z) :
  n <= Z.of_nat lenSA -> 0 <= ib -> ib + ALPHABET_SIZE <= Z.of_nat (length B0) ->
  0 <= k < n ->
  constant_l2r_inv c n (bwt_mark c n) B0 lenSA ib k st ->
  constant_l2r_inv c n (bwt_mark c n) B0 lenSA ib (k + 1) (final_bwt_l2r_8u_step T ib k st).
Proof.
  intros HlSA Hib HlB Hk. destruct st as [SA B]. unfold constant_l2r_inv. simpl fst; simpl snd.
  intros (H1 & H2 & H3 & H4 & H5 & H6 & H7).
  unfold final_bwt_l2r_8u_step. rewrite H4 by lia.
  destruct (Z.ltb_spec 0 (n - 1 - k)) as [Hp|Hp]; simpl fst; simpl snd.
  - rewrite induced_cell by lia. rewrite !rd_T by lia. rewrite H6.
    rewrite Z.min_l by lia.
    repeat split.
    + now rewrite !wr_length.
    + now rewrite incr_length.
    + intros j Hj. rewrite rd_wr_other by lia.
      destruct (Z.eq_dec j k) as [->|Hne].
      * rewrite rd_wr_same by (rewrite wr_length; lia). unfold bwt_mark.
        destruct (Z.ltb_spec k (n - 1)); [reflexivity|lia].
      * rewrite !rd_wr_other by lia. apply H3. lia.
    + intros _. rewrite rd_wr_same by (rewrite !wr_length; lia). lia.
    + intros j Hj. rewrite !rd_wr_other by lia. apply H5. lia.
    + rewrite rd_incr_same by (unfold ALPHABET_SIZE in *; lia). rewrite H6. lia.
    + intros idx Hidx. rewrite rd_incr_other by congruence. apply H7, Hidx.
  - assert (k = n - 1) by lia. subst k.
    replace (n - 1 - (n - 1)) with 0 by lia. rewrite Z.land_0_l.
    repeat split; auto.
    + now rewrite wr_length.
    + intros j Hj. destruct (Z.eq_dec j (n - 1)) as [->|Hne].
      * rewrite rd_wr_same by lia. unfold bwt_mark.
        destruct (Z.ltb_spec (n - 1) (n - 1)); [lia|reflexivity].
      * rewrite rd_wr_other by lia. apply H3. lia.
    + intros; lia.
    + intros j Hj. lia.
    + rewrite H6. lia.
Qed.

Lemma final_sorting_r2l_8u_step_constant (B : list Z) (lenSA : nat) (ib k : Z) (SA : list Z) :
  n <= Z.of_nat lenSA -> 0 <= k < n ->
  constant_r2l_inv n (sorted_mark n) (fun j => n - 1 - j) lenSA k SA ->
  snd (final_sorting_r2l_8u_step T ib k (SA, B)) = B /\
  constant_r2l_inv n (sorted_mark n) (fun j => n - 1 - j) lenSA (k - 1)
    (fst (final_sorting_r2l_8u_step T ib k (SA, B))).
Proof.
  intros HlSA Hk (H1 & H2 & H3). unfold final_sorting_r2l_8u_step.
  assert (Hp0 : rd SA k = n - 1 - k + INT_MIN)
    by (rewrite H2 by lia; unfold sorted_mark; apply lxor_INT_MIN_nonneg; lia).
  rewrite Hp0.
  destruct (Z.ltb_spec 0 (n - 1 - k + INT_MIN)) as [Hp|Hp];
    [unfold INT_MIN, INT_MAX in *; lia|].
  simpl fst; simpl snd. split; [reflexivity|].
  rewrite land_INT_MAX_marked by lia.
  repeat split.
  - now rewrite wr_length.
  - intros j Hj. rewrite rd_wr_other by lia. apply H2. lia.
  - intros j Hj. destruct (Z.eq_dec j k) as [->|Hne].
    + rewrite rd_wr_same by lia. reflexivity.
    + rewrite rd_wr_other by lia. apply H3. lia.
Qed.

Lemma final_bwt_r2l_8u_step_constant (B : list Z) (lenSA : nat) (ib k index : Z)
    (SA : list Z) :
  n <= Z.of_nat lenSA -> 0 <= k < n ->
  constant_r2l_inv n (bwt_mark c n) (bwt_cell c n) lenSA k SA ->
  index = (if k <? n - 1 then n - 1 else -1) ->
  exists SA',
    final_bwt_r2l_8u_step T ib k (SA, B, index) = (SA', B, n - 1) /\
    constant_r2l_inv n (bwt_mark c n) (bwt_cell c n) lenSA (k - 1) SA'.
Proof.
  intros HlSA Hk (H1 & H2 & H3) Hindex. unfold final_bwt_r2l_8u_step.
  assert (Hp0 : rd SA k = if k <? n - 1 then c + INT_MIN else 0).
  { rewrite H2 by lia. unfold bwt_mark. destruct (k <? n - 1); [|reflexivity].
    apply lor_INT_MIN. unfold ALPHABET_SIZE, INT_MAX in *; lia. }
  rewrite Hp0.
  destruct (Z.ltb_spec k (n - 1)) as [Hlt|Hge].
  - assert (Hneg : c + INT_MIN < 0) by (unfold ALPHABET_SIZE, INT_MIN in *; lia).
    destruct (Z.eqb_spec (c + INT_MIN) 0) as [|_]; [lia|].
    destruct (Z.ltb_spec 0 (c + INT_MIN)) as [|_]; [lia|].
    rewrite land_INT_MAX_marked by (unfold ALPHABET_SIZE, INT_MAX in *; lia).
    eexists. split; [subst index; reflexivity|].
    repeat split.
    + now rewrite wr_length.
    + intros j Hj. rewrite rd_wr_other by lia. apply H2. lia.
    + intros j Hj. destruct (Z.eq_dec j k) as [->|Hne].
      * rewrite rd_wr_same by lia. unfold bwt_cell.
        destruct (Z.ltb_spec k (n - 1)); [reflexivity|lia].
      * rewrite rd_wr_other by lia. apply H3. lia.
  - assert (k = n - 1) by lia. subst k. simpl.
    eexists. split; [reflexivity|].
    repeat split.
    + now rewrite wr_length.
    + intros j Hj. rewrite rd_wr_other by lia. apply H2. lia.
    + intros j Hj. assert (j = n - 1) by lia. subst j.
      rewrite rd_wr_same by lia. unfold bwt_cell.
      destruct (Z.ltb_spec (n - 1) (n - 1)); [lia|reflexivity].
Qed.

End ConstantScans.

Section ConstantFinal.
Variables (c n : Z).
Hypothesis Hn : 2 <= n <= INT_MAX.
Hypothesis Hc : 0 <= c < ALPHABET_SIZE.
Variables (SA B : list Z).
Hypothesis HlSA : n <= Z.of_nat (length SA).
Hypothesis HSA : forall j, 0 <= j < n -> rd SA j = 0.
Hypothesis HlB : 8 * ALPHABET_SIZE <= Z.of_nat (length B).
Hypothesis Hstart : forall j, 0 <= j < ALPHABET_SIZE ->
  rd B (6 * ALPHABET_SIZE + j) = if j <=? c then 0 else n.
Hypothesis Hend : forall j, 0 <= j < ALPHABET_SIZE ->
  rd B (7 * ALPHABET_SIZE + j) = if j <? c then 0 else n.

Let T := constant_text c n.

Lemma final_l2r_8u_seed_constant (done : Z -> Z) :
  constant_l2r_inv c n done B (length SA) (6 * ALPHABET_SIZE) 0
    (final_l2r_8u_seed T SA B n (6 * ALPHABET_SIZE)).
Proof.
  unfold final_l2r_8u_seed, T. rewrite !rd_constant_text by lia.
  rewrite Z.ltb_irrefl. change (sign_if false) with 0. rewrite Z.lor_0_r.
  rewrite Hstart by lia. destruct (Z.leb_spec c c); [|lia].
  unfold constant_l2r_inv. cbn [fst snd]. repeat split.
  - now rewrite wr_length.
  - now rewrite incr_length.
  - intros; lia.
  - intros _. rewrite rd_wr_same by lia. lia.
  - intros j Hj. rewrite rd_wr_other by lia. apply HSA. lia.
  - rewrite rd_incr_same by (unfold ALPHABET_SIZE in *; lia).
    rewrite Hstart by lia. destruct (Z.leb_spec c c); lia.
  - intros idx Hidx. rewrite rd_incr_other by lia. reflexivity.
Qed.

Lemma final_sorting_scan_left_to_right_8u_omp_constant :
  constant_l2r_inv c n (sorted_mark n) B (length SA) (6 * ALPHABET_SIZE) n
    (libsais_final_sorting_scan_left_to_right_8u_omp T SA n B (6 * ALPHABET_SIZE) 1).
Proof.
  unfold libsais_final_sorting_scan_left_to_right_8u_omp.
  pose proof (final_l2r_8u_seed_constant (sorted_mark n)) as Hseed.
  destruct (final_l2r_8u_seed T SA B n (6 * ALPHABET_SIZE)) as [SA1 B1].
  change ((1 =? 1) || (n <? 65536)) with true. cbv iota.
  unfold libsais_final_sorting_scan_left_to_right_8u. cbv zeta.
  pose proof (scan_up_2_1
                (constant_l2r_inv c n (sorted_mark n) B (length SA) (6 * ALPHABET_SIZE))
                (final_sorting_l2r_8u_step T (6 * ALPHABET_SIZE))
                n (0 + n - 32 - 1) (0 + n - 32 - 1 + (32 + 1)) (SA1, B1)
                ltac:(lia) ltac:(lia) ltac:(lia)) as H.
  cbv zeta in H.
  destruct (for_up 2 _ 0 (0 + n - 32 - 1) (SA1, B1)) as [i2 st2].
  apply H; [|exact Hseed].
  intros k st Hk Hst. apply final_sorting_l2r_8u_step_constant; auto;
    unfold ALPHABET_SIZE in *; lia.
Qed.

Lemma final_bwt_scan_left_to_right_8u_omp_constant :
  constant_l2r_inv c n (bwt_mark c n) B (length SA) (6 * ALPHABET_SIZE) n
    (libsais_final_bwt_scan_left_to_right_8u_omp T SA n B (6 * ALPHABET_SIZE) 1).
Proof.
  unfold libsais_final_bwt_scan_left_to_right_8u_omp.
  pose proof (final_l2r_8u_seed_constant (bwt_mark c n)) as Hseed.
  destruct (final_l2r_8u_seed T SA B n (6 * ALPHABET_SIZE)) as [SA1 B1].
  change ((1 =? 1) || (n <? 65536)) with true. cbv iota.
  unfold libsais_final_bwt_scan_left_to_right_8u. cbv zeta.
  pose proof (scan_up_2_1
                (constant_l2r_inv c n (bwt_mark c n) B (length SA) (6 * ALPHABET_SIZE))
                (final_bwt_l2r_8u_step T (6 * ALPHABET_SIZE))
                n (0 + n - 32 - 1) (0 + n - 32 - 1 + (32 + 1)) (SA1, B1)
                ltac:(lia) ltac:(lia) ltac:(lia)) as H.
  cbv zeta in H.
  destruct (for_up 2 _ 0 (0 + n - 32 - 1) (SA1, B1)) as [i2 st2].
  apply H; [|exact Hseed].
  intros k st Hk Hst. apply final_bwt_l2r_8u_step_constant; auto;
    unfold ALPHABET_SIZE in *; lia.
Qed.

Lemma final_sorting_scan_right_to_left_8u_omp_constant (SA1 B1 : list Z) (ib : Z) :
  constant_r2l_inv n (sorted_mark n) (fun j => n - 1 - j) (length SA) (n - 1) SA1 ->
  constant_r2l_inv n (sorted_mark n) (fun j => n - 1 - j) (length SA) (-1)
    (fst (libsais_final_sorting_scan_right_to_left_8u_omp T SA1 n B1 ib 1)).
Proof.
  intros H0. unfold libsais_final_sorting_scan_right_to_left_8u_omp.
  change ((1 =? 1) || (n <? 65536)) with true. cbv iota.
  unfold libsais_final_sorting_scan_right_to_left_8u. cbv zeta.
  pose proof (scan_down_2_1
                (fun i (st : list Z * list Z) =>
                   constant_r2l_inv n (sorted_mark n) (fun j => n - 1 - j) (length SA) i (fst st))
                (final_sorting_r2l_8u_step T ib)
                n (0 + 32 + 1) (0 + 32 + 1 - (32 + 1)) (SA1, B1)
                ltac:(lia) ltac:(lia) ltac:(lia)) as H.
  cbv zeta in H. replace (0 + n - 1) with (n - 1) by lia.
  destruct (for_down 2 _ (n - 1) (0 + 32 + 1) (SA1, B1)) as [i2 st2].
  apply H; [|exact H0].
  intros k [SAk Bk] Hk Hst.
  apply (final_sorting_r2l_8u_step_constant c n Hn Bk (length SA) ib k SAk); auto.
Qed.

Lemma final_bwt_scan_right_to_left_8u_omp_constant (SA1 B1 : list Z) (ib : Z) :
  constant_r2l_inv n (bwt_mark c n) (bwt_cell c n) (length SA) (n - 1) SA1 ->
  exists SA2,
    libsais_final_bwt_scan_right_to_left_8u_omp T SA1 n B1 ib 1 = (SA2, B1, n - 1) /\
    constant_r2l_inv n (bwt_mark c n) (bwt_cell c n) (length SA) (-1) SA2.
Proof.
  intros H0. unfold libsais_final_bwt_scan_right_to_left_8u_omp.
  change ((1 =? 1) || (n <? 65536)) with true. cbv iota zeta.
  unfold libsais_final_bwt_scan_right_to_left_8u. cbv zeta.
  pose proof (scan_down_2_1
                (fun i (st : list Z * list Z * Z) =>
                   snd (fst st) = B1 /\
                   snd st = (if i <? n - 1 then n - 1 else -1) /\
                   constant_r2l_inv n (bwt_mark c n) (bwt_cell c n) (length SA) i (fst (fst st)))
                (final_bwt_r2l_8u_step T ib)
                n (0 + 32 + 1) (0 + 32 + 1 - (32 + 1)) (SA1, B1, -1)
                ltac:(lia) ltac:(lia) ltac:(lia)) as H.
  cbv zeta in H. replace (0 + n - 1) with (n - 1) by lia.
  destruct (for_down 2 _ (n - 1) (0 + 32 + 1) (SA1, B1, -1)) as [i2 st2].
  cbn [fst snd] in H.
  destruct H as (HB & Hindex & Hinv).
  - intros k [[SAk Bk] index] Hk (HBk & Hik & Hst). cbn [fst snd] in *. subst Bk.
    destruct (final_bwt_r2l_8u_step_constant c n Hn Hc B1 (length SA) ib k index SAk)
      as (SA' & E & Hinv'); auto.
    fold T in E. rewrite E.
    cbn [fst snd]. split; [reflexivity|split; [|exact Hinv']].
    destruct (Z.ltb_spec (k - 1) (n - 1)); [reflexivity|lia].
  - cbn [fst snd]. split; [reflexivity|split; [|exact H0]].
    destruct (Z.ltb_spec (n - 1) (n - 1)); [lia|reflexivity].
  - destruct (for_down 1 _ i2 _ st2) as [i1 [[SA2 B2] index]]. cbn [fst snd] in *.
    exists SA2. subst B2. split; [|exact Hinv].
    destruct (Z.ltb_spec (-1) (n - 1)); [subst index; reflexivity|lia].
Qed.

Lemma clear_lms_suffixes_omp_constant (SA1 B1 : list Z) :
  (forall j, 0 <= j < ALPHABET_SIZE ->
     rd B1 (7 * ALPHABET_SIZE + j) <= rd B1 (6 * ALPHABET_SIZE + j)) ->
  libsais_clear_lms_suffixes_omp SA1 n ALPHABET_SIZE B1 (6 * ALPHABET_SIZE)
    (7 * ALPHABET_SIZE) 1 = SA1.
Proof.
  intros H. unfold libsais_clear_lms_suffixes_omp.
  match goal with |- snd (for_up 1 ?body ?a ?b ?s) = _ =>
    destruct (for_up_ind (fun _ s' => s' = SA1) 1 body a b s ltac:(lia) eq_refl) as (H1 & _)
  end; [|exact H1].
  intros k s Hk ->.
  destruct (Z.ltb_spec (rd B1 (6 * ALPHABET_SIZE + k)) (rd B1 (7 * ALPHABET_SIZE + k)));
    [specialize (H k Hk); lia|reflexivity].
Qed.

Lemma induce_final_order_8u_omp_constant_sorting :
  exists SA' B',
    libsais_induce_final_order_8u_omp T SA n 0 B 1 = (0, SA', B') /\
    length SA' = length SA /\
    forall j, 0 <= j < n -> rd SA' j = n - 1 - j.
Proof.
  unfold libsais_induce_final_order_8u_omp.
  change (negb (0 =? 0)) with false. cbv iota.
  pose proof final_sorting_scan_left_to_right_8u_omp_constant as HL.
  destruct (libsais_final_sorting_scan_left_to_right_8u_omp T SA n B (6 * ALPHABET_SIZE) 1)
    as [SA1 B1].
  destruct HL as (H1 & H2 & H3 & _). cbn [fst snd] in *.
  change ((1 <? 1) && (65536 <=? n)) with false. cbv iota.
  pose proof (final_sorting_scan_right_to_left_8u_omp_constant SA1 B1 (7 * ALPHABET_SIZE)) as HR.
  destruct (libsais_final_sorting_scan_right_to_left_8u_omp T SA1 n B1 (7 * ALPHABET_SIZE) 1)
    as [SA2 B2].
  cbn [fst] in HR. destruct HR as (HR1 & _ & HR3).
  - split; [exact H1|split]; [intros j Hj; apply H3; lia|intros; lia].
  - exists SA2, B2. repeat split; auto. intros j Hj. apply HR3. lia.
Qed.

Lemma induce_final_order_8u_omp_constant_bwt :
  exists SA' B',
    libsais_induce_final_order_8u_omp T SA n 1 B 1 = (n - 1, SA', B') /\
    length SA' = length SA /\
    forall j, 0 <= j < n -> rd SA' j = bwt_cell c n j.
Proof.
  unfold libsais_induce_final_order_8u_omp.
  change (negb (1 =? 0)) with true. cbv iota.
  pose proof final_bwt_scan_left_to_right_8u_omp_constant as HL.
  destruct (libsais_final_bwt_scan_left_to_right_8u_omp T SA n B (6 * ALPHABET_SIZE) 1)
    as [SA1 B1].
  destruct HL as (H1 & H2 & H3 & _ & _ & H6 & H7). cbn [fst snd] in *.
  rewrite clear_lms_suffixes_omp_constant.
  - destruct (final_bwt_scan_right_to_left_8u_omp_constant SA1 B1 (7 * ALPHABET_SIZE))
      as (SA2 & -> & HR1 & _ & HR3).
    + split; [exact H1|split]; [intros j Hj; apply H3; lia|intros; lia].
    + exists SA2, B1. repeat split; auto. intros j Hj. apply HR3. lia.
  - intros j Hj. rewrite (H7 (7 * ALPHABET_SIZE + j)) by lia. rewrite Hend by lia.
    destruct (Z.eq_dec j c) as [->|Hne].
    + rewrite H6. destruct (Z.ltb_spec c c); lia.
    + rewrite H7 by lia. rewrite Hstart by lia.
      destruct (Z.ltb_spec j c), (Z.leb_spec j c); lia.
Qed.

End ConstantFinal.

(** ** Copying the BWT out *)

Lemma bwt_copy_8u_spec (U A : list Z) (uoff aoff n : Z) :
  0 <= uoff -> 0 <= n -> uoff + n <= Z.of_nat (length U) ->
  let U' := libsais_bwt_copy_8u U uoff A aoff n in
  length U' = length U /\
  (forall i, 0 <= i < n -> rd U' (uoff + i) = to_uchar (rd A (aoff + i))) /\
  (forall j, j < uoff \/ uoff + n <= j -> rd U' j = rd U j).
Proof.
  intros Hu Hn Hlen. unfold libsais_bwt_copy_8u. cbv zeta.
  set (step := fun i U0 => wr U0 (uoff + i) (to_uchar (rd A (aoff + i)))).
  pose (P := fun (i : Z) (Uc : list Z) =>
    0 <= i /\ length Uc = length U /\
    (forall i', 0 <= i' < i -> rd Uc (uoff + i') = to_uchar (rd A (aoff + i'))) /\
    (forall j, j < uoff \/ uoff + i <= j -> rd Uc j = rd U j)).
  assert (Hstep : forall k Uc, 0 <= k < n -> P k Uc -> P (k + 1) (step k Uc)).
  { intros k Uc Hk (H0 & H1 & H2 & H3). unfold P, step. repeat split.
    - lia.
    - now rewrite wr_length.
    - intros i' Hi'. destruct (Z.eq_dec i' k) as [->|Hne].
      + rewrite rd_wr_same by lia. reflexivity.
      + rewrite rd_wr_other by lia. apply H2. lia.
    - intros j Hj. rewrite rd_wr_other by lia. apply H3. lia. }
  assert (H0 : P 0 U).
  { unfold P. repeat split; try lia. }
  match goal with |- context [for_up 8 ?body ?a ?b ?s] =>
    destruct (for_up_ind P 8 body a b s ltac:(lia) H0) as (H8 & Hi8 & Hi8');
    [|destruct (for_up 8 body a b s) as [i8 U8]]
  end.
  { intros k Uc Hk HP.
    replace (k + 8) with (k + 7 + 1) by lia. apply Hstep; [lia|].
    replace (k + 7) with (k + 6 + 1) at 1 by lia. apply Hstep; [lia|].
    replace (k + 6) with (k + 5 + 1) at 1 by lia. apply Hstep; [lia|].
    replace (k + 5) with (k + 4 + 1) at 1 by lia. apply Hstep; [lia|].
    replace (k + 4) with (k + 3 + 1) at 1 by lia. apply Hstep; [lia|].
    replace (k + 3) with (k + 2 + 1) at 1 by lia. apply Hstep; [lia|].
    replace (k + 2) with (k + 1 + 1) at 1 by lia. apply Hstep; [lia|].
    replace (k + 1) with (k + 0 + 1) at 1 by lia. apply Hstep; [lia|].
    replace (k + 0) with k by lia. exact HP. }
  cbn [fst snd] in *.
  destruct (for_up_ind P 1 step i8 (n - 7 + 7) U8 ltac:(lia) H8) as (H1 & Hi1 & Hi1').
  { intros k Uc Hk HP. apply Hstep; [|exact HP]. destruct HP as [? _]. lia. }
  destruct (for_up 1 step i8 (n - 7 + 7) U8) as [i1 U1]. cbn [fst snd] in *.
  destruct H8 as (H80 & _). destruct H1 as (_ & H11 & H12 & H13).
  assert (i1 = n) by lia. subst i1.
  repeat split; auto.
Qed.

Lemma nth_positions_from (n : Z) (q : nat) (d : Z) :
  (Z.of_nat q < n) -> nth q (positions_from 0 n) d = Z.of_nat q.
Proof.
  intros H. unfold positions_from. simpl Z.to_nat. rewrite Nat.sub_0_r.
  apply nth_map_seq. lia.
Qed.

Lemma descending_length (n : Z) : 0 <= n -> Z.of_nat (length (descending n)) = n.
Proof. intros H. unfold descending. rewrite length_map, positions_from_length; lia. Qed.

Lemma nth_descending (n : Z) (q : nat) :
  Z.of_nat q < n -> nth q (descending n) 0 = n - 1 - Z.of_nat q.
Proof.
  intros H. unfold descending, positions_from. rewrite map_map.
  simpl Z.to_nat. rewrite Nat.sub_0_r.
  rewrite (nth_map_seq (fun x => n - 1 - Z.of_nat x)) by lia. reflexivity.
Qed.

(** ** The drivers on a constant text *)

Lemma alloc_aligned_ok (malloc_ok : nat -> bool) (malloc_junk : nat -> Z -> Z) (na : nat)
    (cells : Z) :
  malloc_ok na = true -> 0 <= cells ->
  exists blk, libsais_alloc_aligned malloc_ok malloc_junk na cells = (Some blk, S na)
              /\ Z.of_nat (length blk) = cells.
Proof.
  intros H Hc. unfold libsais_alloc_aligned. rewrite H. eexists. split; [reflexivity|].
  rewrite length_map, length_seq. lia.
Qed.

Lemma libsais_main_8u_constant (malloc_ok : nat -> bool) (malloc_junk : nat -> Z -> Z)
    (SA_addr : Z) (fuel : nat) (c n bwt fs : Z) (SA : list Z) (na : nat) :
  2 <= n <= INT_MAX -> 0 <= c < ALPHABET_SIZE ->
  malloc_ok na = true -> n <= Z.of_nat (length SA) ->
  exists index SA' B',
    libsais_main_8u malloc_ok malloc_junk SA_addr fuel (constant_text c n) SA n bwt fs 1 na
    = Some (index, SA', S na) /\
    (exists SA0 B0,
       libsais_induce_final_order_8u_omp (constant_text c n) SA0 n bwt B0 1 = (index, SA', B')
       /\ n <= Z.of_nat (length SA0) /\ length SA0 = length SA
       /\ (forall j, 0 <= j < n -> rd SA0 j = 0)
       /\ 8 * ALPHABET_SIZE <= Z.of_nat (length B0)
       /\ (forall j, 0 <= j < ALPHABET_SIZE ->
             rd B0 (6 * ALPHABET_SIZE + j) = if j <=? c then 0 else n)
       /\ (forall j, 0 <= j < ALPHABET_SIZE ->
             rd B0 (7 * ALPHABET_SIZE + j) = if j <? c then 0 else n)).
Proof.
  intros Hn Hc Hm HlSA. unfold libsais_main_8u.
  change (1 <? 1) with false. cbv iota.
  destruct (alloc_aligned_ok malloc_ok malloc_junk na (8 * ALPHABET_SIZE) Hm)
    as (B & -> & HlB); [unfold ALPHABET_SIZE; lia|].
  change (false || (1 =? 1)) with true. cbv iota.
  rewrite count_and_gather_lms_suffixes_8u_omp_eq.
  pose proof (constant_text_length c n ltac:(lia)) as HlT.
  destruct (count_and_gather_lms_suffixes_8u_inv (constant_text c n) SA B n
              (constant_text_bytes c n Hc) HlT ltac:(lia) HlSA
              ltac:(unfold ALPHABET_SIZE in *; lia))
    as (SA1 & B1 & m & s & prev & -> & Hinv).
  destruct Hinv as [_ _ Hmm HlSA1 _ HlB1 HB1].
  change (-2 + 2) with 0 in *. fold (LMS_positions (constant_text c n)) in Hmm.
  rewrite constant_text_no_LMS in Hmm by lia. simpl length in Hmm.
  replace (n - 1 - m) with 0 by lia.
  pose proof (initialize_buckets_start_and_end_8u_spec B1 (fun j => if j =? c then n else 0)
                ltac:(lia)) as HB2.
  cbv zeta in HB2.
  destruct HB2 as (HlB2 & _ & HB2).
  { intros j Hj. rewrite !HB1 by (rewrite BUCKETS_INDEX4_eq; unfold ALPHABET_SIZE in *; lia).
    rewrite filed_from_sum. apply constant_text_occurrences. lia. }
  change (0 <? 0) with false. cbv iota.
  set (B2 := libsais_initialize_buckets_start_and_end_8u B1) in *.
  destruct (libsais_induce_final_order_8u_omp (constant_text c n) (memset0 SA1 0 n) n bwt B2 1)
    as [[index SA3] B3] eqn:E.
  exists index, SA3, B3. split; [reflexivity|].
  exists (memset0 SA1 0 n), B2. split; [exact E|].
  rewrite memset0_length. repeat split; try lia.
  - intros j Hj. apply rd_memset0_in; lia.
  - intros j Hj. destruct (HB2 j ltac:(lia)) as [-> _]. rewrite constant_text_prefix_sum by lia.
    rewrite Z2Nat.id by lia. reflexivity.
  - intros j Hj. destruct (HB2 j ltac:(lia)) as [_ ->]. rewrite constant_text_prefix_sum by lia.
    rewrite Z2Nat.id by lia.
    destruct (Z.leb_spec (j + 1) c), (Z.ltb_spec j c); lia.
Qed.

(** C6: for a text of [n >= 2] equal bytes (and [n] an [int]), when the
    bucket table can be allocated, [libsais] returns 0 with
    [SA = (n - 1, n - 2, ..., 0)], and [libsais_bwt] returns the primary
    index [n] with [U] equal to the text. *)
Theorem libsais_constant_text (malloc_ok : nat -> bool) (malloc_junk : nat -> Z -> Z)
    (SA_addr : Z) (c n fs : Z) (SA U A : list Z) :
  2 <= n <= INT_MAX -> 0 <= c < ALPHABET_SIZE -> 0 <= fs ->
  malloc_ok O = true ->
  n <= Z.of_nat (length SA) -> n <= Z.of_nat (length A) -> n <= Z.of_nat (length U) ->
  (exists SA',
     libsais malloc_ok malloc_junk SA_addr (Some (constant_text c n)) (Some SA) n fs
     = Some (0, Some SA')
     /\ slice SA' 0 n = descending n)
  /\ (exists U' A',
        libsais_bwt malloc_ok malloc_junk SA_addr (Some (constant_text c n)) (Some U) (Some A)
          n fs
        = Some (n, Some U', Some A')
        /\ slice U' 0 n = constant_text c n).
Proof.
  intros Hn Hc Hfs Hm HlSA HlA HlU. split.
  - unfold libsais.
    destruct (Z.ltb_spec n 0); [lia|]. destruct (Z.ltb_spec fs 0); [lia|].
    destruct (Z.ltb_spec n 2); [lia|]. cbn [orb].
    destruct (libsais_main_8u_constant malloc_ok malloc_junk SA_addr (Z.to_nat n) c n 0 fs
                SA O Hn Hc Hm HlSA)
      as (index & SA' & B' & -> & SA0 & B0 & E & G1 & G2 & G3 & G4 & G5 & G6).
    destruct (induce_final_order_8u_omp_constant_sorting c n Hn Hc SA0 B0 G1 G3 G4 G5)
      as (SA2 & B2 & E2 & Hl2 & Hcells).
    rewrite E2 in E. injection E as <- <- <-.
    exists SA2. split; [reflexivity|].
    rewrite <- (descending_length n) at 1 by lia.
    apply slice_of_rd. intros q Hq.
    pose proof (descending_length n ltac:(lia)).
    rewrite nth_descending by lia. rewrite Hcells by lia. lia.
  - unfold libsais_bwt.
    destruct (Z.ltb_spec n 0); [lia|]. destruct (Z.ltb_spec fs 0); [lia|].
    destruct (Z.leb_spec n 1); [lia|]. cbn [orb].
    destruct (libsais_main_8u_constant malloc_ok malloc_junk SA_addr (Z.to_nat n) c n 1 fs
                A O Hn Hc Hm HlA)
      as (index & A' & B' & -> & SA0 & B0 & E & G1 & G2 & G3 & G4 & G5 & G6).
    destruct (induce_final_order_8u_omp_constant_bwt c n Hn Hc SA0 B0 G1 G3 G4 G5 G6)
      as (SA2 & B2 & E2 & Hl2 & Hcells).
    rewrite E2 in E. injection E as <- <- <-.
    destruct (Z.leb_spec 0 (n - 1)); [|lia].
    replace (n - 1 + 1) with n by lia.
    eexists. eexists. split; [reflexivity|].
    replace (n - (n - 1) - 1) with 0 by lia.
    set (U1 := wr U 0 (rd (constant_text c n) (n - 1))).
    destruct (bwt_copy_8u_spec U1 SA2 1 0 (n - 1)) as (Hc1 & Hc2 & Hc3);
      [lia|lia|unfold U1; rewrite wr_length; lia|].
    set (U2 := libsais_bwt_copy_8u U1 1 SA2 0 (n - 1)) in *.
    destruct (bwt_copy_8u_spec U2 SA2 (1 + (n - 1)) (1 + (n - 1)) 0) as (Hd1 & _ & Hd3);
      [lia|lia|rewrite Hc1; unfold U1; rewrite wr_length; lia|].
    set (U3 := libsais_bwt_copy_8u U2 (1 + (n - 1)) SA2 (1 + (n - 1)) 0) in *.
    replace n with (Z.of_nat (length (constant_text c n))) at 1
      by (apply constant_text_length; lia).
    apply slice_of_rd. intros q Hq.
    pose proof (constant_text_length c n ltac:(lia)) as HlT.
    assert (Hq' : 0 <= Z.of_nat q < n) by lia.
    change (nth q (constant_text c n) 0) with (nth q (repeat c (Z.to_nat n)) 0).
    rewrite nth_repeat_lt by lia.
    rewrite Hd3 by lia.
    destruct (Z.eq_dec (Z.of_nat q) 0) as [E0|E0].
    + rewrite Z.add_0_l, E0. rewrite Hc3 by lia. unfold U1.
      rewrite rd_wr_same by lia. apply rd_constant_text. lia.
    + replace (0 + Z.of_nat q) with (1 + (Z.of_nat q - 1)) by lia.
      rewrite Hc2 by lia. rewrite Hcells by lia. unfold bwt_cell.
      destruct (Z.ltb_spec (0 + (Z.of_nat q - 1)) (n - 1)); [|lia].
      unfold to_uchar. apply Z.mod_small. unfold ALPHABET_SIZE in Hc. lia.
Qed.

Lemma libsais_constant_text_witness :
  2 <= 5 <= INT_MAX /\ 0 <= 97 < ALPHABET_SIZE /\ 0 <= 0 /\ malloc_always O = true /\
  5 <= Z.of_nat (length (repeat 0 5%nat)) /\ 5 <= Z.of_nat (length (repeat 0 5%nat)) /\
  5 <= Z.of_nat (length (repeat 0 5%nat)) /\
  ((exists SA',
      libsais malloc_always junk_zero 4096 (Some (constant_text 97 5)) (Some (repeat 0 5%nat))
        5 0
      = Some (0, Some SA')
      /\ slice SA' 0 5 = descending 5)
   /\ (exists U' A',
         libsais_bwt malloc_always junk_zero 4096 (Some (constant_text 97 5))
           (Some (repeat 0 5%nat)) (Some (repeat 0 5%nat)) 5 0
         = Some (5, Some U', Some A')
         /\ slice U' 0 5 = constant_text 97 5)).
Proof.
  assert (H1 : 2 <= 5 <= INT_MAX) by (unfold INT_MAX; lia).
  assert (H2 : 0 <= 97 < ALPHABET_SIZE) by (unfold ALPHABET_SIZE; lia).
  assert (H3 : 5 <= Z.of_nat (length (repeat 0 5%nat))) by (simpl; lia).
  split; [exact H1|]. split; [exact H2|]. split; [lia|]. split; [reflexivity|].
  split; [exact H3|]. split; [exact H3|]. split; [exact H3|].
  apply (libsais_constant_text malloc_always junk_zero 4096 97 5 0
           (repeat 0 5%nat) (repeat 0 5%nat) (repeat 0 5%nat) H1 H2 ltac:(lia) eq_refl H3 H3 H3).
Defined.


(** * The entry points: argument errors and termination *)

Section EntryPoints.
Variable malloc_ok : nat -> bool.
Variable malloc_junk : nat -> Z -> Z.
Variable SA_addr : Z.

(** An argument that violates the contract gives -1 and leaves the buffers
    alone. *)
Lemma libsais_argument_error (T SA : option (list Z)) (n fs : Z) :
  T = None \/ SA = None \/ n < 0 \/ fs < 0 ->
  libsais malloc_ok malloc_junk SA_addr T SA n fs = Some (-1, SA).
Proof.
  intros H. unfold libsais. destruct T as [T|], SA as [SA|]; try reflexivity.
  destruct H as [H|[H|H]]; try discriminate.
  destruct (Z.ltb_spec n 0), (Z.ltb_spec fs 0); try reflexivity. lia.
Qed.

(** X24: [libsais_bwt] returns -1 and leaves [U] and [A] as they were
    when a pointer is [NULL], [n < 0] or [fs < 0]. *)
Lemma libsais_bwt_argument_error (T U A : option (list Z)) (n fs : Z) :
  T = None \/ U = None \/ A = None \/ n < 0 \/ fs < 0 ->
  libsais_bwt malloc_ok malloc_junk SA_addr T U A n fs = Some (-1, U, A).
Proof.
  intros H. unfold libsais_bwt. destruct T as [T|], U as [U|], A as [A|]; try reflexivity.
  destruct H as [H|[H|[H|H]]]; try discriminate.
  destruct (Z.ltb_spec n 0), (Z.ltb_spec fs 0); try reflexivity. lia.
Qed.

Lemma induce_final_order_8u_omp_sorting_result (T SA : list Z) (n : Z) (buckets : list Z)
    (threads : Z) :
  fst (fst (libsais_induce_final_order_8u_omp T SA n 0 buckets threads)) = 0.
Proof.
  unfold libsais_induce_final_order_8u_omp.
  change (negb (0 =? 0)) with false. cbv iota.
  walk; reflexivity.
Qed.

(** In suffix-array mode the driver returns 0 or -2. *)
Lemma libsais_main_8u_sorting_result (fuel : nat) (T SA : list Z) (n fs threads : Z)
    (na : nat) (r : Z) (SA' : list Z) (na' : nat) :
  libsais_main_8u malloc_ok malloc_junk SA_addr fuel T SA n 0 fs threads na
  = Some (r, SA', na') ->
  r = 0 \/ r = -2.
Proof.
  unfold libsais_main_8u.
  walk; intros H; inversion H; subst; auto;
    match goal with
    | E : libsais_induce_final_order_8u_omp ?T ?S ?n 0 ?B ?t = _ |- _ =>
        pose proof (induce_final_order_8u_omp_sorting_result T S n B t) as R;
        rewrite E in R; simpl in R; auto
    end.
Qed.

(** With valid arguments [libsais] never returns -1. *)
Lemma libsais_valid_result (T SA : list Z) (n fs r : Z) (SA' : option (list Z)) :
  0 <= n -> 0 <= fs ->
  libsais malloc_ok malloc_junk SA_addr (Some T) (Some SA) n fs = Some (r, SA') ->
  r = 0 \/ r = -2.
Proof.
  intros Hn Hfs. unfold libsais.
  destruct (Z.ltb_spec n 0); [lia|]. destruct (Z.ltb_spec fs 0); [lia|]. cbn [orb].
  destruct (n <? 2); [intros E0; inversion E0; auto|].
  destruct (libsais_main_8u _ _ _ _ _ _ _ _ _ _ _) as [[[r' SA2] na']|] eqn:E; [|discriminate].
  intros E0. inversion E0; subst. eapply libsais_main_8u_sorting_result, E.
Qed.




(** When the bucket table cannot be allocated the entry points return -2
    and leave the buffers alone. *)
Lemma libsais_allocation_failure (T SA : list Z) (n fs : Z) :
  2 <= n -> 0 <= fs -> malloc_ok O = false ->
  libsais malloc_ok malloc_junk SA_addr (Some T) (Some SA) n fs = Some (-2, Some SA).
Proof.
  intros Hn Hfs Hm. unfold libsais.
  destruct (Z.ltb_spec n 0); [lia|]. destruct (Z.ltb_spec fs 0); [lia|]. cbn [orb].
  destruct (Z.ltb_spec n 2); [lia|].
  unfold libsais_main_8u. change (1 <? 1) with false. cbv iota.
  unfold libsais_alloc_aligned. rewrite Hm. reflexivity.
Qed.

Lemma libsais_bwt_allocation_failure (T U A : list Z) (n fs : Z) :
  2 <= n -> 0 <= fs -> malloc_ok O = false ->
  libsais_bwt malloc_ok malloc_junk SA_addr (Some T) (Some U) (Some A) n fs
  = Some (-2, Some U, Some A).
Proof.
  intros Hn Hfs Hm. unfold libsais_bwt.
  destruct (Z.ltb_spec n 0); [lia|]. destruct (Z.ltb_spec fs 0); [lia|]. cbn [orb].
  destruct (Z.leb_spec n 1); [lia|].
  unfold libsais_main_8u. change (1 <? 1) with false. cbv iota.
  unfold libsais_alloc_aligned. rewrite Hm. reflexivity.
Qed.

End EntryPoints.

(** The free space decides whether the reduced problem needs a bucket
    table from the heap.  For [cbcbcbcacbcb] the reduced problem has five
    symbols of three kinds and two free cells: with [fs = 0] it allocates,
    and when that allocation fails the call returns -2 with [SA] holding
    intermediate data; with [fs = 1] the table fits behind the text of the
    reduced problem and the same environment gives the suffix array. *)
Lemma libsais_free_space_avoids_allocation :
  libsais malloc_first junk_zero 4096 (Some (bytes_of_string "cbcbcbcacbcb"))
    (Some (repeat 0 12%nat)) 12 0
  = Some (-2, Some [-2147483641; -2147483643; 9; 1; -2147483645; -2147483646;
                    -2147483646; 2; 2; 1; 0; 2])
  /\ libsais malloc_first junk_zero 4096 (Some (bytes_of_string "cbcbcbcacbcb"))
       (Some (repeat 0 13%nat)) 12 1
     = Some (0, Some [7; 11; 5; 9; 3; 1; 6; 10; 4; 8; 2; 0; 2]).
Proof. split; vm_compute; reflexivity. Qed.


(** * Further properties of the code *)

(** ** The number of LMS suffixes *)

Lemma is_LMS_not_adjacent (T : list Z) (a : Z) :
  is_LMS T a = true -> is_LMS T (a + 1) = false.
Proof.
  unfold is_LMS. intros H. apply andb_true_iff in H as [H _].
  replace (a + 1 - 1) with a by lia.
  destruct (isL T a); [discriminate|]. apply andb_false_r.
Qed.

Lemma LMS_from_half (T : list Z) (k : nat) :
  forall a, 0 <= a -> a + Z.of_nat k = Z.of_nat (length T) - 1 ->
  2 * Z.of_nat (length (LMS_from T a)) <= Z.of_nat k + b2z (is_LMS T a).
Proof.
  induction k as [|k IH]; intros a Ha Hk.
  - rewrite LMS_from_cons by lia.
    assert (HL : is_LMS T a = false).
    { unfold is_LMS. replace a with (Z.of_nat (length T) - 1) by lia.
      rewrite isL_last by lia. reflexivity. }
    rewrite HL. unfold LMS_from. rewrite positions_from_nil by lia. simpl. lia.
  - rewrite LMS_from_cons by lia.
    specialize (IH (a + 1) ltac:(lia) ltac:(lia)).
    destruct (is_LMS T a) eqn:E.
    + rewrite (is_LMS_not_adjacent T a E) in IH. cbn [length b2z] in *. lia.
    + destruct (is_LMS T (a + 1)); cbn [b2z] in *; lia.
Qed.

Lemma LMS_positions_half (T : list Z) :
  (1 <= length T)%nat ->
  2 * Z.of_nat (length (LMS_positions T)) + 1 <= Z.of_nat (length T).
Proof.
  intros H. unfold LMS_positions.
  pose proof (LMS_from_half T (length T - 1) 0 ltac:(lia) ltac:(lia)) as B.
  assert (E : is_LMS T 0 = false).
  { unfold is_LMS, isL. change (0 - 1 <? 0) with true. cbv iota. apply andb_false_r. }
  rewrite E in B. cbn [b2z] in B. lia.
Qed.

Lemma count_and_gather_lms_suffixes_8u_omp_count (T SA buckets : list Z) (n threads : Z) :
  byte_text T -> Z.of_nat (length T) = n -> 1 <= n ->
  n <= Z.of_nat (length SA) -> 4 * ALPHABET_SIZE <= Z.of_nat (length buckets) ->
  fst (fst (libsais_count_and_gather_lms_suffixes_8u_omp T SA n buckets threads))
  = Z.of_nat (length (LMS_positions T)).
Proof.
  intros HT Hlen Hn HSA HB.
  rewrite count_and_gather_lms_suffixes_8u_omp_eq.
  destruct (count_and_gather_lms_suffixes_8u_inv T SA buckets n HT Hlen Hn HSA HB)
    as (SA1 & B1 & m & s & prev & -> & Hinv).
  destruct Hinv as [_ _ Hm _ _ _ _]. change (-2 + 2) with 0 in Hm.
  cbn [fst]. unfold LMS_positions. lia.
Qed.

(** X1: on a byte text of length [n >= 1] the type scanner of the byte
    path reports [m] LMS suffixes with [2 * m + 1 <= n]: the [m] gathered
    suffixes and the [m] names of the reduced text fit in [SA[0 .. n)]
    with a cell to spare. *)
Theorem count_and_gather_lms_suffixes_8u_omp_half (T SA buckets : list Z) (n threads : Z) :
  byte_text T -> Z.of_nat (length T) = n -> 1 <= n ->
  n <= Z.of_nat (length SA) -> 4 * ALPHABET_SIZE <= Z.of_nat (length buckets) ->
  let m := fst (fst (libsais_count_and_gather_lms_suffixes_8u_omp T SA n buckets threads)) in
  0 <= m /\ 2 * m + 1 <= n.
Proof.
  intros HT Hlen Hn HSA HB. cbv zeta.
  rewrite (count_and_gather_lms_suffixes_8u_omp_count T SA buckets n threads HT Hlen Hn HSA HB).
  pose proof (LMS_positions_half T ltac:(lia)). lia.
Qed.

Lemma count_and_gather_lms_suffixes_8u_omp_half_witness :
  let m := fst (fst (libsais_count_and_gather_lms_suffixes_8u_omp banana (repeat 0 6%nat) 6
                       (repeat 7 1024%nat) 1)) in
  0 <= m /\ 2 * m + 1 <= 6.
Proof.
  apply (count_and_gather_lms_suffixes_8u_omp_half banana (repeat 0 6%nat) (repeat 7 1024%nat) 6 1).
  - repeat constructor; vm_compute; discriminate.
  - reflexivity.
  - lia.
  - vm_compute; discriminate.
  - vm_compute; discriminate.
Defined.

(** ** Result codes of the drivers *)

Section Outcome.
Variable malloc_ok : nat -> bool.
Variable malloc_junk : nat -> Z -> Z.
Variable SA_addr : Z.




End Outcome.



(** ** Allocation and the result *)

Section Allocation.
Variable malloc_ok : nat -> bool.
Variable malloc_junk : nat -> Z -> Z.
Variable SA_addr : Z.




End Allocation.

Section InPlace.
Variable malloc_ok : nat -> bool.
Variable malloc_junk : nat -> Z -> Z.
Variable SA_addr : Z.




End InPlace.

Section ByteDriver.
Variable malloc_ok : nat -> bool.
Variable malloc_junk : nat -> Z -> Z.
Variable SA_addr : Z.



End ByteDriver.






(** ** The primary index *)

Lemma final_bwt_scan_right_to_left_8u_index (T SA buckets : list Z) (ib n : Z) :
  0 <= n ->
  let index := snd (libsais_final_bwt_scan_right_to_left_8u T SA buckets ib 0 n) in
  index = -1 \/ 0 <= index < n.
Proof.
  intros Hn. unfold libsais_final_bwt_scan_right_to_left_8u. cbv zeta.
  replace (0 + n - 1) with (n - 1) by lia.
  change (0 + 32 + 1) with 33. change (33 - (32 + 1)) with 0.
  set (step := final_bwt_r2l_8u_step T ib).
  pose (P := fun (k : Z) (st : list Z * list Z * Z) => snd st = -1 \/ k < snd st < n).
  pose proof (scan_down_2_1 P step n 33 0 (SA, buckets, -1) Hn ltac:(lia) eq_refl) as H.
  cbv zeta in H.
  destruct (for_down 2 _ (n - 1) 33 (SA, buckets, -1)) as [i2 st2].
  cbn [fst snd] in H.
  assert (HP : P (-1) (snd (for_down 1 step i2 0 st2))).
  { apply H.
    - intros k [[SA0 B0] idx] Hk HPk. unfold P in *. cbn [snd] in HPk.
      unfold step, final_bwt_r2l_8u_step.
      destruct (rd SA0 k =? 0); destruct (0 <? rd SA0 k); cbn [snd]; lia.
    - left. reflexivity. }
  unfold P in HP. lia.
Qed.

Lemma induce_final_order_8u_omp_index (T SA : list Z) (n bwt : Z) (buckets : list Z) :
  0 <= n ->
  let index := fst (fst (libsais_induce_final_order_8u_omp T SA n bwt buckets 1)) in
  -1 <= index < n \/ (index = 0 /\ bwt = 0).
Proof.
  intros Hn. unfold libsais_induce_final_order_8u_omp,
    libsais_final_bwt_scan_right_to_left_8u_omp.
  change (1 =? 1) with true. cbn [orb]. cbv zeta.
  destruct (Z.eqb_spec bwt 0) as [->|Hb]; cbn [negb].
  - right. walk. cbn [fst]. auto.
  - left.
    destruct (libsais_final_bwt_scan_left_to_right_8u_omp _ _ _ _ _ _) as [SA1 B1].
    match goal with |- context [libsais_final_bwt_scan_right_to_left_8u ?T ?S ?B ?ib 0 n] =>
      pose proof (final_bwt_scan_right_to_left_8u_index T S B ib n Hn) as H;
      destruct (libsais_final_bwt_scan_right_to_left_8u T S B ib 0 n) as [[SA2 B2] idx]
    end.
    cbn [fst snd] in *. lia.
Qed.

Section Index.
Variable malloc_ok : nat -> bool.
Variable malloc_junk : nat -> Z -> Z.
Variable SA_addr : Z.

Lemma libsais_main_8u_index (fuel : nat) (T SA : list Z) (n bwt fs : Z) (na : nat)
    (r : Z) (SA' : list Z) (na' : nat) :
  1 <= n ->
  libsais_main_8u malloc_ok malloc_junk SA_addr fuel T SA n bwt fs 1 na = Some (r, SA', na') ->
  r = -2 \/ -1 <= r < n.
Proof.
  intros Hn. unfold libsais_main_8u.
  walk; intros H; inversion H; subst; auto;
    match goal with
    | E : libsais_induce_final_order_8u_omp ?T ?S ?n ?b ?B 1 = _ |- _ =>
        pose proof (induce_final_order_8u_omp_index T S n b B ltac:(lia)) as R;
        rewrite E in R; cbn [fst] in R; lia
    end.
Qed.

End Index.



(** X6: what a successful [libsais_bwt] leaves in [U], in terms of what it
    leaves in [A]: for a result [r >= 1] on a text of length [n >= 2],
    [U[0]] is the last symbol of [T], [U[1 .. r)] are the cells
    [A[0 .. r - 1)] and [U[r .. n)] the cells [A[r .. n)], each converted
    to [unsigned char]; the cell [A[r - 1]], where the scan met the whole
    text, is left out, and [U] is untouched from [n] on. *)
Theorem libsais_bwt_output (malloc_ok : nat -> bool) (malloc_junk : nat -> Z -> Z)
    (SA_addr : Z) (T U A : list Z) (n fs r : Z) (U' A' : list Z) :
  2 <= n -> n <= Z.of_nat (length U) ->
  libsais_bwt malloc_ok malloc_junk SA_addr (Some T) (Some U) (Some A) n fs
  = Some (r, Some U', Some A') ->
  1 <= r ->
  r <= n /\
  length U' = length U /\
  rd U' 0 = rd T (n - 1) /\
  (forall j, 1 <= j < r -> rd U' j = to_uchar (rd A' (j - 1))) /\
  (forall j, r <= j < n -> rd U' j = to_uchar (rd A' j)) /\
  (forall j, n <= j -> rd U' j = rd U j).
Proof.
  intros Hn HU. unfold libsais_bwt.
  destruct ((n <? 0) || (fs <? 0)); [intros E; inversion E; lia|].
  destruct (Z.leb_spec n 1); [lia|].
  destruct (libsais_main_8u _ _ _ _ _ _ _ _ _ _ _) as [[[index A2] na']|] eqn:E;
    [|discriminate].
  apply libsais_main_8u_index in E; [|lia].
  destruct (Z.leb_spec 0 index); intros E0; injection E0 as Er EU EA; subst; [|lia]. intros _.
  set (U1 := wr U 0 (rd T (n - 1))).
  assert (HU1 : length U1 = length U) by apply wr_length.
  destruct (bwt_copy_8u_spec U1 A' 1 0 index) as (L2 & In2 & Out2); [lia|lia|lia|].
  set (U2 := libsais_bwt_copy_8u U1 1 A' 0 index) in *.
  destruct (bwt_copy_8u_spec U2 A' (1 + index) (1 + index) (n - index - 1))
    as (L3 & In3 & Out3); [lia|lia|lia|].
  set (U3 := libsais_bwt_copy_8u U2 (1 + index) A' (1 + index) (n - index - 1)) in *.
  split; [lia|]. split; [rewrite <- HU1, <- L2; exact L3|]. split; [|split; [|split]].
  - rewrite Out3, Out2 by lia. unfold U1. apply rd_wr_same. lia.
  - intros j Hj. rewrite Out3 by lia.
    replace j with (1 + (j - 1)) at 1 by lia. rewrite In2 by lia.
    f_equal; f_equal; lia.
  - intros j Hj. replace j with (1 + index + (j - (1 + index))) at 1 by lia.
    rewrite In3 by lia. f_equal; f_equal; lia.
  - intros j Hj. rewrite Out3, Out2 by lia. unfold U1. apply rd_wr_other. lia.
Qed.

Lemma libsais_bwt_output_witness :
  2 <= 6 /\ 6 <= Z.of_nat (length (repeat 0 8%nat)) /\
  libsais_bwt malloc_always junk_zero 4096 (Some banana) (Some (repeat 0 8%nat))
    (Some (repeat 0 6%nat)) 6 0
  = Some (4, Some (bytes_of_string "annbaa" ++ [0; 0]), Some [110; 110; 98; 0; 97; 97]) /\
  1 <= 4 /\
  4 <= 6 /\
  length (bytes_of_string "annbaa" ++ [0; 0]) = length (repeat 0 8%nat) /\
  rd (bytes_of_string "annbaa" ++ [0; 0]) 0 = rd banana (6 - 1) /\
  (forall j, 1 <= j < 4 ->
     rd (bytes_of_string "annbaa" ++ [0; 0]) j = to_uchar (rd [110; 110; 98; 0; 97; 97] (j - 1))) /\
  (forall j, 4 <= j < 6 ->
     rd (bytes_of_string "annbaa" ++ [0; 0]) j = to_uchar (rd [110; 110; 98; 0; 97; 97] j)) /\
  (forall j, 6 <= j -> rd (bytes_of_string "annbaa" ++ [0; 0]) j = rd (repeat 0 8%nat) j).
Proof.
  assert (H1 : 6 <= Z.of_nat (length (repeat 0 8%nat))) by (vm_compute; discriminate).
  assert (H2 : libsais_bwt malloc_always junk_zero 4096 (Some banana) (Some (repeat 0 8%nat))
                 (Some (repeat 0 6%nat)) 6 0
               = Some (4, Some (bytes_of_string "annbaa" ++ [0; 0]),
                       Some [110; 110; 98; 0; 97; 97])) by (vm_compute; reflexivity).
  split; [lia|]. split; [exact H1|]. split; [exact H2|]. split; [lia|].
  apply (libsais_bwt_output malloc_always junk_zero 4096 banana (repeat 0 8%nat)
           (repeat 0 6%nat) 6 0 4 _ _ ltac:(lia) H1 H2 ltac:(lia)).
Defined.

(** ** Aligned bucket tables *)

Lemma land_opp_pow2 (x e : Z) : 0 <= e -> Z.land x (- 2 ^ e) = 2 ^ e * (x / 2 ^ e).
Proof.
  intros He.
  replace (- 2 ^ e) with (Z.lnot (Z.ones e)).
  - rewrite <- Z.ldiff_land, Z.ldiff_ones_r by lia.
    rewrite Z.shiftl_mul_pow2, Z.shiftr_div_pow2 by lia. lia.
  - rewrite Z.ones_equiv. unfold Z.lnot. lia.
Qed.

(** X7: [libsais_align_up] rounds an address up to the next multiple of
    an alignment that is a power of two: the result is a multiple of the
    alignment, not below the address and less than one alignment above
    it. *)
Theorem libsais_align_up_spec (address e : Z) :
  0 <= e ->
  let r := libsais_align_up address (2 ^ e) in
  r mod 2 ^ e = 0 /\ address <= r < address + 2 ^ e.
Proof.
  intros He. cbv zeta. unfold libsais_align_up.
  rewrite land_opp_pow2 by lia.
  assert (Hp : 0 < 2 ^ e) by (apply Z.pow_pos_nonneg; lia).
  split.
  - rewrite Z.mul_comm. apply Z.mod_mul. lia.
  - pose proof (Z.mul_div_le (address + 2 ^ e - 1) (2 ^ e) Hp).
    pose proof (Z.mul_succ_div_gt (address + 2 ^ e - 1) (2 ^ e) Hp). lia.
Qed.

Lemma libsais_align_up_spec_witness :
  0 <= 6 /\
  let r := libsais_align_up 4100 (2 ^ 6) in
  r mod 2 ^ 6 = 0 /\ 4100 <= r < 4100 + 2 ^ 6.
Proof.
  split; [lia|]. apply (libsais_align_up_spec 4100 6). lia.
Defined.




(** ** LMS suffixes of the integer path *)

Lemma gather_lms_suffixes_32s_bound (M : mem) (T SA : ptr) (n : Z) :
  let m := fst (libsais_gather_lms_suffixes_32s M T SA n) in
  0 <= m /\ (0 < m -> 2 * m + 1 <= n).
Proof.
  unfold libsais_gather_lms_suffixes_32s. simpl fst.
  apply (sc_scan_gather_bound (fun _ y => y)); try reflexivity; try lia; auto.
Qed.

(** X9: whatever the memory holds, each scanner of the integer path
    reports a number [m] of LMS suffixes that is never negative and, when
    positive, satisfies [2 * m + 1 <= n]: the reduced text is at most half
    as long as the text. *)
Theorem lms_suffixes_32s_at_most_half (M : mem) (T SA : ptr) (n k : Z) (buckets : ptr) :
  let bounded := fun m => 0 <= m /\ (0 < m -> 2 * m + 1 <= n) in
  bounded (fst (libsais_gather_lms_suffixes_32s M T SA n)) /\
  bounded (fst (libsais_count_and_gather_lms_suffixes_32s_4k M T SA n k buckets)) /\
  bounded (fst (libsais_count_and_gather_lms_suffixes_32s_2k M T SA n k buckets)) /\
  bounded (fst (libsais_radix_sort_lms_suffixes_32s_1k M T SA n buckets)).
Proof.
  cbv zeta beta. split; [|split; [|split]].
  - apply gather_lms_suffixes_32s_bound.
  - apply count_and_gather_lms_suffixes_32s_4k_bound.
  - apply count_and_gather_lms_suffixes_32s_2k_bound.
  - apply radix_sort_lms_suffixes_32s_1k_bound.
Qed.

(** ** Unrolled scans *)

Section UnrolledScans.
Context {St : Type}.
Variable P : Z -> St -> Prop.
Variable step : Z -> St -> St.

Lemma unrolled_up_ind (a n : Z) (c : nat) (i : Z) (s : St) :
  (forall k s, a <= k < n -> P k s -> P (k + 1) (step k s)) ->
  a <= i -> i + Z.of_nat c <= n -> P i s ->
  P (i + Z.of_nat c) (unrolled_up step c i s).
Proof.
  intros Hstep Hi. induction c as [|c IH]; intros Hc Hs.
  - cbn [unrolled_up]. replace (i + Z.of_nat 0) with i by lia. exact Hs.
  - cbn [unrolled_up]. replace (i + Z.of_nat (S c)) with (i + Z.of_nat c + 1) by lia.
    apply Hstep; [lia|]. apply IH; [lia|exact Hs].
Qed.

Lemma unrolled_down_ind (a n : Z) (c : nat) (i : Z) (s : St) :
  (forall k s, a <= k < n -> P k s -> P (k - 1) (step k s)) ->
  i < n -> a - 1 <= i - Z.of_nat c -> P i s ->
  P (i - Z.of_nat c) (unrolled_down step c i s).
Proof.
  intros Hstep Hi. induction c as [|c IH]; intros Hc Hs.
  - cbn [unrolled_down]. replace (i - Z.of_nat 0) with i by lia. exact Hs.
  - cbn [unrolled_down]. replace (i - Z.of_nat (S c)) with (i - Z.of_nat c - 1) by lia.
    apply Hstep; [lia|]. apply IH; [lia|exact Hs].
Qed.

(** An ascending loop unrolled [c] times followed by its remainder loop
    visits every index of [[a, n)] once, in order. *)
Lemma scan_up (c : nat) (a n j1 j2 : Z) (s : St) :
  (1 <= c)%nat -> a <= n -> j1 + Z.of_nat c - 1 <= n -> j2 = n ->
  (forall k s, a <= k < n -> P k s -> P (k + 1) (step k s)) ->
  P a s ->
  let r := for_up (Z.of_nat c) (fun i st => unrolled_up step c i st) a j1 s in
  P n (snd (for_up 1 step (fst r) j2 (snd r))).
Proof.
  intros Hc Han Hj1 -> Hstep H0 r.
  pose (Q := fun k st => k <= n /\ P k st).
  destruct (for_up_ind Q (Z.of_nat c) (fun i st => unrolled_up step c i st) a j1 s
              ltac:(lia) (conj Han H0)) as ((Hle & H2) & Hi2 & Hi2').
  { intros k st Hk [_ Hst]. split; [lia|].
    apply (unrolled_up_ind a n); auto; lia. }
  fold r in Hle, H2, Hi2, Hi2'.
  destruct (for_up_ind P 1 step (fst r) n (snd r) ltac:(lia) H2) as (H1 & Hi1 & Hi1').
  { intros k st Hk Hst. apply Hstep; [|exact Hst].
    split; [|lia].
    destruct (for_up_ind (fun i _ => a <= i) (Z.of_nat c)
                (fun i st => unrolled_up step c i st) a j1 s ltac:(lia) (Z.le_refl a))
      as (Ha & _); [intros; lia|]. fold r in Ha. lia. }
  replace n with (fst (for_up 1 step (fst r) n (snd r))) at 1 by lia. exact H1.
Qed.

(** A descending loop unrolled [c] times followed by its remainder loop
    visits every index of [[a, n)] once, from [n - 1] down to [a]. *)
Lemma scan_down (c : nat) (a n j1 j2 : Z) (s : St) :
  (1 <= c)%nat -> a <= n -> a <= j1 - Z.of_nat c + 1 -> j2 = a ->
  (forall k s, a <= k < n -> P k s -> P (k - 1) (step k s)) ->
  P (n - 1) s ->
  let r := for_down (Z.of_nat c) (fun i st => unrolled_down step c i st) (n - 1) j1 s in
  P (a - 1) (snd (for_down 1 step (fst r) j2 (snd r))).
Proof.
  intros Hc Han Hj1 -> Hstep H0 r.
  pose (Q := fun k st => a - 1 <= k /\ P k st).
  assert (HQ : Q (n - 1) s) by (split; [lia|exact H0]).
  destruct (for_down_ind Q (Z.of_nat c) (fun i st => unrolled_down step c i st) (n - 1) j1 s
              ltac:(lia) HQ) as ((Hle & H2) & Hi2 & Hi2').
  { intros k st Hk [_ Hst]. split; [lia|].
    apply (unrolled_down_ind a n); auto; lia. }
  fold r in Hle, H2, Hi2, Hi2'.
  destruct (for_down_ind P 1 step (fst r) a (snd r) ltac:(lia) H2) as (H1 & Hi1 & Hi1').
  { intros k st Hk Hst. apply Hstep; [|exact Hst].
    split; [lia|].
    destruct (for_down_ind (fun i _ => i <= n - 1) (Z.of_nat c)
                (fun i st => unrolled_down step c i st) (n - 1) j1 s ltac:(lia)
                (Z.le_refl (n - 1))) as (Ha & _); [intros; lia|]. fold r in Ha. lia. }
  replace (a - 1) with (fst (for_down 1 step (fst r) a (snd r))) at 1 by lia. exact H1.
Qed.

End UnrolledScans.

(** ** Names of the byte path *)

Lemma negative_cells_cons (SA : list Z) (a b : Z) :
  0 <= a < b ->
  negative_cells SA a b
  = if rd SA a <? 0 then a :: negative_cells SA (a + 1) b else negative_cells SA (a + 1) b.
Proof.
  intros H. unfold negative_cells. rewrite positions_from_cons by lia. reflexivity.
Qed.

Lemma negative_cells_length (SA : list Z) (a b : Z) :
  0 <= a <= b -> Z.of_nat (length (negative_cells SA a b)) <= b - a.
Proof.
  intros H. rewrite <- positions_from_length by lia.
  unfold negative_cells. apply inj_le, filter_length_le.
Qed.

Lemma negative_cells_ext (SA SA' : list Z) (a b : Z) :
  0 <= a -> (forall j, a <= j < b -> rd SA' j = rd SA j) ->
  negative_cells SA' a b = negative_cells SA a b.
Proof.
  intros Ha H. unfold negative_cells. apply filter_ext_in.
  intros j Hj. apply In_positions_from in Hj; [|lia]. rewrite H by lia. reflexivity.
Qed.

Lemma land_INT_MAX_nonneg (p : Z) : 0 <= Z.land p INT_MAX.
Proof. apply Z.land_nonneg. right. vm_compute. discriminate. Qed.

Lemma renumber_lms_suffixes_8u_count (SA : list Z) (m name : Z) :
  0 <= m ->
  let r := libsais_renumber_lms_suffixes_8u SA m name 0 m in
  fst r = name + Z.of_nat (length (negative_cells SA 0 m)) /\
  (forall j, j < m -> rd (snd r) j = rd SA j).
Proof.
  intros Hm. unfold libsais_renumber_lms_suffixes_8u. cbv zeta.
  pose (P := fun (k : Z) (st : list Z * Z) =>
    snd st + Z.of_nat (length (negative_cells SA k m))
    = name + Z.of_nat (length (negative_cells SA 0 m))
    /\ forall j, j < m -> rd (fst st) j = rd SA j).
  pose proof (scan_up P (renumber8_step m) 4 0 m (0 + m - 32 - 3) (0 + m - 32 - 3 + (32 + 3))
                (SA, name) ltac:(lia) Hm ltac:(lia) ltac:(lia)) as H.
  cbv zeta in H. cbn [unrolled_up Z.of_nat Pos.of_succ_nat Pos.succ] in H.
  destruct (for_up 4 _ 0 (0 + m - 32 - 3) (SA, name)) as [i2 st2].
  cbn [fst snd] in H.
  destruct (for_up 1 (renumber8_step m) i2 _ st2) as [i1 [SA1 name1]].
  cbn [fst snd] in *.
  destruct H as [Hc Hf].
  - intros k [SA0 nm] Hk [Hcount Hframe]. cbn [fst snd] in *.
    unfold P, renumber8_step. cbn [fst snd]. split.
    + rewrite (negative_cells_cons SA k m) in Hcount by lia.
      rewrite Hframe by lia.
      destruct (rd SA k <? 0); cbn [length b2z] in *; lia.
    + intros j Hj. rewrite rd_wr_other; [apply Hframe, Hj|].
      pose proof (land_INT_MAX_nonneg (rd SA0 k)).
      pose proof (Z.shiftr_nonneg (Z.land (rd SA0 k) INT_MAX) 1). lia.
  - split; [reflexivity|auto].
  - unfold negative_cells in Hc at 1. rewrite positions_from_nil in Hc by lia.
    cbn [filter length fst snd] in Hc, Hf. split; [lia|exact Hf].
Qed.

Lemma unmark_loop (SA : list Z) (m : Z) :
  0 <= m ->
  let SA' := snd (for_up 1 (fun i SA => wr SA i (Z.land (rd SA i) INT_MAX)) 0 m SA) in
  forall j, 0 <= j < m -> rd SA' j = Z.land (rd SA j) INT_MAX.
Proof.
  intros Hm. cbv zeta.
  pose (P := fun (k : Z) (S : list Z) =>
    length S = length SA /\
    (forall j, 0 <= j < k -> rd S j = Z.land (rd SA j) INT_MAX) /\
    (forall j, k <= j -> rd S j = rd SA j)).
  destruct (for_up_ind P 1 (fun i SA => wr SA i (Z.land (rd SA i) INT_MAX)) 0 m SA
              ltac:(lia)) as ((_ & Hin & _) & Hge & Hlt).
  - split; [reflexivity|]. split; [intros; lia|reflexivity].
  - intros k S Hk (Hlen & Hin & Hout). split; [|split].
    + rewrite wr_length. exact Hlen.
    + intros j Hj. destruct (Z.eq_dec j k) as [->|Hne].
      * destruct (Z_lt_ge_dec k (Z.of_nat (length S))).
        -- rewrite rd_wr_same by lia. rewrite Hout by lia. reflexivity.
        -- rewrite wr_out by lia. rewrite Hout by lia.
           rewrite (rd_out SA) by lia. reflexivity.
      * rewrite rd_wr_other by lia. apply Hin. lia.
    + intros j Hj. rewrite rd_wr_other by lia. apply Hout. lia.
  - intros j Hj. apply Hin. lia.
Qed.

(** X10: the namer of the byte path: the number of names that
    [libsais_renumber_and_gather_lms_suffixes_8u_omp] returns is the number
    of marked (negative) cells among [SA[0 .. m)], hence between 0 and
    [m]; when it is [m], all names being distinct, the function leaves in
    [SA[0 .. m)] the same suffixes with their marks removed. *)
Theorem renumber_and_gather_lms_suffixes_8u_omp_names (SA : list Z) (n m fs threads : Z) :
  0 <= m ->
  let r := libsais_renumber_and_gather_lms_suffixes_8u_omp SA n m fs threads in
  fst r = Z.of_nat (length (negative_cells SA 0 m)) /\
  0 <= fst r <= m /\
  (fst r = m -> forall j, 0 <= j < m -> rd (snd r) j = Z.land (rd SA j) INT_MAX).
Proof.
  intros Hm. cbv zeta.
  unfold libsais_renumber_and_gather_lms_suffixes_8u_omp, libsais_renumber_lms_suffixes_8u_omp.
  cbv zeta. change (0 <? 1 - 1) with false. cbv iota.
  change (0 * Z.land (m / 1) (-16)) with 0. replace (m - 0) with m by lia.
  destruct (renumber_lms_suffixes_8u_count (memset0 SA m (Z.shiftr n 1)) m 0 Hm)
    as [Hc Hf].
  cbv zeta in Hc, Hf.
  destruct (libsais_renumber_lms_suffixes_8u _ m 0 0 m) as [name SA1].
  cbn [fst snd] in Hc, Hf.
  assert (Hcnt : name = Z.of_nat (length (negative_cells SA 0 m))).
  { rewrite Hc. rewrite (negative_cells_ext SA (memset0 SA m (Z.shiftr n 1))); [lia|lia|].
    intros j Hj. apply rd_memset0_out. lia. }
  pose proof (negative_cells_length SA 0 m ltac:(lia)) as Hle.
  destruct (Z.ltb_spec name m) as [Hlt|Hge]; cbn [fst snd].
  - split; [exact Hcnt|]. split; [lia|]. intros E. lia.
  - split; [exact Hcnt|]. split; [lia|]. intros _ j Hj.
    rewrite (unmark_loop SA1 m Hm j Hj). rewrite Hf by lia.
    rewrite rd_memset0_out by lia. reflexivity.
Qed.

Lemma renumber_and_gather_lms_suffixes_8u_omp_names_witness :
  0 <= 2 /\
  let SA := [5; -2147483647; 0; 0; 0; 0] in
  let r := libsais_renumber_and_gather_lms_suffixes_8u_omp SA 6 2 0 1 in
  fst r = Z.of_nat (length (negative_cells SA 0 2)) /\
  0 <= fst r <= 2 /\
  (fst r = 2 -> forall j, 0 <= j < 2 -> rd (snd r) j = Z.land (rd SA j) INT_MAX).
Proof.
  split; [lia|].
  apply (renumber_and_gather_lms_suffixes_8u_omp_names [5; -2147483647; 0; 0; 0; 0] 6 2 0 1).
  lia.
Defined.

(** ** Names and unique suffixes of the integer path *)

Lemma renumber_distinct_lms_suffixes_32s_4k_bound (M : mem) (SA : ptr) (m name : Z) :
  0 <= m ->
  let r := libsais_renumber_distinct_lms_suffixes_32s_4k M SA m name 0 m in
  name <= fst r <= name + m.
Proof.
  intros Hm. unfold libsais_renumber_distinct_lms_suffixes_32s_4k. cbv zeta.
  pose (P := fun (k : Z) (x : mem * Z * Z) => name <= snd (fst x) <= name + k).
  pose proof (scan_up P (renumber_distinct_4k_step SA m) 4 0 m (0 + m - 32 - 3)
                (0 + m - 32 - 3 + (32 + 3)) (M, name, 0) ltac:(lia) Hm ltac:(lia) ltac:(lia))
    as H.
  cbv zeta in H. cbn [unrolled_up Z.of_nat Pos.of_succ_nat Pos.succ] in H.
  destruct (for_up 4 _ 0 (0 + m - 32 - 3) (M, name, 0)) as [i2 x2].
  cbn [fst snd] in H.
  destruct (for_up 1 (renumber_distinct_4k_step SA m) i2 _ x2) as [i1 [[M1 name1] prev1]].
  cbn [fst snd] in *. apply H.
  - intros k [[M0 nm] prev] Hk HP. unfold P, renumber_distinct_4k_step in *.
    cbn [fst snd] in *. destruct (ld M0 SA k <? 0); cbn [b2z]; lia.
  - unfold P. cbn [fst snd]. lia.
Qed.

Lemma namer_1k_step_name (T SA : ptr) (m i : Z) (x : namer_state) :
  let name := fun y : namer_state => snd (fst (fst (fst y))) in
  name x <= name (namer_1k_step T SA m i x) <= name x + 1.
Proof.
  destruct x as [[[[M nm] p] plen] pdiff]. unfold namer_1k_step. cbn [fst snd].
  match goal with |- context [b2z ?c] => destruct c end; cbn [b2z]; lia.
Qed.

(** X11: the namers of the integer path never return more names than
    there are LMS suffixes: for [m >= 1] suffixes both
    [libsais_renumber_and_mark_distinct_lms_suffixes_32s_4k_omp] and
    [libsais_renumber_and_mark_distinct_lms_suffixes_32s_1k] return a
    number of names between 0 and [m] (at least 1 for the latter), so the
    test [names < m] that guards the recursion is the only case besides
    [names = m]. *)
Theorem renumber_and_mark_distinct_lms_suffixes_32s_names (M : mem) (T SA : ptr)
    (n m threads : Z) :
  1 <= m ->
  0 <= fst (libsais_renumber_and_mark_distinct_lms_suffixes_32s_4k_omp M SA n m threads) <= m
  /\ 1 <= fst (libsais_renumber_and_mark_distinct_lms_suffixes_32s_1k M T SA n m) <= m.
Proof.
  intros Hm. split.
  - unfold libsais_renumber_and_mark_distinct_lms_suffixes_32s_4k_omp,
      libsais_renumber_distinct_lms_suffixes_32s_4k_omp.
    cbv zeta. change (0 <? 1 - 1) with false. cbv iota.
    change (0 * Z.land (m / 1) (-16)) with 0. replace (m - 0) with m by lia.
    pose proof (renumber_distinct_lms_suffixes_32s_4k_bound
                  (memset0_m M SA m (Z.shiftr n 1)) SA m 1 ltac:(lia)) as H.
    cbv zeta in H.
    destruct (libsais_renumber_distinct_lms_suffixes_32s_4k _ SA m 1 0 m) as [name M1].
    cbn [fst] in H. destruct (name - 1 <? m); cbn [fst]; lia.
  - unfold libsais_renumber_and_mark_distinct_lms_suffixes_32s_1k. cbv zeta.
    repeat match goal with
    | |- context [for_up 4 ?b ?i ?j ?s] =>
        let i4 := fresh "i4" in let s4 := fresh "M4" in
        destruct (for_up 4 b i j s) as [i4 s4]
    end.
    match goal with |- context [for_up 2 ?b 1 ?j ?s] =>
      pose (P := fun (k : Z) (x : namer_state) => 1 <= snd (fst (fst (fst x))) <= k);
      pose proof (scan_up P (namer_1k_step T SA m) 2 1 m j (j + (32 + 1)) s
                    ltac:(lia) Hm ltac:(lia) ltac:(lia)) as H
    end.
    cbv zeta in H. cbn [unrolled_up Z.of_nat Pos.of_succ_nat Pos.succ] in H.
    match goal with |- context [for_up 2 ?b 1 ?j ?s] =>
      destruct (for_up 2 b 1 j s) as [i2 x2]
    end.
    cbn [fst snd] in H.
    match goal with |- context [for_up 1 ?b i2 ?j x2] =>
      destruct (for_up 1 b i2 j x2) as [i1 [[[[M1 name1] p1] plen1] pdiff1]]
    end.
    cbn [fst snd] in H.
    assert (HP : 1 <= name1 <= m).
    { apply H.
      - intros k x Hk HP. unfold P in *.
        pose proof (namer_1k_step_name T SA m k x) as Hs. cbv beta zeta in Hs. lia.
      - unfold P. cbn [fst snd]. lia. }
    cbn [fst]. lia.
Qed.

Lemma renumber_and_mark_distinct_lms_suffixes_32s_names_witness :
  1 <= 2 /\
  0 <= fst (libsais_renumber_and_mark_distinct_lms_suffixes_32s_4k_omp
              (mk_mem [-2147483647; -2147483645; 0; 0; 0; 0; 1; 0; 1; 0; 2; 0] []) SA0 6 2 1) <= 2
  /\ 1 <= fst (libsais_renumber_and_mark_distinct_lms_suffixes_32s_1k
                 (mk_mem [-2147483647; -2147483645; 0; 0; 0; 0; 1; 0; 1; 0; 2; 0] []) (PSA 6) SA0 6 2) <= 2.
Proof.
  split; [lia|].
  apply (renumber_and_mark_distinct_lms_suffixes_32s_names
           (mk_mem _ []) (PSA 6) SA0 6 2 1). lia.
Defined.

(** X12: the compaction removes at most all of the [m] LMS suffixes from
    the reduced problem: the number [f] of unique suffixes that
    [libsais_compact_lms_suffixes_32s_omp] returns satisfies
    [0 <= f <= m], so the length [m - f] of the text handed to the next
    level is never negative. *)
Theorem compact_lms_suffixes_32s_omp_unique (M : mem) (T SA : ptr) (n m fs threads : Z) :
  0 <= m ->
  0 <= fst (libsais_compact_lms_suffixes_32s_omp M T SA n m fs threads) <= m.
Proof.
  intros Hm. unfold libsais_compact_lms_suffixes_32s_omp,
    libsais_renumber_unique_and_nonunique_lms_suffixes_32s_omp.
  cbv zeta. change (0 <? 1 - 1) with false. cbv iota.
  change (0 * Z.land (m / 1) (-16)) with 0. replace (m - 0) with m by lia.
  unfold libsais_renumber_unique_and_nonunique_lms_suffixes_32s. cbv zeta.
  pose (P := fun (k : Z) (x : mem * Z) => 0 <= snd x <= k).
  pose proof (scan_up P (renumber_unique_step T SA m) 4 0 m (0 + m - 2 * 32 - 3)
                (0 + m - 2 * 32 - 3 + (2 * 32 + 3)) (M, 0) ltac:(lia) Hm ltac:(lia) ltac:(lia))
    as H.
  cbv zeta in H. cbn [unrolled_up Z.of_nat Pos.of_succ_nat Pos.succ] in H.
  destruct (for_up 4 _ 0 (0 + m - 2 * 32 - 3) (M, 0)) as [i2 x2].
  cbn [fst snd] in H.
  destruct (for_up 1 (renumber_unique_step T SA m) i2 _ x2) as [i1 [M1 f]].
  cbn [fst snd] in *. apply H.
  - intros k [M0 f0] Hk HP. unfold P, renumber_unique_step in *. cbn [fst snd] in *.
    match goal with |- context [if ?c then _ else _] => destruct c end; cbn [snd]; lia.
  - unfold P. cbn [snd]. lia.
Qed.

Lemma compact_lms_suffixes_32s_omp_unique_witness :
  0 <= 2 /\
  0 <= fst (libsais_compact_lms_suffixes_32s_omp
              (mk_mem [1; 3; -2147483647; 1; 0; 0; 1; 0; 1; 0; 2; 0] []) (PSA 6) SA0 6 2 0 1) <= 2.
Proof.
  split; [lia|].
  apply (compact_lms_suffixes_32s_omp_unique (mk_mem _ []) (PSA 6) SA0 6 2 0 1). lia.
Defined.

(** ** From ranks to suffixes *)

Lemma for_down_simulation {A B : Type} (proj : A -> B) (step : Z)
    (bodyA : Z -> A -> A) (bodyB : Z -> B -> B) :
  (forall i s, proj (bodyA i s) = bodyB i (proj s)) ->
  forall i j s,
    fst (for_down step bodyB i j (proj s)) = fst (for_down step bodyA i j s) /\
    snd (for_down step bodyB i j (proj s)) = proj (snd (for_down step bodyA i j s)).
Proof.
  intros H i j s. unfold for_down. generalize (Z.to_nat (i - j + 1)) as fuel.
  intros fuel. revert i s. induction fuel as [|fuel IH]; intros i s; simpl.
  - auto.
  - destruct (j <=? i); [|auto]. rewrite <- H. apply IH.
Qed.

(** The gathering scan is the counting scan without its table. *)
Lemma gather_lms_suffixes_8u_eq (T SA buckets : list Z) (n : Z) :
  1 <= n ->
  libsais_gather_lms_suffixes_8u T SA n (n - 1) 0 n
  = snd (fst (libsais_count_and_gather_lms_suffixes_8u T SA n buckets 0 n)).
Proof.
  intros Hn.
  unfold libsais_gather_lms_suffixes_8u, libsais_count_and_gather_lms_suffixes_8u.
  destruct (Z.ltb_spec 0 n) as [_|]; [|lia].
  replace (0 + n - 1) with (n - 1) by lia. replace (0 + n - 2) with (n - 1 - 1) by lia.
  replace (0 + n) with n by lia.
  replace (n - (n - 1 + 1)) with 0 by lia. replace (n - n) with 0 by lia.
  replace (n - 1 + 1) with n by lia.
  change (Z.to_nat 0) with O. cbn [skip_equal]. cbv zeta.
  set (B0 := memset0 buckets 0 (4 * ALPHABET_SIZE)).
  set (proj := fun st : cg_state =>
    mk_g (cg_SA st) (cg_m st) (cg_s st) (cg_c0 st) (cg_c1 st)).
  set (a0 := mk_cg SA B0 (n - 1) (b2z (-1 <=? rd T (n - 1))) (rd T (n - 1)) (-1)).
  change (mk_g SA (n - 1) (b2z (-1 <=? rd T (n - 1))) (rd T (n - 1)) (-1)) with (proj a0).
  match goal with |- context [for_down 4 ?bB _ _ (proj a0)] =>
    match goal with |- context [for_down 4 ?bA _ _ a0] =>
      destruct (for_down_simulation proj 4 bA bB ltac:(intros; reflexivity)
                  (n - 1 - 1) (0 + 3) a0) as [E1 E2]
    end
  end.
  destruct (for_down 4 _ (n - 1 - 1) (0 + 3) (proj a0)) as [iB stB].
  destruct (for_down 4 _ (n - 1 - 1) (0 + 3) a0) as [iA stA].
  cbn [fst snd] in E1, E2. subst iB stB.
  match goal with |- context [for_down 1 ?bB iA 0 (proj stA)] =>
    match goal with |- context [for_down 1 ?bA iA 0 stA] =>
      destruct (for_down_simulation proj 1 bA bB ltac:(intros; reflexivity) iA 0 stA)
        as [E1 E2]
    end
  end.
  destruct (for_down 1 _ iA 0 (proj stA)) as [iB stB].
  destruct (for_down 1 _ iA 0 stA) as [iA' stA'].
  cbn [fst snd] in E1, E2. subst iB stB. reflexivity.
Qed.

Lemma cg8_read_c1_frame (T SA0 : list Z) (i pos : Z) (st : cg_state) :
  (forall j, j < cg_m st -> rd (cg_SA st) j = rd SA0 j) ->
  forall j, j < cg_m (cg8_read_c1 T i pos st) -> rd (cg_SA (cg8_read_c1 T i pos st)) j = rd SA0 j.
Proof.
  intros H j. unfold cg8_read_c1. cbn [cg_m cg_SA]. intros Hj.
  rewrite rd_wr_other; [apply H|];
    match goal with
    | Hj : j < _ - b2z ?c |- _ => destruct c; cbn [b2z] in Hj; lia
    end.
Qed.

Lemma cg8_read_c0_frame (T SA0 : list Z) (i pos : Z) (st : cg_state) :
  (forall j, j < cg_m st -> rd (cg_SA st) j = rd SA0 j) ->
  forall j, j < cg_m (cg8_read_c0 T i pos st) -> rd (cg_SA (cg8_read_c0 T i pos st)) j = rd SA0 j.
Proof.
  intros H j. unfold cg8_read_c0. cbn [cg_m cg_SA]. intros Hj.
  rewrite rd_wr_other; [apply H|];
    match goal with
    | Hj : j < _ - b2z ?c |- _ => destruct c; cbn [b2z] in Hj; lia
    end.
Qed.

(** The scanner writes at its cursor and above only. *)
Lemma count_and_gather_lms_suffixes_8u_frame (T SA buckets : list Z) (n : Z) :
  1 <= n ->
  let r := libsais_count_and_gather_lms_suffixes_8u T SA n buckets 0 n in
  forall j, j < n - 1 - fst (fst r) -> rd (snd (fst r)) j = rd SA j.
Proof.
  intros Hn. unfold libsais_count_and_gather_lms_suffixes_8u.
  destruct (Z.ltb_spec 0 n) as [_|]; [|lia]. cbv zeta.
  destruct (skip_equal _ _ _ _ _ _) as [j0 c1].
  set (P := fun st : cg_state => forall j, j < cg_m st -> rd (cg_SA st) j = rd SA j).
  match goal with |- context [for_down 4 ?b ?i ?j ?s] =>
    pose proof (for_down_inv P 4 b i j s) as H4;
    destruct (for_down 4 b i j s) as [i4 st4]
  end.
  cbn [snd] in H4.
  match goal with |- context [for_down 1 ?b i4 ?j st4] =>
    pose proof (for_down_inv P 1 b i4 j st4) as H1;
    destruct (for_down 1 b i4 j st4) as [i1 st1]
  end.
  cbn [fst snd] in *.
  assert (HP : P st1).
  { apply H1.
    - intros k st Hst. unfold P in *. apply cg8_read_c0_frame. exact Hst.
    - apply H4.
      + intros k st Hst. unfold P in *.
        apply cg8_read_c0_frame, cg8_read_c1_frame, cg8_read_c0_frame, cg8_read_c1_frame.
        exact Hst.
      + unfold P. cbn [cg_m cg_SA]. reflexivity. }
  intros j Hj. rewrite rd_wr_other; [apply HP|];
    match goal with
    | Hj : j < _ - (_ - (_ - b2z ?c)) |- _ => destruct c; cbn [b2z] in Hj; lia
    end.
Qed.

Lemma reconstruct_lms_suffixes_omp_spec (SA : list Z) (n m threads : Z) :
  0 <= m ->
  (forall i, 0 <= i < m -> m <= n - m + rd SA i) ->
  let SA' := libsais_reconstruct_lms_suffixes_omp SA n m threads in
  length SA' = length SA /\
  (forall i, 0 <= i < m -> rd SA' i = rd SA (n - m + rd SA i)) /\
  (forall j, m <= j -> rd SA' j = rd SA j).
Proof.
  intros Hm Hsrc. cbv zeta.
  unfold libsais_reconstruct_lms_suffixes_omp, libsais_reconstruct_lms_suffixes. cbv zeta.
  pose (P := fun (k : Z) (S : list Z) =>
    length S = length SA /\
    (forall i, 0 <= i < k -> rd S i = rd SA (n - m + rd SA i)) /\
    (forall j, k <= j -> rd S j = rd SA j)).
  pose proof (scan_up P (reconstruct_step n m) 4 0 m (0 + m - 32 - 3)
                (0 + m - 32 - 3 + (32 + 3)) SA ltac:(lia) Hm ltac:(lia) ltac:(lia)) as H.
  cbv zeta in H. cbn [unrolled_up Z.of_nat Pos.of_succ_nat Pos.succ] in H.
  destruct (for_up 4 _ 0 (0 + m - 32 - 3) SA) as [i2 S2].
  cbn [fst snd] in H.
  destruct H as (Hl & Hin & Hout).
  - intros k S Hk (Hlen & Hin & Hout). unfold reconstruct_step.
    rewrite (Hout k) by lia. rewrite (Hout (n - m + rd SA k)) by (specialize (Hsrc k); lia).
    split; [|split].
    + rewrite wr_length. exact Hlen.
    + intros i Hi. destruct (Z.eq_dec i k) as [->|Hne].
      * destruct (Z_lt_ge_dec k (Z.of_nat (length S))).
        -- rewrite rd_wr_same by lia. reflexivity.
        -- rewrite wr_out by lia. rewrite Hout by lia.
           assert (E0 : rd SA k = 0) by (apply rd_out; lia).
           pose proof (Hsrc k ltac:(lia)) as Hk'. rewrite E0 in Hk' |- *.
           rewrite (rd_out SA) by lia. reflexivity.
      * rewrite rd_wr_other by lia. apply Hin. lia.
    + intros j Hj. rewrite rd_wr_other by lia. apply Hout. lia.
  - split; [reflexivity|]. split; [intros; lia|reflexivity].
  - split; [exact Hl|]. split; [exact Hin|exact Hout].
Qed.

(** ** From ranks back to suffixes *)

(** What the gathering pass of the byte driver leaves in [SA]. *)
Lemma gather_lms_suffixes_8u_omp_cells (T SA : list Z) (n threads : Z) :
  byte_text T -> Z.of_nat (length T) = n -> 1 <= n -> n <= Z.of_nat (length SA) ->
  let m := Z.of_nat (length (LMS_positions T)) in
  let SA1 := libsais_gather_lms_suffixes_8u_omp T SA n threads in
  length SA1 = length SA /\
  (forall q, (q < length (LMS_positions T))%nat ->
     rd SA1 (n - m + Z.of_nat q) = nth q (LMS_positions T) 0) /\
  (forall j, j < n - 1 - m -> rd SA1 j = rd SA j).
Proof.
  intros HT Hlen Hn HSA m.
  assert (Eg : libsais_gather_lms_suffixes_8u_omp T SA n threads
               = libsais_gather_lms_suffixes_8u T SA n (n - 1) 0 n).
  { unfold libsais_gather_lms_suffixes_8u_omp. cbv zeta.
    change (0 <? 1 - 1) with false. cbv iota.
    rewrite Z.mul_0_l, Z.sub_0_r. reflexivity. }
  cbv zeta. rewrite Eg.
  rewrite (gather_lms_suffixes_8u_eq T SA (repeat 0 1024%nat) n Hn).
  pose proof (count_and_gather_lms_suffixes_8u_frame T SA (repeat 0 1024%nat) n Hn) as Hfr.
  destruct (count_and_gather_lms_suffixes_8u_inv T SA (repeat 0 1024%nat) n HT Hlen Hn HSA
              ltac:(vm_compute; discriminate))
    as (SA1 & B1 & m1 & s1 & prev & E & Hinv).
  rewrite E in Hfr |- *. cbv zeta in Hfr. cbn [fst snd] in Hfr |- *.
  destruct Hinv as [_ _ Hm1 HlenSA Hcells _ _].
  change (-2 + 2) with 0 in *. fold (LMS_positions T) in *. fold m in Hm1.
  split; [exact HlenSA|]. split.
  - intros q Hq. replace (n - m + Z.of_nat q) with (m1 + 1 + Z.of_nat q) by lia.
    apply Hcells, Hq.
  - intros j Hj. apply Hfr. lia.
Qed.

(** X13: the gathering pass of the byte driver writes the LMS positions of
    [T], in text order, to [SA[n - m .. n)], where [m] is their number,
    and leaves every cell below [n - 1 - m] as it was. *)
Theorem gather_lms_suffixes_8u_omp_spec (T SA : list Z) (n threads : Z) :
  byte_text T -> Z.of_nat (length T) = n -> 1 <= n -> n <= Z.of_nat (length SA) ->
  let m := Z.of_nat (length (LMS_positions T)) in
  let SA' := libsais_gather_lms_suffixes_8u_omp T SA n threads in
  slice SA' (n - m) m = LMS_positions T /\
  (forall j, j < n - 1 - m -> rd SA' j = rd SA j).
Proof.
  intros HT Hlen Hn HSA m SA'.
  destruct (gather_lms_suffixes_8u_omp_cells T SA n threads HT Hlen Hn HSA)
    as (_ & Hcells & Hfr).
  split; [|exact Hfr].
  apply slice_of_rd, Hcells.
Qed.

Lemma gather_lms_suffixes_8u_omp_spec_witness :
  let SA' := libsais_gather_lms_suffixes_8u_omp banana [9; 8; 7; 7; 7; 7] 6 1 in
  slice SA' (6 - 2) 2 = LMS_positions banana /\
  (forall j, j < 6 - 1 - 2 -> rd SA' j = rd [9; 8; 7; 7; 7; 7] j).
Proof.
  apply (gather_lms_suffixes_8u_omp_spec banana [9; 8; 7; 7; 7; 7] 6 1).
  - repeat constructor; vm_compute; discriminate.
  - reflexivity.
  - lia.
  - vm_compute; discriminate.
Defined.

(** X14: in the byte driver, after the reduced problem is solved the cells
    [SA[0 .. m)] hold ranks among the [m] LMS suffixes of [T].  Gathering
    the LMS positions again and reconstructing replaces each rank [r] by
    the [r]-th LMS position of [T] in text order; the gathering does not
    disturb the ranks because [2 * m + 1 <= n]. *)
Theorem gather_and_reconstruct_lms_suffixes (T SA : list Z) (n threads : Z) :
  byte_text T -> Z.of_nat (length T) = n -> 1 <= n -> n <= Z.of_nat (length SA) ->
  let m := Z.of_nat (length (LMS_positions T)) in
  (forall i, 0 <= i < m -> 0 <= rd SA i < m) ->
  let SA' := libsais_reconstruct_lms_suffixes_omp
               (libsais_gather_lms_suffixes_8u_omp T SA n threads) n m threads in
  length SA' = length SA /\
  forall i, 0 <= i < m -> rd SA' i = nth (Z.to_nat (rd SA i)) (LMS_positions T) 0.
Proof.
  intros HT Hlen Hn HSA m Hranks.
  assert (Hhalf : 2 * m + 1 <= n).
  { subst m n. apply LMS_positions_half. lia. }
  destruct (gather_lms_suffixes_8u_omp_cells T SA n threads HT Hlen Hn HSA)
    as (HlenSA & Hcells & Hfr).
  fold m in Hcells, Hfr.
  set (SA1 := libsais_gather_lms_suffixes_8u_omp T SA n threads) in *.
  destruct (reconstruct_lms_suffixes_omp_spec SA1 n m threads ltac:(lia)) as (Hl & Hin & _).
  { intros i Hi. rewrite Hfr by lia. specialize (Hranks i Hi). lia. }
  cbv zeta. split.
  { cbv zeta in Hl. rewrite Hl. exact HlenSA. }
  intros i Hi. rewrite (Hin i Hi). rewrite (Hfr i) by lia.
  specialize (Hranks i Hi).
  replace (n - m + rd SA i) with (n - m + Z.of_nat (Z.to_nat (rd SA i))) by lia.
  apply Hcells. lia.
Qed.

Lemma gather_and_reconstruct_lms_suffixes_witness :
  let T := banana in
  let SA := [1; 0; 7; 7; 7; 7] in
  let SA' := libsais_reconstruct_lms_suffixes_omp
               (libsais_gather_lms_suffixes_8u_omp T SA 6 1) 6 2 1 in
  length SA' = length SA /\
  forall i, 0 <= i < 2 -> rd SA' i = nth (Z.to_nat (rd SA i)) (LMS_positions T) 0.
Proof.
  apply (gather_and_reconstruct_lms_suffixes banana [1; 0; 7; 7; 7; 7] 6 1).
  - repeat constructor; vm_compute; discriminate.
  - reflexivity.
  - lia.
  - vm_compute; discriminate.
  - intros i Hi. change (Z.of_nat (length (LMS_positions banana))) with 2 in Hi.
    assert (i = 0 \/ i = 1) as [-> | ->] by lia; vm_compute; split; congruence.
Defined.

(** ** Bucket borders of the byte path *)

(** X15: from the counts of the type scanner,
    [libsais_initialize_buckets_start_and_end_8u] derives the borders of
    the buckets: for each symbol [c], cell [6 * 256 + c] is the number of
    positions of [T] with a smaller symbol, and cell [7 * 256 + c] the
    number of positions with a symbol up to [c]; the counts themselves
    stay in place. *)
Theorem bucket_borders_8u (T SA buckets : list Z) (n threads : Z) :
  byte_text T -> Z.of_nat (length T) = n -> 1 <= n ->
  n <= Z.of_nat (length SA) -> 8 * ALPHABET_SIZE <= Z.of_nat (length buckets) ->
  let B1 := snd (libsais_count_and_gather_lms_suffixes_8u_omp T SA n buckets threads) in
  let B' := libsais_initialize_buckets_start_and_end_8u B1 in
  (forall idx, 0 <= idx < 6 * ALPHABET_SIZE -> rd B' idx = rd B1 idx) /\
  (forall c, 0 <= c < ALPHABET_SIZE ->
     rd B' (6 * ALPHABET_SIZE + c) = prefix_sum (occurrences_from T 0) (Z.to_nat c) /\
     rd B' (7 * ALPHABET_SIZE + c) = prefix_sum (occurrences_from T 0) (Z.to_nat (c + 1))).
Proof.
  intros HT Hlen Hn HSA HB.
  rewrite count_and_gather_lms_suffixes_8u_omp_eq.
  destruct (count_and_gather_lms_suffixes_8u_inv T SA buckets n HT Hlen Hn HSA
              ltac:(unfold ALPHABET_SIZE in *; lia))
    as (SA1 & B1 & m & s & prev & -> & Hinv).
  cbn [snd]. cbv zeta.
  destruct Hinv as [_ _ _ _ _ HlB1 HB1].
  change (-2 + 2) with 0 in *.
  destruct (initialize_buckets_start_and_end_8u_spec B1 (occurrences_from T 0))
    as (_ & Hkeep & Hborders).
  - rewrite HlB1. exact HB.
  - intros j Hj. rewrite !HB1 by (rewrite BUCKETS_INDEX4_eq; unfold ALPHABET_SIZE in *; lia).
    apply filed_from_sum.
  - split; [exact Hkeep|exact Hborders].
Qed.

Lemma bucket_borders_8u_witness :
  let B1 := snd (libsais_count_and_gather_lms_suffixes_8u_omp banana (repeat 0 6%nat) 6
                   (repeat 7 2048%nat) 1) in
  let B' := libsais_initialize_buckets_start_and_end_8u B1 in
  (forall idx, 0 <= idx < 6 * ALPHABET_SIZE -> rd B' idx = rd B1 idx) /\
  (forall c, 0 <= c < ALPHABET_SIZE ->
     rd B' (6 * ALPHABET_SIZE + c) = prefix_sum (occurrences_from banana 0) (Z.to_nat c) /\
     rd B' (7 * ALPHABET_SIZE + c)
     = prefix_sum (occurrences_from banana 0) (Z.to_nat (c + 1))).
Proof.
  apply (bucket_borders_8u banana (repeat 0 6%nat) (repeat 7 2048%nat) 6 1).
  - repeat constructor; vm_compute; discriminate.
  - reflexivity.
  - lia.
  - vm_compute; discriminate.
  - vm_compute; discriminate.
Defined.

(** ** The entry points *)

(** X16: [libsais] returns -1 exactly when an argument violates the
    contract (a [NULL] pointer, [n < 0] or [fs < 0]), and then [SA] is
    as it was. *)
Theorem libsais_minus_one_iff (malloc_ok : nat -> bool) (malloc_junk : nat -> Z -> Z)
    (SA_addr : Z) (T SA : option (list Z)) (n fs r : Z) (SA' : option (list Z)) :
  libsais malloc_ok malloc_junk SA_addr T SA n fs = Some (r, SA') ->
  (r = -1 <-> T = None \/ SA = None \/ n < 0 \/ fs < 0) /\ (r = -1 -> SA' = SA).
Proof.
  intros E.
  assert (Hbad : T = None \/ SA = None \/ n < 0 \/ fs < 0 -> r = -1 /\ SA' = SA).
  { intros H. rewrite (libsais_argument_error malloc_ok malloc_junk SA_addr T SA n fs H) in E.
    injection E as <- <-. auto. }
  assert (Hgood : r = -1 -> T = None \/ SA = None \/ n < 0 \/ fs < 0).
  { intros ->. destruct T as [T|]; [|auto]. destruct SA as [SA|]; [|auto].
    destruct (Z_lt_ge_dec n 0); [auto|]. destruct (Z_lt_ge_dec fs 0); [auto|].
    apply libsais_valid_result in E; lia. }
  split; [split|]; [exact Hgood|apply Hbad|].
  intros Hr. apply Hbad, Hgood, Hr.
Qed.

Lemma libsais_minus_one_iff_witness :
  (-1 = -1 <-> Some banana = None \/ Some [7; 7] = None \/ -3 < 0 \/ 0 < 0)
  /\ (-1 = -1 -> Some [7; 7] = Some [7; 7]).
Proof.
  apply (libsais_minus_one_iff malloc_always junk_zero 4096 (Some banana) (Some [7; 7])
           (-3) 0 (-1) (Some [7; 7])).
  reflexivity.
Defined.



(** X18: when the bucket table of the byte path cannot be allocated, both
    entry points return -2 and leave [SA], [U] and [A] as they were. *)
Theorem allocation_failure_leaves_buffers (malloc_ok : nat -> bool)
    (malloc_junk : nat -> Z -> Z) (SA_addr : Z) (T SA U A : list Z) (n fs : Z) :
  2 <= n -> 0 <= fs -> malloc_ok O = false ->
  libsais malloc_ok malloc_junk SA_addr (Some T) (Some SA) n fs = Some (-2, Some SA)
  /\ libsais_bwt malloc_ok malloc_junk SA_addr (Some T) (Some U) (Some A) n fs
     = Some (-2, Some U, Some A).
Proof.
  intros Hn Hfs Hm. split.
  - apply libsais_allocation_failure; assumption.
  - apply libsais_bwt_allocation_failure; assumption.
Qed.

Lemma allocation_failure_leaves_buffers_witness :
  libsais malloc_never junk_zero 4096 (Some banana) (Some [1; 2; 3; 4; 5; 6]) 6 0
  = Some (-2, Some [1; 2; 3; 4; 5; 6])
  /\ libsais_bwt malloc_never junk_zero 4096 (Some banana) (Some [9; 9; 9; 9; 9; 9])
       (Some [1; 2; 3; 4; 5; 6]) 6 0
     = Some (-2, Some [9; 9; 9; 9; 9; 9], Some [1; 2; 3; 4; 5; 6]).
Proof.
  apply (allocation_failure_leaves_buffers malloc_never junk_zero 4096 banana
           [1; 2; 3; 4; 5; 6] [9; 9; 9; 9; 9; 9] [1; 2; 3; 4; 5; 6] 6 0); [lia|lia|reflexivity].
Defined.

(** X19: texts shorter than two symbols never reach the driver, whatever
    the allocator does.  For [n = 0] both entry points return 0 and touch
    nothing; for [n = 1], [libsais] returns 0 with [SA[0] = 0] and
    [libsais_bwt] returns 1 with [U[0] = T[0]], and no other cell of
    [SA], [U] or [A] changes. *)
Theorem short_texts (malloc_ok : nat -> bool) (malloc_junk : nat -> Z -> Z) (SA_addr : Z)
    (T SA U A : list Z) (n fs : Z) :
  0 <= n < 2 -> 0 <= fs ->
  (exists SA',
     libsais malloc_ok malloc_junk SA_addr (Some T) (Some SA) n fs = Some (0, Some SA')
     /\ length SA' = length SA
     /\ (forall j, 0 <= j < n -> rd SA' j = 0)
     /\ (forall j, n <= j -> rd SA' j = rd SA j))
  /\ (exists U',
        libsais_bwt malloc_ok malloc_junk SA_addr (Some T) (Some U) (Some A) n fs
        = Some (n, Some U', Some A)
        /\ length U' = length U
        /\ (forall j, 0 <= j < n -> j < Z.of_nat (length U) -> rd U' j = rd T j)
        /\ (forall j, n <= j -> rd U' j = rd U j)).
Proof.
  intros Hn Hfs. unfold libsais, libsais_bwt.
  destruct (Z.ltb_spec n 0); [lia|]. destruct (Z.ltb_spec fs 0); [lia|]. cbn [orb].
  destruct (Z.ltb_spec n 2); [|lia]. destruct (Z.leb_spec n 1); [|lia].
  split; eexists; (split; [reflexivity|]).
  - destruct (Z.eqb_spec n 1) as [->|Hne].
    + split; [apply wr_length|]. split.
      * intros j Hj. assert (j = 0) as -> by lia.
        destruct (Z_lt_ge_dec 0 (Z.of_nat (length SA))).
        -- apply rd_wr_same. lia.
        -- rewrite wr_out by lia. apply rd_out. lia.
      * intros j Hj. apply rd_wr_other. lia.
    + split; [reflexivity|]. split; [intros; lia|reflexivity].
  - destruct (Z.eqb_spec n 1) as [->|Hne].
    + split; [apply wr_length|]. split.
      * intros j Hj HU. assert (j = 0) as -> by lia. apply rd_wr_same. lia.
      * intros j Hj. apply rd_wr_other. lia.
    + split; [reflexivity|]. split; [intros; lia|reflexivity].
Qed.

Lemma short_texts_witness :
  (exists SA',
     libsais malloc_never junk_zero 4096 (Some [120]) (Some [7; 7]) 1 1 = Some (0, Some SA')
     /\ length SA' = length [7; 7]
     /\ (forall j, 0 <= j < 1 -> rd SA' j = 0)
     /\ (forall j, 1 <= j -> rd SA' j = rd [7; 7] j))
  /\ (exists U',
        libsais_bwt malloc_never junk_zero 4096 (Some [120]) (Some [9; 9]) (Some [7; 7]) 1 1
        = Some (1, Some U', Some [7; 7])
        /\ length U' = length [9; 9]
        /\ (forall j, 0 <= j < 1 -> j < Z.of_nat (length [9; 9]) -> rd U' j = rd [120] j)
        /\ (forall j, 1 <= j -> rd U' j = rd [9; 9] j)).
Proof.
  apply (short_texts malloc_never junk_zero 4096 [120] [7; 7] [9; 9] [7; 7] 1 1); lia.
Defined.

(** ** Memory of the integer path *)

Lemma ld_st_same (M : mem) (p : ptr) (i v : Z) :
  in_block M p i -> ld (st M p i v) p i = v.
Proof. destruct p; cbn; intros H; apply rd_wr_same; lia. Qed.

Lemma ld_st_other (M : mem) (p : ptr) (i v : Z) (q : ptr) (j : Z) :
  cell_of p i <> cell_of q j -> ld (st M p i v) q j = ld M q j.
Proof.
  destruct p, q; cbn; intros H; try reflexivity; apply rd_wr_other; congruence.
Qed.

Lemma in_block_st (M : mem) (p : ptr) (i v : Z) (q : ptr) (j : Z) :
  in_block (st M p i v) q j <-> in_block M q j.
Proof. destruct p, q; cbn; rewrite ?wr_length; reflexivity. Qed.

Lemma cell_of_inj (p : ptr) (i j : Z) : cell_of p i = cell_of p j -> i = j.
Proof. destruct p; cbn; intros H; injection H; lia. Qed.

Lemma blit_m_eq (chunk : list Z) :
  forall (M : mem) (p : ptr) (i : Z),
  blit_m M p i chunk
  = match p with
    | PSA o => mk_mem (blit (m_sa M) (o + i) chunk) (m_heap M)
    | PHeap o => mk_mem (m_sa M) (blit (m_heap M) (o + i) chunk)
    end.
Proof.
  induction chunk as [|c cs IH]; intros M p i.
  - destruct p, M; reflexivity.
  - cbn [blit_m blit]. rewrite IH. destruct p; cbn; rewrite Z.add_assoc; reflexivity.
Qed.

Lemma memset0_m_spec (M : mem) (p : ptr) (k : Z) :
  0 <= k -> (forall c, 0 <= c < k -> in_block M p c) ->
  let M' := memset0_m M p 0 k in
  (forall c, 0 <= c < k -> ld M' p c = 0) /\
  (forall q j, (forall c, 0 <= c < k -> cell_of q j <> cell_of p c) -> ld M' q j = ld M q j) /\
  (forall q j, in_block M' q j <-> in_block M q j).
Proof.
  intros Hk Hin. cbv zeta. unfold memset0_m. rewrite blit_m_eq.
  split; [|split].
  - intros c Hc. pose proof (Hin c Hc) as Hb. pose proof (Hin 0 ltac:(lia)) as Hb0.
    destruct p as [o|o]; cbn in *; fold (memset0 (m_sa M) (o + 0) k);
      fold (memset0 (m_heap M) (o + 0) k); apply rd_memset0_in; lia.
  - intros q j Hq.
    destruct p as [o|o], q as [o'|o']; cbn in *; try reflexivity;
      fold (memset0 (m_sa M) (o + 0) k); fold (memset0 (m_heap M) (o + 0) k);
      apply rd_memset0_out;
      destruct (Z_lt_ge_dec (o' + j) (o + 0)); [left; lia| |left; lia|];
      right; destruct (Z_le_gt_dec (o + 0 + k) (o' + j)); try lia;
      exfalso; apply (Hq (o' + j - o)); [lia|f_equal; lia|lia|f_equal; lia].
  - intros q j. destruct p as [o|o], q as [o'|o']; cbn; rewrite ?blit_length; reflexivity.
Qed.

Lemma positions_from_snoc (a i : Z) :
  0 <= a <= i -> positions_from a (i + 1) = positions_from a i ++ [i].
Proof.
  intros H. unfold positions_from.
  replace (Z.to_nat (i + 1) - Z.to_nat a)%nat with (S (Z.to_nat i - Z.to_nat a)) by lia.
  rewrite seq_S, map_app. cbn [map]. do 2 f_equal. lia.
Qed.

Lemma occurrences_m_snoc (M : mem) (T : ptr) (a i c : Z) :
  0 <= a <= i ->
  occurrences_m M T a (i + 1) c = occurrences_m M T a i c + b2z (ld M T i =? c).
Proof.
  intros H. unfold occurrences_m. rewrite positions_from_snoc by exact H.
  rewrite filter_app, length_app. cbn [filter].
  destruct (ld M T i =? c); cbn [length b2z]; lia.
Qed.

(** ** Histograms and bucket borders of the integer path *)

Section Histogram.
Variable M : mem.
Variables T buckets : ptr.
Variables n k : Z.
Hypothesis Hn : 0 <= n.
Hypothesis Hk : 0 <= k.
Hypothesis Hin : forall c, 0 <= c < k -> in_block M buckets c.
Hypothesis Hdisj : forall i c, 0 <= i < n -> 0 <= c < k -> cell_of T i <> cell_of buckets c.
Hypothesis Hsym : forall i, 0 <= i < n -> 0 <= ld M T i < k.

Lemma count_suffixes_32s_spec :
  let Mc := libsais_count_suffixes_32s M T n k buckets in
  (forall c, 0 <= c < k -> ld Mc buckets c = occurrences_m M T 0 n c) /\
  (forall q j, off_table buckets k q j -> ld Mc q j = ld M q j) /\
  (forall q j, in_block Mc q j <-> in_block M q j).
Proof.
  cbv zeta. unfold libsais_count_suffixes_32s. cbv zeta.
  destruct (memset0_m_spec M buckets k Hk Hin) as (Z0 & F0 & B0).
  set (M0 := memset0_m M buckets 0 k) in *.
  set (step := fun i M1 => incr_m M1 buckets (ld M1 T i)).
  pose (P := fun (i : Z) (M1 : mem) =>
    (forall c, 0 <= c < k -> ld M1 buckets c = occurrences_m M T 0 i c) /\
    (forall q j, off_table buckets k q j -> ld M1 q j = ld M q j) /\
    (forall q j, in_block M1 q j <-> in_block M q j)).
  pose proof (scan_up P step 8 0 n (n - 7) (n - 7 + 7) M0 ltac:(lia) Hn ltac:(lia)
                ltac:(lia)) as H.
  cbv zeta in H.
  cbn [unrolled_up Z.of_nat Pos.of_succ_nat Pos.succ] in H.
  destruct (for_up 8 _ 0 (n - 7) M0) as [i2 M2]. cbn [fst snd] in H.
  apply H; clear H.
  - intros i M1 Hi (Hc & Hf & Hb). unfold step, incr_m.
    assert (ET : ld M1 T i = ld M T i).
    { apply Hf. intros c Hc'. apply Hdisj; assumption. }
    rewrite ET. pose proof (Hsym i Hi) as Hs.
    split; [|split].
    + intros c Hc'. rewrite occurrences_m_snoc by lia.
      destruct (Z.eqb_spec (ld M T i) c) as [->|Hne]; cbn [b2z].
      * rewrite ld_st_same by (apply Hb, Hin, Hc'). rewrite Hc by exact Hc'. reflexivity.
      * rewrite ld_st_other by (intros E; apply cell_of_inj in E; lia).
        rewrite Hc by exact Hc'. lia.
    + intros q j Hq. rewrite ld_st_other; [apply Hf, Hq|].
      intros E. apply (Hq (ld M T i) Hs). symmetry. exact E.
    + intros q j. rewrite in_block_st. apply Hb.
  - split; [|split].
    + intros c Hc. rewrite Z0 by exact Hc. unfold occurrences_m.
      rewrite positions_from_nil by lia. reflexivity.
    + intros q j Hq. apply F0, Hq.
    + exact B0.
Qed.

Lemma initialize_buckets_start_32s_1k_spec (M1 : mem) :
  (forall q j, in_block M1 q j <-> in_block M q j) ->
  let tot := fun c => ld M1 buckets c in
  let Ms := libsais_initialize_buckets_start_32s_1k M1 k buckets in
  (forall c, 0 <= c < k -> ld Ms buckets c = prefix_sum tot (Z.to_nat c)) /\
  (forall q j, off_table buckets k q j -> ld Ms q j = ld M1 q j).
Proof.
  intros Hb1. cbv zeta. unfold libsais_initialize_buckets_start_32s_1k.
  pose (tot := fun c => ld M1 buckets c).
  pose (P := fun (i : Z) (x : mem * Z) =>
    snd x = prefix_sum tot (Z.to_nat i) /\
    (forall c, 0 <= c < i -> ld (fst x) buckets c = prefix_sum tot (Z.to_nat c)) /\
    (forall c, i <= c < k -> ld (fst x) buckets c = tot c) /\
    (forall q j, off_table buckets k q j -> ld (fst x) q j = ld M1 q j) /\
    (forall q j, in_block (fst x) q j <-> in_block M q j)).
  match goal with |- context [for_up 1 ?body 0 ?j ?s] =>
    destruct (for_up_ind P 1 body 0 j s ltac:(lia)) as (HP & Hge & Hlt)
  end.
  - unfold P. cbn [fst snd]. split; [reflexivity|]. split; [intros; lia|].
    split; [reflexivity|]. split; [reflexivity|exact Hb1].
  - intros i [M2 sum] Hi (Hs & Hlo & Hhi & Hf & Hb). cbn [fst snd] in *.
    unfold P. cbn [fst snd].
    replace (Z.to_nat (i + 1)) with (S (Z.to_nat i)) by lia. cbn [prefix_sum].
    rewrite Z2Nat.id by lia. split; [|split; [|split; [|split]]].
    + rewrite Hs, (Hhi i) by lia. reflexivity.
    + intros c Hc. destruct (Z.eq_dec c i) as [->|Hne].
      * rewrite ld_st_same by (apply Hb, Hin; lia). exact Hs.
      * rewrite ld_st_other by (intros E; apply cell_of_inj in E; lia). apply Hlo. lia.
    + intros c Hc. rewrite ld_st_other by (intros E; apply cell_of_inj in E; lia).
      apply Hhi. lia.
    + intros q j Hq. rewrite ld_st_other; [apply Hf, Hq|].
      intros E. apply (Hq i); [lia|]. symmetry. exact E.
    + intros q j. rewrite in_block_st. apply Hb.
  - destruct (for_up 1 _ 0 _ _) as [i [Ms sum]]. cbn [fst snd] in *.
    destruct HP as (_ & Hlo & _ & Hf & _).
    split; [|exact Hf]. intros c Hc. apply Hlo. lia.
Qed.

Lemma initialize_buckets_end_32s_1k_spec (M1 : mem) :
  (forall q j, in_block M1 q j <-> in_block M q j) ->
  let tot := fun c => ld M1 buckets c in
  let Me := libsais_initialize_buckets_end_32s_1k M1 k buckets in
  (forall c, 0 <= c < k -> ld Me buckets c = prefix_sum tot (Z.to_nat (c + 1))) /\
  (forall q j, off_table buckets k q j -> ld Me q j = ld M1 q j).
Proof.
  intros Hb1. cbv zeta. unfold libsais_initialize_buckets_end_32s_1k.
  pose (tot := fun c => ld M1 buckets c).
  pose (P := fun (i : Z) (x : mem * Z) =>
    snd x = prefix_sum tot (Z.to_nat i) /\
    (forall c, 0 <= c < i -> ld (fst x) buckets c = prefix_sum tot (Z.to_nat (c + 1))) /\
    (forall c, i <= c < k -> ld (fst x) buckets c = tot c) /\
    (forall q j, off_table buckets k q j -> ld (fst x) q j = ld M1 q j) /\
    (forall q j, in_block (fst x) q j <-> in_block M q j)).
  match goal with |- context [for_up 1 ?body 0 ?j ?s] =>
    destruct (for_up_ind P 1 body 0 j s ltac:(lia)) as (HP & Hge & Hlt)
  end.
  - unfold P. cbn [fst snd]. split; [reflexivity|]. split; [intros; lia|].
    split; [reflexivity|]. split; [reflexivity|exact Hb1].
  - intros i [M2 sum] Hi (Hs & Hlo & Hhi & Hf & Hb). cbn [fst snd] in *.
    unfold P. cbn [fst snd].
    replace (Z.to_nat (i + 1)) with (S (Z.to_nat i)) by lia. cbn [prefix_sum].
    rewrite Z2Nat.id by lia. rewrite Hs, (Hhi i) by lia.
    split; [reflexivity|]. split; [|split; [|split]].
    + intros c Hc. destruct (Z.eq_dec c i) as [->|Hne].
      * rewrite ld_st_same by (apply Hb, Hin; lia).
        replace (Z.to_nat (i + 1)) with (S (Z.to_nat i)) by lia. cbn [prefix_sum].
        rewrite Z2Nat.id by lia. reflexivity.
      * rewrite ld_st_other by (intros E; apply cell_of_inj in E; lia). apply Hlo. lia.
    + intros c Hc. rewrite ld_st_other by (intros E; apply cell_of_inj in E; lia).
      apply Hhi. lia.
    + intros q j Hq. rewrite ld_st_other; [apply Hf, Hq|].
      intros E. apply (Hq i); [lia|]. symmetry. exact E.
    + intros q j. rewrite in_block_st. apply Hb.
  - destruct (for_up 1 _ 0 _ _) as [i [Me sum]]. cbn [fst snd] in *.
    destruct HP as (_ & Hlo & _ & Hf & _).
    split; [|exact Hf]. intros c Hc. apply Hlo. lia.
Qed.

End Histogram.

Lemma prefix_sum_ext (f g : Z -> Z) (j : nat) :
  (forall c, 0 <= c < Z.of_nat j -> f c = g c) -> prefix_sum f j = prefix_sum g j.
Proof.
  induction j as [|j IH]; intros H; [reflexivity|].
  cbn [prefix_sum]. rewrite IH by (intros; apply H; lia). rewrite H by lia. reflexivity.
Qed.

(** X20: [libsais_count_suffixes_32s] builds the histogram of the text: when
    the table [buckets[0 .. k)] lies inside its block and apart from the
    text, and the symbols of [T[0 .. n)] are below [k], cell [c] of the
    table ends as the number of positions that hold [c], and no cell
    outside the table changes. *)
Theorem count_suffixes_32s_histogram (M : mem) (T buckets : ptr) (n k : Z) :
  0 <= n -> 0 <= k ->
  (forall c, 0 <= c < k -> in_block M buckets c) ->
  (forall i c, 0 <= i < n -> 0 <= c < k -> cell_of T i <> cell_of buckets c) ->
  (forall i, 0 <= i < n -> 0 <= ld M T i < k) ->
  let Mc := libsais_count_suffixes_32s M T n k buckets in
  (forall c, 0 <= c < k -> ld Mc buckets c = occurrences_m M T 0 n c) /\
  (forall q j, off_table buckets k q j -> ld Mc q j = ld M q j).
Proof.
  intros Hn Hk Hin Hdisj Hsym.
  destruct (count_suffixes_32s_spec M T buckets n k Hn Hk Hin Hdisj Hsym) as (Hc & Hf & _).
  split; [exact Hc|exact Hf].
Qed.

Lemma count_suffixes_32s_histogram_witness :
  let M := mk_mem [1; 0; 2; 0; 2; 0] [9; 9; 9] in
  let Mc := libsais_count_suffixes_32s M (PSA 0) 6 3 (PHeap 0) in
  (forall c, 0 <= c < 3 -> ld Mc (PHeap 0) c = occurrences_m M (PSA 0) 0 6 c) /\
  (forall q j, off_table (PHeap 0) 3 q j -> ld Mc q j = ld M q j).
Proof.
  apply (count_suffixes_32s_histogram (mk_mem [1; 0; 2; 0; 2; 0] [9; 9; 9]) (PSA 0) (PHeap 0)
           6 3); try lia.
  - intros c Hc. cbn. lia.
  - intros i c _ _. cbn. discriminate.
  - intros i Hi.
    assert (i = 0 \/ i = 1 \/ i = 2 \/ i = 3 \/ i = 4 \/ i = 5)
      as [-> | [-> | [-> | [-> | [-> | ->]]]]] by lia; vm_compute; split; congruence.
Defined.

(** X21: the bucket borders of the 1k variant.  After
    [libsais_count_suffixes_32s], under the same conditions,
    [libsais_initialize_buckets_start_32s_1k] leaves in cell [c] the
    number of positions of [T[0 .. n)] with a symbol below [c], and
    [libsais_initialize_buckets_end_32s_1k] the number of positions with
    a symbol up to [c]; the text is not touched. *)
Theorem bucket_borders_32s_1k (M : mem) (T buckets : ptr) (n k : Z) :
  0 <= n -> 0 <= k ->
  (forall c, 0 <= c < k -> in_block M buckets c) ->
  (forall i c, 0 <= i < n -> 0 <= c < k -> cell_of T i <> cell_of buckets c) ->
  (forall i, 0 <= i < n -> 0 <= ld M T i < k) ->
  let Mc := libsais_count_suffixes_32s M T n k buckets in
  let Ms := libsais_initialize_buckets_start_32s_1k Mc k buckets in
  let Me := libsais_initialize_buckets_end_32s_1k Mc k buckets in
  (forall c, 0 <= c < k ->
     ld Ms buckets c = prefix_sum (occurrences_m M T 0 n) (Z.to_nat c) /\
     ld Me buckets c = prefix_sum (occurrences_m M T 0 n) (Z.to_nat (c + 1))) /\
  (forall i, 0 <= i < n -> ld Ms T i = ld M T i /\ ld Me T i = ld M T i).
Proof.
  intros Hn Hk Hin Hdisj Hsym.
  destruct (count_suffixes_32s_spec M T buckets n k Hn Hk Hin Hdisj Hsym) as (Hc & Hf & Hb).
  set (Mc := libsais_count_suffixes_32s M T n k buckets) in *.
  destruct (initialize_buckets_start_32s_1k_spec M buckets k Hin Mc Hb) as (Hs & Hfs).
  destruct (initialize_buckets_end_32s_1k_spec M buckets k Hin Mc Hb) as (He & Hfe).
  cbv zeta in *. split.
  - intros c Hcc. rewrite Hs, He by exact Hcc.
    split; apply prefix_sum_ext; intros c' Hc'; apply Hc; lia.
  - intros i Hi.
    assert (Hoff : off_table buckets k T i) by (intros c Hcc; apply Hdisj; assumption).
    rewrite Hfs, Hfe, Hf by exact Hoff. split; reflexivity.
Qed.

Lemma bucket_borders_32s_1k_witness :
  let M := mk_mem [1; 0; 2; 0; 2; 0] [9; 9; 9] in
  let Mc := libsais_count_suffixes_32s M (PSA 0) 6 3 (PHeap 0) in
  let Ms := libsais_initialize_buckets_start_32s_1k Mc 3 (PHeap 0) in
  let Me := libsais_initialize_buckets_end_32s_1k Mc 3 (PHeap 0) in
  (forall c, 0 <= c < 3 ->
     ld Ms (PHeap 0) c = prefix_sum (occurrences_m M (PSA 0) 0 6) (Z.to_nat c) /\
     ld Me (PHeap 0) c = prefix_sum (occurrences_m M (PSA 0) 0 6) (Z.to_nat (c + 1))) /\
  (forall i, 0 <= i < 6 -> ld Ms (PSA 0) i = ld M (PSA 0) i /\ ld Me (PSA 0) i = ld M (PSA 0) i).
Proof.
  apply (bucket_borders_32s_1k (mk_mem [1; 0; 2; 0; 2; 0] [9; 9; 9]) (PSA 0) (PHeap 0) 6 3);
    try lia.
  - intros c Hc. cbn. lia.
  - intros i c _ _. cbn. discriminate.
  - intros i Hi.
    assert (i = 0 \/ i = 1 \/ i = 2 \/ i = 3 \/ i = 4 \/ i = 5)
      as [-> | [-> | [-> | [-> | [-> | ->]]]]] by lia; vm_compute; split; congruence.
Defined.



(** ** Clearing the buckets between the final scans *)

Lemma rd_wr_cases (l : list Z) (i v j : Z) :
  rd (wr l i v) j = v \/ rd (wr l i v) j = rd l j.
Proof.
  destruct (Z.eq_dec i j) as [->|Hne]; [|right; apply rd_wr_other; exact Hne].
  destruct (Z_lt_ge_dec j 0).
  - right. unfold wr. destruct (Z.ltb_spec j 0); [reflexivity|lia].
  - destruct (Z_lt_ge_dec j (Z.of_nat (length l))).
    + left. apply rd_wr_same. lia.
    + right. rewrite wr_out by lia. reflexivity.
Qed.

Lemma rd_memset0_cases (l : list Z) (i cnt j : Z) :
  rd (memset0 l i cnt) j = 0 \/ rd (memset0 l i cnt) j = rd l j.
Proof.
  unfold memset0. generalize (Z.to_nat cnt) as c. intros c. revert l i.
  induction c as [|c IH]; intros l i; cbn [repeat blit]; [auto|].
  destruct (IH (wr l i 0) (i + 1)) as [H|H]; [auto|]. rewrite H. apply rd_wr_cases.
Qed.

(** X23: [libsais_clear_lms_suffixes_omp] zeroes the cells of every bucket
    [[bucket_start[c], bucket_end[c])] with [c < k], and leaves the cells
    outside all of them as they were. *)
Theorem clear_lms_suffixes_omp_spec (SA buckets : list Z) (n k bucket_start bucket_end
    threads : Z) :
  let SA' := libsais_clear_lms_suffixes_omp SA n k buckets bucket_start bucket_end threads in
  length SA' = length SA /\
  (forall c j, 0 <= c < k ->
     0 <= rd buckets (bucket_start + c) <= j -> j < rd buckets (bucket_end + c) ->
     rd SA' j = 0) /\
  (forall j,
     (forall c, 0 <= c < k ->
        j < rd buckets (bucket_start + c) \/ rd buckets (bucket_end + c) <= j) ->
     rd SA' j = rd SA j).
Proof.
  cbv zeta. unfold libsais_clear_lms_suffixes_omp.
  pose (P := fun (i : Z) (S : list Z) =>
    length S = length SA /\
    (forall c j, 0 <= c < i ->
       0 <= rd buckets (bucket_start + c) <= j -> j < rd buckets (bucket_end + c) ->
       rd S j = 0) /\
    (forall j,
       (forall c, 0 <= c < i ->
          j < rd buckets (bucket_start + c) \/ rd buckets (bucket_end + c) <= j) ->
       rd S j = rd SA j)).
  match goal with |- context [for_up 1 ?body 0 k SA] =>
    destruct (for_up_ind P 1 body 0 k SA ltac:(lia)) as ((Hl & Hz & Hf) & Hge & Hlt)
  end.
  - split; [reflexivity|]. split; [intros; lia|reflexivity].
  - intros i S Hi (Hl & Hz & Hf).
    set (s := rd buckets (bucket_start + i)). set (e := rd buckets (bucket_end + i)).
    split; [|split].
    + destruct (s <? e); [rewrite memset0_length|]; exact Hl.
    + intros c j Hc Hs He. destruct (Z.eq_dec c i) as [->|Hne].
      * fold s in Hs. fold e in He. destruct (Z.ltb_spec s e); [|lia].
        apply rd_memset0_in; lia.
      * assert (H0 : rd S j = 0) by (apply (Hz c); [lia|exact Hs|exact He]).
        destruct (s <? e); [|exact H0].
        destruct (rd_memset0_cases S s (e - s) j) as [H|H]; [exact H|]. rewrite H. exact H0.
    + intros j Hj. assert (H0 : rd S j = rd SA j) by (apply Hf; intros c Hc; apply Hj; lia).
      destruct (Z.ltb_spec s e); [|exact H0].
      rewrite rd_memset0_out; [exact H0|].
      destruct (Hj i ltac:(lia)) as [H'|H']; fold s in H'; fold e in H'; lia.
  - split; [exact Hl|]. split.
    + intros c j Hc. apply Hz. lia.
    + intros j Hj. apply Hf. intros c Hc. apply Hj. lia.
Qed.


(** ** Argument errors of the BWT entry point *)

Lemma libsais_bwt_argument_error_witness :
  libsais_bwt malloc_always junk_zero 4096 (Some banana) None (Some [1; 2; 3; 4; 5; 6]) 6 0
  = Some (-1, None, Some [1; 2; 3; 4; 5; 6]).
Proof.
  apply (libsais_bwt_argument_error malloc_always junk_zero 4096 (Some banana) None
           (Some [1; 2; 3; 4; 5; 6]) 6 0).
  right. left. reflexivity.
Defined.
